(** * Sixel decoding and image fragments of libterminal (contour)

    A shallow embedding of [src/terminal/SixelParser.cpp] and of
    [RasterizedImage::fragment] from [src/terminal/Image.cpp], with the
    properties of the palette, the image builder, the parser and the
    fragmenter proved about it.

    Conventions of the embedding.
    - [unsigned], [char32_t] and [size_t] values are integers of [Z] reduced
      modulo 2^32 (2^64 for [size_t]) after every arithmetic operation, as
      C++ defines it.
    - [int] values are integers of [Z] reduced to the two's complement range
      after every operation.  C++ leaves signed overflow undefined; the
      embedding wraps, as the compiled code does.
    - [std::vector] is a [list]; [v[i] = x] is stdpp's [<[i:=x]> v], which
      leaves the list alone when [i] is out of range (C++: undefined), and
      [v[i]] is [v !!! i].  The theorems assume what makes every access of
      the source fall inside its vector. *)

From Stdlib Require Import ZArith Lia.
From Stdlib Require Import Floats.SpecFloat.
From stdpp Require Import base numbers list.

Local Open Scope Z_scope.

(** ** Machine integers *)

Module Machine.

Definition UINT_MAX : Z := 2 ^ 32 - 1.
Definition INT_MAX : Z := 2 ^ 31 - 1.
Definition INT_MIN : Z := - 2 ^ 31.

(** Conversion to [unsigned] (32 bits). *)
Definition u32 (x : Z) : Z := x mod 2 ^ 32.

(** Conversion to [int] (32 bits, two's complement). *)
Definition i32 (x : Z) : Z := (x + 2 ^ 31) mod 2 ^ 32 - 2 ^ 31.

(** Conversion to [uint8_t] and to [int8_t]. *)
Definition u8 (x : Z) : Z := x mod 2 ^ 8.
Definition i8 (x : Z) : Z := (x + 2 ^ 7) mod 2 ^ 8 - 2 ^ 7.

(** Conversion to [size_t] (64 bits). *)
Definition usize (x : Z) : Z := x mod 2 ^ 64.

(** Arithmetic of [unsigned] operands. *)
Definition uadd (x y : Z) : Z := u32 (x + y).
Definition usub (x y : Z) : Z := u32 (x - y).
Definition umul (x y : Z) : Z := u32 (x * y).

(** Arithmetic of [int] operands. *)
Definition iadd (x y : Z) : Z := i32 (x + y).
Definition imul (x y : Z) : Z := i32 (x * y).

(** Arithmetic of [size_t] operands. *)
Definition szmul (x y : Z) : Z := usize (x * y).

(** [std::clamp(v, lo, hi)]. *)
Definition clamp (v lo hi : Z) : Z :=
  if v <? lo then lo else if hi <? v then hi else v.

Definition is_unsigned (x : Z) : Prop := 0 <= x <= UINT_MAX.
Definition is_int (x : Z) : Prop := INT_MIN <= x <= INT_MAX.

End Machine.

Import Machine.

(** ** Colours, sizes, coordinates

    The headers that declare these types ([terminal/Color.h],
    [crispy/size.h], [terminal/Coordinate.h]) are not among the sources. *)

(** Modelled from the spec: [RGBColor] is "(red, green, blue), 8-bit
    channels"; the sources build it as [RGBColor{r, g, b}] from [uint8_t]
    values and read [.red], [.green], [.blue]. *)
Record RGBColor := rgb { red : Z; green : Z; blue : Z }.

(** Modelled from the spec: [RGBAColor] "adds 8-bit alpha"; the sources read
    it through [red()], [green()], [blue()] and [alpha()]. *)
Record RGBAColor := rgba { red_a : Z; green_a : Z; blue_a : Z; alpha_a : Z }.

(** Modelled from the spec: [crispy::Size] is a width and a height.  Both
    are [unsigned] in the sources: [setRaster] clamps them with
    [clamp(_, 0u, _)] and [fragment] takes their [min] with [unsigned]
    values. *)
Record Size := mkSize { width : Z; height : Z }.

(** Modelled from the spec: [terminal::Coordinate] is a row and a column,
    in this order ([Coordinate{y, x}] in [render]).  Both are [int] in the
    sources: [write] tests them against 0 and [fragment] casts them to
    [unsigned]. *)
Record Coordinate := mkCoordinate { row : Z; column : Z }.

Definition Coordinate_ok (c : Coordinate) : Prop :=
  is_int (row c) /\ is_int (column c).

#[global] Instance RGBColor_inhabited : Inhabited RGBColor := populate (rgb 0 0 0).

#[global] Instance RGBColor_eq_dec : EqDecision RGBColor.
Proof. solve_decision. Defined.

(** ** SixelColorPalette *)

Module SixelColorPalette.

(** VT 340 default colour palette. *)
Definition defaultColors : list RGBColor :=
  [ rgb 0 0 0;        (*  0: black *)
    rgb 51 51 204;    (*  1: blue *)
    rgb 204 33 33;    (*  2: red *)
    rgb 51 204 51;    (*  3: green *)
    rgb 204 51 204;   (*  4: magenta *)
    rgb 51 204 204;   (*  5: cyan *)
    rgb 204 204 51;   (*  6: yellow *)
    rgb 135 135 135;  (*  7: gray 50% *)
    rgb 66 66 66;     (*  8: gray 25% *)
    rgb 84 84 153;    (*  9: less saturated blue *)
    rgb 153 66 66;    (* 10: less saturated red *)
    rgb 84 153 84;    (* 11: less saturated green *)
    rgb 153 84 153;   (* 12: less saturated magenta *)
    rgb 84 153 153;   (* 13: less saturated cyan *)
    rgb 153 153 84;   (* 14: less saturated yellow *)
    rgb 204 204 204   (* 15: gray 75% *) ].

(** Modelled from the spec: the class is declared in [SixelParser.h], which
    is not among the sources; its two members are the sequence of colours
    [palette_] and the cap [maxSize_], a [size_t]. *)
Record t := mk { palette_ : list RGBColor; maxSize_ : Z }.

(** Modelled from the spec: the inline accessor [size()] is declared in the
    header [SixelParser.h], which is not among the sources; the spec calls
    its value [palette.length]. *)
Definition size (p : t) : Z := Z.of_nat (length (palette_ p)).

(** [palette_.resize(n)]: new slots hold a value-initialised [RGBColor]. *)
Definition resize_palette (n : Z) (l : list RGBColor) : list RGBColor :=
  resize (Z.to_nat n) (rgb 0 0 0) l.

(** One round of the loop of [reset]: [palette_[i] = defaultColors[i]]. *)
Definition reset_step (l : list RGBColor) (i : nat) : list RGBColor :=
  <[i := defaultColors !!! i]> l.

Definition reset (p : t) : t :=
  let n := Z.min (size p) (Z.of_nat (length defaultColors)) in
  mk (foldl reset_step (palette_ p) (seq 0 (Z.to_nat n))) (maxSize_ p).

Definition setSize (newSize : Z) (p : t) : t :=
  mk (resize_palette (Z.max 0 (Z.min newSize (maxSize_ p))) (palette_ p))
     (maxSize_ p).

Definition setMaxSize (value : Z) (p : t) : t :=
  mk (palette_ p) value.

(** The constructor [SixelColorPalette(_size, _maxSize)]. *)
Definition create (size0 maxSize : Z) : t :=
  let p := mk [] maxSize in
  let p := if 0 <? size0 then mk (resize_palette size0 (palette_ p)) maxSize
           else p in
  reset p.

Definition setColor (index : Z) (color : RGBColor) (p : t) : t :=
  if index <? maxSize_ p then
    let p := if size p <=? index then setSize (uadd index 1) p else p in
    if (0 <=? index) && (index <? Z.of_nat (length (palette_ p))) then
      mk (<[Z.to_nat index := color]> (palette_ p)) (maxSize_ p)
    else p
  else p.

(** [at(_index)]: [palette_[_index % palette_.size()]].  On an empty palette
    the source divides by zero and the program is stopped; the embedding
    has a value there (the default colour), which is not a behaviour of the
    source: the statements on [at] assume a palette that is not empty. *)
Definition at_ (p : t) (index : Z) : RGBColor :=
  palette_ p !!! Z.to_nat (index mod Z.of_nat (length (palette_ p))).

End SixelColorPalette.

(** ** The event sink of the parser *)

(** Modelled from the spec: [SixelParser::Events] is declared in
    [SixelParser.h], which is not among the sources; the spec lists its six
    callbacks.  A sink is a state type with the callbacks as state
    transformers. *)

Class Events (S : Type) := {
  ev_render : Z -> S -> S;
  ev_setRaster : Z -> Z -> Size -> S -> S;
  ev_useColor : Z -> S -> S;
  ev_setColor : Z -> RGBColor -> S -> S;
  ev_rewind : S -> S;
  ev_newline : S -> S
}.

(** ** Writing through a moving pointer

    [clear] and [fragment] fill a vector through a pointer that starts at
    its first byte: [*p++ = v].  A [Cursor] is the vector together with the
    offset of the pointer. *)

Record Cursor := mkCursor { mem : list Z; ptr : nat }.

(** [*p++ = v] *)
Definition put (v : Z) (c : Cursor) : Cursor :=
  mkCursor (<[ptr c := v]> (mem c)) (S (ptr c)).

(** The four stores of one pixel: red, green, blue, alpha. *)
Definition put_color (c : RGBAColor) (o : Cursor) : Cursor :=
  put (alpha_a c) (put (blue_a c) (put (green_a c) (put (red_a c) o))).

(** [target = std::copy(first, last, target)], element by element. *)
Definition copy_to (src : list Z) (o : Cursor) : Cursor :=
  foldl (fun o v => put v o) o src.

(** ** SixelImageBuilder *)

Module SixelImageBuilder.

(** Modelled from the spec: the class is declared in [SixelParser.h], which
    is not among the sources; the members are those the constructor
    initialises.  The palette is held through a shared pointer; the builder
    is the only one to touch it in what follows. *)
Record t := mk {
  maxSize_ : Size;
  colors_ : SixelColorPalette.t;
  size_ : Size;
  buffer_ : list Z;
  sixelCursor_ : Coordinate;
  currentColor_ : Z;
  aspectRatio_ : Z * Z   (* nominator, denominator *)
}.

Definition with_buffer (buf : list Z) (b : t) : t :=
  mk (maxSize_ b) (colors_ b) (size_ b) buf (sixelCursor_ b)
     (currentColor_ b) (aspectRatio_ b).

Definition with_cursor (c : Coordinate) (b : t) : t :=
  mk (maxSize_ b) (colors_ b) (size_ b) (buffer_ b) c
     (currentColor_ b) (aspectRatio_ b).

Definition clear (fillColor : RGBAColor) (b : t) : t :=
  let b := with_cursor (mkCoordinate 0 0) b in
  let n := umul (width (size_ b)) (height (size_ b)) in
  let p := mkCursor (buffer_ b) 0 in
  with_buffer (mem (Nat.iter (Z.to_nat n) (put_color fillColor) p)) b.

(** The constructor: the buffer is allocated with
    [size_.width * size_.height * 4] zero bytes, then cleared. *)
Definition create (maxSize : Size) (aspectVertical aspectHorizontal : Z)
    (backgroundColor : RGBAColor) (colorPalette : SixelColorPalette.t) : t :=
  let n := umul (umul (width maxSize) (height maxSize)) 4 in
  clear backgroundColor
    (mk maxSize colorPalette maxSize (replicate (Z.to_nat n) 0)
        (mkCoordinate 0 0) 0 (aspectVertical, aspectHorizontal)).

(** [at(_coord)]: the coordinates are [int], the sizes [unsigned], so the
    remainders and the offset are computed in [unsigned]. *)
Definition at_ (b : t) (coord : Coordinate) : RGBAColor :=
  let r := u32 (row coord) mod height (size_ b) in
  let c := u32 (column coord) mod width (size_ b) in
  let base := Z.to_nat (uadd (umul (umul r (width (size_ b))) 4) (umul c 4)) in
  rgba (buffer_ b !!! base) (buffer_ b !!! (base + 1)%nat)
       (buffer_ b !!! (base + 2)%nat) (buffer_ b !!! (base + 3)%nat).

Definition write (coord : Coordinate) (value : RGBColor) (b : t) : t :=
  if (0 <=? row coord) && (u32 (row coord) <? height (size_ b))
     && (0 <=? column coord) && (u32 (column coord) <? width (size_ b))
  then
    let base := uadd (umul (umul (row coord) (width (size_ b))) 4)
                     (imul (column coord) 4) in
    let buf := buffer_ b in
    let buf := <[Z.to_nat (uadd base 0) := red value]> buf in
    let buf := <[Z.to_nat (uadd base 1) := green value]> buf in
    let buf := <[Z.to_nat (uadd base 2) := blue value]> buf in
    let buf := <[Z.to_nat (uadd base 3) := 255]> buf in
    with_buffer buf b
  else b.

Definition setColor (index : Z) (color : RGBColor) (b : t) : t :=
  mk (maxSize_ b) (SixelColorPalette.setColor index color (colors_ b))
     (size_ b) (buffer_ b) (sixelCursor_ b) (currentColor_ b) (aspectRatio_ b).

(** [currentColor_ = _index % colors_->size()].  On an empty palette the
    source divides by zero and the program is stopped; the embedding has a
    value there (the index), which is not a behaviour of the source: the
    statements on the colour selected assume a palette that is not
    empty. *)
Definition useColor (index : Z) (b : t) : t :=
  mk (maxSize_ b) (colors_ b) (size_ b) (buffer_ b) (sixelCursor_ b)
     (index mod SixelColorPalette.size (colors_ b)) (aspectRatio_ b).

Definition rewind (b : t) : t :=
  with_cursor (mkCoordinate (row (sixelCursor_ b)) 0) b.

Definition newline (b : t) : t :=
  let b := with_cursor (mkCoordinate (row (sixelCursor_ b)) 0) b in
  if u32 (iadd (row (sixelCursor_ b)) 6) <? height (size_ b) then
    with_cursor (mkCoordinate (iadd (row (sixelCursor_ b)) 6)
                              (column (sixelCursor_ b))) b
  else b.

Definition setRaster (pan pad : Z) (imageSize : Size) (b : t) : t :=
  let w := clamp (width imageSize) 0 (width (maxSize_ b)) in
  let h := clamp (height imageSize) 0 (height (maxSize_ b)) in
  mk (maxSize_ b) (colors_ b) (mkSize w h)
     (resize (Z.to_nat (umul (umul w h) 4)) 0 (buffer_ b))
     (sixelCursor_ b) (currentColor_ b) (pan, pad).

(** Modelled from the spec: the inline accessor [currentColor()] is declared
    in the header [SixelParser.h], which is not among the sources; the spec
    calls its value the current palette colour, the palette entry at
    [currentColor]. *)
Definition currentColor (b : t) : RGBColor :=
  SixelColorPalette.at_ (colors_ b) (currentColor_ b).

(** One round of the loop of [render], for the bit [i] of the sixel; [x] is
    the column read before the loop. *)
Definition render_bit (sixel x : Z) (b : t) (i : Z) : t :=
  let y := uadd (row (sixelCursor_ b)) i in
  let pos := mkCoordinate (i32 y) x in
  let pin := Z.shiftl 1 i in
  let pinned := negb (Z.land sixel pin =? 0) in
  if pinned then write pos (currentColor b) b else b.

Definition render (sixel : Z) (b : t) : t :=
  let x := column (sixelCursor_ b) in
  if u32 x <? width (size_ b) then
    let b := foldl (render_bit sixel x) b [0; 1; 2; 3; 4; 5] in
    with_cursor (mkCoordinate (row (sixelCursor_ b))
                              (iadd (column (sixelCursor_ b)) 1)) b
  else b.

End SixelImageBuilder.

(** The builder is the canonical sink. *)
#[global] Instance SixelImageBuilder_Events : Events SixelImageBuilder.t := {
  ev_render := SixelImageBuilder.render;
  ev_setRaster := SixelImageBuilder.setRaster;
  ev_useColor := SixelImageBuilder.useColor;
  ev_setColor := SixelImageBuilder.setColor;
  ev_rewind := SixelImageBuilder.rewind;
  ev_newline := SixelImageBuilder.newline
}.

(** ** Single precision arithmetic

    [convertValue] of [SixelParser::leaveState] computes in [float].  The
    operations are those of IEEE 754 binary32, round to nearest even, taken
    from the Standard Library's specification of floating point numbers with
    a 24 bit mantissa. *)

Module Float32.

Definition prec : Z := 24.
Definition emax : Z := 128.

(** [static_cast<float>(v)] for an [unsigned] value, and float literals with
    an integral value. *)
Definition of_unsigned (v : Z) : spec_float := binary_normalize prec emax v 0 false.

Definition mul : spec_float -> spec_float -> spec_float := SFmul prec emax.
Definition div : spec_float -> spec_float -> spec_float := SFdiv prec emax.

(** The integral part of a finite float (truncation towards zero). *)
Definition truncate (f : spec_float) : Z :=
  match f with
  | S754_finite s m e =>
      let a := if 0 <=? e then Z.pos m * 2 ^ e else Z.pos m / 2 ^ (- e) in
      if s then - a else a
  | _ => 0
  end.

(** [static_cast<unsigned>(f)].  C++ leaves the conversion undefined when the
    integral part does not fit; the embedding reduces it modulo 2^32. *)
Definition to_unsigned (f : spec_float) : Z := u32 (truncate f).

End Float32.

(** ** SixelParser *)

Module SixelParser.

(** Modelled from the spec: the states are declared in [SixelParser.h],
    which is not among the sources; they are the five cases of the [switch]
    of [parse]. *)
Inductive State :=
  | Ground
  | RasterSettings
  | RepeatIntroducer
  | ColorIntroducer
  | ColorParam.

(** Modelled from the spec: [Colorspace] is declared in the header; the
    sources name its two values. *)
Inductive Colorspace := RGB | HSL.

#[global] Instance State_eq_dec : EqDecision State.
Proof. solve_decision. Defined.

(** Modelled from the spec: the members [state_] and [params_] are declared
    in [SixelParser.h], which is not among the sources; [params_] is the
    "ordered list of unsigned integers" of the spec.  The sink and the
    finalizer are passed along beside the parser. *)
Record t := mk { state_ : State; params_ : list Z }.

(** Modelled from the spec: the member initialisers are in the header; the
    initial state is [Ground], and the parameter list starts empty. *)
Definition create : t := mk Ground [].

Definition isDigit (value : Z) : bool := (48 <=? value) && (value <=? 57).

Definition toDigit (value : Z) : Z := usub value 48.

Definition isSixel (value : Z) : bool := (63 <=? value) && (value <=? 126).

Definition toSixel (value : Z) : Z := i8 (usub value 63).

(** The lambda [convertValue] of [leaveState]: a colour component from the
    range 0..100 to the range 0..255. *)
Definition convertValue (value : Z) : Z :=
  u8 (Float32.to_unsigned
        (Float32.div
           (Float32.mul (Float32.of_unsigned value) (Float32.of_unsigned 255))
           (Float32.of_unsigned 100))
      mod 256).

(** [params_.back()] updated in place; on an empty vector the source has no
    defined behaviour and the embedding changes nothing. *)
Definition paramShiftAndAddDigit (value : Z) (p : t) : t :=
  let i := pred (length (params_ p)) in
  let number := params_ p !!! i in
  mk (state_ p) (<[i := uadd (umul number 10) value]> (params_ p)).

Definition push_param (p : t) : t := mk (state_ p) (params_ p ++ [0]).

Section Sink.

Context {S : Type} `{Events S}.

Definition enterState (ps : t * S) : t * S :=
  let (p, s) := ps in
  match state_ p with
  | ColorIntroducer | RepeatIntroducer | RasterSettings => (mk (state_ p) [0], s)
  | Ground | ColorParam => (p, s)
  end.

Definition leaveState (ps : t * S) : t * S :=
  let (p, s) := ps in
  match state_ p with
  | Ground | ColorIntroducer | RepeatIntroducer => (p, s)
  | RasterSettings =>
      if (length (params_ p) =? 4)%nat then
        let pan := params_ p !!! 0%nat in
        let pad := params_ p !!! 1%nat in
        let xPixels := params_ p !!! 2%nat in
        let yPixels := params_ p !!! 3%nat in
        (mk Ground (params_ p), ev_setRaster pan pad (mkSize xPixels yPixels) s)
      else (p, s)
  | ColorParam =>
      if (length (params_ p) =? 1)%nat then
        let index := params_ p !!! 0%nat in
        (p, ev_useColor index s)
      else if (length (params_ p) =? 5)%nat then
        let index := params_ p !!! 0%nat in
        let colorSpace := if params_ p !!! 1%nat =? 2 then RGB else HSL in
        match colorSpace with
        | RGB =>
            let p1 := convertValue (params_ p !!! 2%nat) in
            let p2 := convertValue (params_ p !!! 3%nat) in
            let p3 := convertValue (params_ p !!! 4%nat) in
            let color := rgb p1 p2 p3 in
            (p, ev_setColor index color s)
        | HSL => (p, s)
        end
      else (p, s)
  end.

Definition transitionTo (newState : State) (ps : t * S) : t * S :=
  let (p, s) := leaveState ps in
  enterState (mk newState (params_ p), s).

Definition fallback (value : Z) (ps : t * S) : t * S :=
  if value =? 35 (* # *) then transitionTo ColorIntroducer ps
  else if value =? 33 (* ! *) then transitionTo RepeatIntroducer ps
  else if value =? 34 (* double quote *) then transitionTo RasterSettings ps
  else if value =? 36 (* $ *) then
    let (p, s) := transitionTo Ground ps in (p, ev_rewind s)
  else if value =? 45 (* - *) then
    let (p, s) := transitionTo Ground ps in (p, ev_newline s)
  else
    let ps := if decide (state_ (fst ps) = Ground) then ps
              else transitionTo Ground ps in
    if isSixel value then (fst ps, ev_render (toSixel value) (snd ps))
    else ps.

Definition parse (value : Z) (ps : t * S) : t * S :=
  let (p, s) := ps in
  match state_ p with
  | Ground => fallback value ps
  | RepeatIntroducer =>
      if isDigit value then (paramShiftAndAddDigit (toDigit value) p, s)
      else if isSixel value then
        let sixel := toSixel value in
        let s := Nat.iter (Z.to_nat (params_ p !!! 0%nat)) (ev_render sixel) s in
        transitionTo Ground (p, s)
      else fallback value ps
  | ColorIntroducer =>
      if isDigit value then
        transitionTo ColorParam (paramShiftAndAddDigit (toDigit value) p, s)
      else fallback value ps
  | ColorParam =>
      if isDigit value then (paramShiftAndAddDigit (toDigit value) p, s)
      else if value =? 59 (* ; *) then (push_param p, s)
      else fallback value ps
  | RasterSettings =>
      if isDigit value then (paramShiftAndAddDigit (toDigit value) p, s)
      else if value =? 59 (* ; *) then (push_param p, s)
      else fallback value ps
  end.

(** Modelled from the spec: the member [finalizer_] and its type
    [OnFinalize] are declared in [SixelParser.h], which is not among the
    sources; the spec calls it an optional finalizer callback supplied at
    construction time.  A callback that is not set is [None]; one that is
    set acts on the state that the parser does not own, the state of the
    sink.  [invoke_finalizer] is [if (finalizer_) finalizer_();]. *)
Definition invoke_finalizer (finalizer_ : option (S -> S)) (s : S) : S :=
  match finalizer_ with
  | Some f => f s
  | None => s
  end.

(** [done]: the transition to [Ground], then the finalizer, on every
    call. *)
Definition done (finalizer_ : option (S -> S)) (ps : t * S) : t * S :=
  let (p, s) := transitionTo Ground ps in
  (p, invoke_finalizer finalizer_ s).

Definition pass (char : Z) (ps : t * S) : t * S := parse char ps.

(** Feeding a sequence of code points, one [parse] each. *)
Definition parse_all (input : list Z) (ps : t * S) : t * S :=
  foldl (fun ps v => parse v ps) ps input.

End Sink.

End SixelParser.

(** ** A sink that records the calls *)

Inductive Event :=
  | Render (sixel : Z)
  | SetRaster (pan pad : Z) (size : Size)
  | UseColor (index : Z)
  | SetColor (index : Z) (color : RGBColor)
  | Rewind
  | Newline.

#[global] Instance Trace_Events : Events (list Event) := {
  ev_render sixel tr := tr ++ [Render sixel];
  ev_setRaster pan pad sz tr := tr ++ [SetRaster pan pad sz];
  ev_useColor index tr := tr ++ [UseColor index];
  ev_setColor index color tr := tr ++ [SetColor index color];
  ev_rewind tr := tr ++ [Rewind];
  ev_newline tr := tr ++ [Newline]
}.

(** ** Image and RasterizedImage *)

Module Image.

(** Modelled from the spec: [Image] is declared in [Image.h], which is not
    among the sources.  This is the part of it that [fragment] reads: the
    pixel size and the owned bytes, through [width()], [height()] and
    [data()]. *)
Record t := mk { size_ : Size; data_ : list Z }.

Definition width (i : t) : Z := width (size_ i).
Definition height (i : t) : Z := height (size_ i).
Definition data (i : t) : list Z := data_ i.

End Image.

Module RasterizedImage.

(** Modelled from the spec: [RasterizedImage] is declared in [Image.h],
    which is not among the sources.  These are the members that [fragment]
    reads, and the cell span; the alignment and resize policies take no part
    in it. *)
Record t := mk {
  image_ : Image.t;
  defaultColor_ : RGBAColor;
  cellSpan_ : Size;
  cellSize_ : Size
}.

(** [for (auto k = from; k < to; ++k) body], the body not reading [k]. *)
Definition repeat_from_to {A : Type} (from to : Z) (body : A -> A) (a : A) : A :=
  Nat.iter (Z.to_nat (to - from)) body a.

(** One round of the second loop of [fragment]: the image row of the output
    row [y] is copied, then the gap on its right is filled. *)
Definition fragment_row (ri : t) (pixelOffset : Coordinate)
    (availableWidth availableHeight : Z) (target : Cursor) (y : Z) : Cursor :=
  let startOffset :=
    szmul (usize (uadd (umul (uadd (u32 (row pixelOffset))
                                   (usub (usub availableHeight 1) y))
                             (Image.width (image_ ri)))
                       (u32 (column pixelOffset)))) 4 in
  let source := drop (Z.to_nat startOffset) (Image.data (image_ ri)) in
  let target := copy_to (take (Z.to_nat (umul availableWidth 4)) source) target in
  repeat_from_to availableWidth (width (cellSize_ ri))
    (put_color (defaultColor_ ri)) target.

(** [fragment(_pos)].  The two [assert]s stop the program when they fail:
    the result is then [None]. *)
Definition fragment (ri : t) (pos : Coordinate) : option (list Z) :=
  let cw := width (cellSize_ ri) in
  let ch := height (cellSize_ ri) in
  let xOffset := imul (column pos) (i32 cw) in
  let yOffset := imul (row pos) (i32 ch) in
  let pixelOffset := mkCoordinate yOffset xOffset in
  let fragData := resize (Z.to_nat (szmul (szmul (usize cw) (usize ch)) 4)) 0 [] in
  if Image.width (image_ ri) <? u32 (column pixelOffset) then None else
  let availableWidth :=
    Z.min (usub (Image.width (image_ ri)) (u32 (column pixelOffset))) cw in
  if Image.height (image_ ri) <? u32 (row pixelOffset) then None else
  let availableHeight :=
    Z.min (usub (Image.height (image_ ri)) (u32 (row pixelOffset))) ch in
  let target := mkCursor fragData 0 in
  (* fill horizontal gap at the bottom *)
  let target :=
    repeat_from_to (umul availableHeight cw) (umul ch cw)
      (put_color (defaultColor_ ri)) target in
  let target :=
    foldl (fragment_row ri pixelOffset availableWidth availableHeight) target
      (seqZ 0 availableHeight) in
  Some (mem target).

End RasterizedImage.

(** ** Sequences of calls *)

(** The calls on a palette that change its length. *)
Inductive PaletteOp :=
  | PSetColor (index : Z) (color : RGBColor)
  | PSetSize (newSize : Z).

Definition palette_step (p : SixelColorPalette.t) (op : PaletteOp) : SixelColorPalette.t :=
  match op with
  | PSetColor i c => SixelColorPalette.setColor i c p
  | PSetSize n => SixelColorPalette.setSize n p
  end.

Definition palette_run (ops : list PaletteOp) (p : SixelColorPalette.t) : SixelColorPalette.t :=
  foldl palette_step p ops.

(** The calls on a builder that move the sixel cursor. *)
Inductive CursorOp :=
  | CRender (sixel : Z)
  | CRewind
  | CNewline.

Definition cursor_step (b : SixelImageBuilder.t) (op : CursorOp) : SixelImageBuilder.t :=
  match op with
  | CRender s => SixelImageBuilder.render s b
  | CRewind => SixelImageBuilder.rewind b
  | CNewline => SixelImageBuilder.newline b
  end.

Definition cursor_run (ops : list CursorOp) (b : SixelImageBuilder.t) : SixelImageBuilder.t :=
  foldl cursor_step b ops.

(** ** Well-formed builders

    The invariants of the data model, with the bounds that keep the
    arithmetic of the builder inside its C++ types. *)

Module BuilderInv.

Import SixelImageBuilder.

(** The raster can be addressed by the [int] fields of a [Coordinate]. *)
Definition raster_ok (b : t) : Prop :=
  0 <= width (size_ b) <= INT_MAX /\ 0 <= height (size_ b) <= INT_MAX.

(** The buffer holds four bytes for each pixel of the raster, and its
    length is the [unsigned] value that [resize] was given. *)
Definition buffer_ok (b : t) : Prop :=
  Z.of_nat (length (buffer_ b)) = 4 * width (size_ b) * height (size_ b) /\
  4 * width (size_ b) * height (size_ b) <= UINT_MAX.

(** The cursor holds [int] values and its column is not negative. *)
Definition cursor_ok (b : t) : Prop :=
  Coordinate_ok (sixelCursor_ b) /\ 0 <= column (sixelCursor_ b).

Definition wf (b : t) : Prop := raster_ok b /\ buffer_ok b /\ cursor_ok b.

End BuilderInv.

(** A palette colour as [write] stores it: the alpha byte is 0xFF. *)
Definition opaque (c : RGBColor) : RGBAColor :=
  rgba (red c) (green c) (blue c) 255.

(** The four bytes of a buffer from the offset [n] on, as a colour. *)
Definition pixel_of (buf : list Z) (n : nat) : RGBAColor :=
  rgba (buf !!! n) (buf !!! (n + 1)%nat) (buf !!! (n + 2)%nat) (buf !!! (n + 3)%nat).

(** The byte offset of the pixel [(r, c)] in a raster [w] pixels wide. *)
Definition pixel_offset (w r c : Z) : nat := Z.to_nat (4 * (r * w + c)).

(** ** Devices of the statements *)

(** The bytes of one pixel in the order of the stores. *)
Definition color_bytes (c : RGBAColor) : list Z :=
  [red_a c; green_a c; blue_a c; alpha_a c].

(** What a run of stores leaves: the bytes before the pointer, the bytes
    stored, the bytes after them. *)
Definition stored (o : Cursor) (vs : list Z) : Cursor :=
  mkCursor (take (ptr o) (mem o) ++ vs ++ drop (ptr o + length vs) (mem o))
           (ptr o + length vs).

(** [n] pixels of one colour, byte by byte. *)
Definition fill_bytes (n : nat) (c : RGBAColor) : list Z :=
  concat (replicate n (color_bytes c)).

(** The condition under which the round [i] of [render] paints [(r, c)]. *)
Definition paints (s x row0 r c i : Z) : bool :=
  (c =? x) && (r =? row0 + i) && Z.testbit s i.

(** The scaling of a colour component in the words of the spec:
    [scale(v) = floor(v * 255 / 100) mod 256]. *)
Definition spec_scale (v : Z) : Z := (v * 255 / 100) mod 256.

(** The single precision quotient of [convertValue] before its conversion to
    [unsigned], with the two constants evaluated. *)
Definition f255 : spec_float := Eval vm_compute in Float32.of_unsigned 255.
Definition f100 : spec_float := Eval vm_compute in Float32.of_unsigned 100.

Definition scaled (v : Z) : spec_float :=
  Float32.div (Float32.mul (Float32.of_unsigned v) f255) f100.

(** [all_below f n v]: [f] holds of the [n] integers from [v] on. *)
Fixpoint all_below (f : Z -> bool) (n : positive) (v : Z) : bool :=
  match n with
  | xH => f v
  | xO n' => all_below f n' v && all_below f n' (v + Z.pos n')
  | xI n' => f v && all_below f n' (v + 1) && all_below f n' (v + 1 + Z.pos n')
  end.

(** A raster whose byte count fits [unsigned]. *)
Definition fits (s : Size) : Prop :=
  0 <= width s <= INT_MAX /\ 0 <= height s <= INT_MAX /\
  4 * width s * height s <= UINT_MAX.

(** ** Devices of the statements on [fragment] *)

(** The bytes that the round [y] of the second loop of [fragment] stores:
    [4 * aw] bytes of the image row [yOff + (ah - 1 - y)] from the column
    [xOff] on, then [cw - aw] pixels of the default colour. *)
Definition row_bytes (ri : RasterizedImage.t) (xOff yOff aw ah y : Z) : list Z :=
  take (Z.to_nat (4 * aw))
       (drop (Z.to_nat (4 * ((yOff + (ah - 1 - y)) * Image.width (RasterizedImage.image_ ri) + xOff)))
             (Image.data (RasterizedImage.image_ ri)))
  ++ fill_bytes (Z.to_nat (width (RasterizedImage.cellSize_ ri) - aw))
       (RasterizedImage.defaultColor_ ri).

(** The layout of the buffer in the words of the claim on [fragment]: the
    top [ah] output rows are copied, the output row [y] from the image row
    [yOff + (ah - 1 - y)], their first [4 * aw] bytes from the image and
    the rest the default colour; the bottom [ch - ah] output rows are the
    default colour.  The output row [y] is read as the row [y] of the
    buffer, [cw] pixels each. *)
Definition claimed_layout (ri : RasterizedImage.t) (pos : Coordinate)
    (out : list Z) : Prop :=
  let cw := width (RasterizedImage.cellSize_ ri) in
  let ch := height (RasterizedImage.cellSize_ ri) in
  let iw := Image.width (RasterizedImage.image_ ri) in
  let ih := Image.height (RasterizedImage.image_ ri) in
  let data := Image.data (RasterizedImage.image_ ri) in
  let xOff := column pos * cw in
  let yOff := row pos * ch in
  let aw := Z.min (iw - xOff) cw in
  let ah := Z.min (ih - yOff) ch in
  (forall y, 0 <= y < ah ->
     (forall j, 0 <= j < 4 * aw ->
        out !!! Z.to_nat (4 * (y * cw) + j)
        = data !!! Z.to_nat (4 * ((yOff + (ah - 1 - y)) * iw + xOff) + j)) /\
     (forall x, aw <= x < cw ->
        pixel_of out (Z.to_nat (4 * (y * cw + x)))
        = RasterizedImage.defaultColor_ ri)) /\
  (forall y x, ah <= y < ch -> 0 <= x < cw ->
     pixel_of out (Z.to_nat (4 * (y * cw + x)))
     = RasterizedImage.defaultColor_ ri).

(** What the claim on [fragment] assumes of a rasterized image and a cell. *)
Record fragment_pre (ri : RasterizedImage.t) (pos : Coordinate) : Prop := {
  pre_cell_w : 0 < width (RasterizedImage.cellSize_ ri);
  pre_cell_h : 0 < height (RasterizedImage.cellSize_ ri);
  pre_cell_fits :
    4 * width (RasterizedImage.cellSize_ ri) * height (RasterizedImage.cellSize_ ri)
      <= UINT_MAX;
  pre_image_w : 0 <= Image.width (RasterizedImage.image_ ri) <= UINT_MAX;
  pre_image_h : 0 <= Image.height (RasterizedImage.image_ ri) <= UINT_MAX;
  pre_image_fits :
    Image.width (RasterizedImage.image_ ri) * Image.height (RasterizedImage.image_ ri)
      <= UINT_MAX;
  pre_image_data :
    Z.of_nat (length (Image.data (RasterizedImage.image_ ri)))
      = 4 * Image.width (RasterizedImage.image_ ri)
          * Image.height (RasterizedImage.image_ ri);
  pre_col : 0 <= column pos;
  pre_row : 0 <= row pos;
  pre_col_in :
    column pos * width (RasterizedImage.cellSize_ ri)
      <= Image.width (RasterizedImage.image_ ri);
  pre_row_in :
    row pos * height (RasterizedImage.cellSize_ ri)
      <= Image.height (RasterizedImage.image_ ri)
}.

(** The bounds under which one round of the second loop is computed; [xOff]
    and [yOff] are the pixel offsets of the cell, [aw] and [ah] the available
    width and height. *)
Record row_pre (ri : RasterizedImage.t) (xOff yOff aw ah : Z) : Prop := {
  rp_iw : 0 <= Image.width (RasterizedImage.image_ ri);
  rp_ih : Image.height (RasterizedImage.image_ ri) <= UINT_MAX;
  rp_fits : Image.width (RasterizedImage.image_ ri) * Image.height (RasterizedImage.image_ ri) <= UINT_MAX;
  rp_data :
    Z.of_nat (length (Image.data (RasterizedImage.image_ ri)))
      = 4 * Image.width (RasterizedImage.image_ ri) * Image.height (RasterizedImage.image_ ri);
  rp_cell : 4 * width (RasterizedImage.cellSize_ ri) <= UINT_MAX;
  rp_x : 0 <= xOff;
  rp_y : 0 <= yOff;
  rp_aw : 0 <= aw <= width (RasterizedImage.cellSize_ ri);
  rp_x_in : xOff + aw <= Image.width (RasterizedImage.image_ ri);
  rp_y_in : yOff + ah <= Image.height (RasterizedImage.image_ ri)
}.

(** What the cursor keeps over [render], [rewind] and [newline]. *)
Definition disciplined (b : SixelImageBuilder.t) : Prop :=
  let cur := SixelImageBuilder.sixelCursor_ b in
  row cur mod 6 = 0 /\ 0 <= row cur /\
  (row cur = 0 \/ row cur < height (SixelImageBuilder.size_ b)) /\
  0 <= column cur <= width (SixelImageBuilder.size_ b).

(** ** Tactics *)

(** Unfolds the machine conversions and evaluates the powers of two. *)
Ltac machine :=
  unfold is_unsigned, is_int, uadd, usub, umul, iadd, imul, szmul,
    u32, i32, u8, i8, usize, UINT_MAX, INT_MAX, INT_MIN in *;
  change (2 ^ 64) with 18446744073709551616 in *;
  change (2 ^ 32) with 4294967296 in *;
  change (2 ^ 31) with 2147483648 in *;
  change (2 ^ 8) with 256 in *;
  change (2 ^ 7) with 128 in *.


(** ** Replaying recorded calls *)

(** One recorded call, made on a sink. *)
Definition apply_event {St : Type} `{Events St} (s : St) (e : Event) : St :=
  match e with
  | Render sixel => ev_render sixel s
  | SetRaster pan pad sz => ev_setRaster pan pad sz s
  | UseColor index => ev_useColor index s
  | SetColor index color => ev_setColor index color s
  | Rewind => ev_rewind s
  | Newline => ev_newline s
  end.

Definition replay {St : Type} `{Events St} (tr : list Event) (s : St) : St :=
  foldl apply_event s tr.

(** The number that a string of decimal digits (code points 48..57) writes,
    after the digits of [a]. *)
Definition decimal_from (a : Z) (ds : list Z) : Z :=
  foldl (fun a c => a * 10 + (c - 48)) a ds.

Definition decimal (ds : list Z) : Z := decimal_from 0 ds.

Definition is_digit_code (c : Z) : Prop := 48 <= c <= 57.

(** The values a recorded call may carry: a sixel of six bits, [unsigned]
    numbers, colour components of eight bits. *)
Definition event_ok (e : Event) : Prop :=
  match e with
  | Render sixel => 0 <= sixel <= 63
  | SetRaster pan pad sz =>
      is_unsigned pan /\ is_unsigned pad /\
      is_unsigned (width sz) /\ is_unsigned (height sz)
  | UseColor index => is_unsigned index
  | SetColor index color =>
      is_unsigned index /\ 0 <= red color <= 255 /\
      0 <= green color <= 255 /\ 0 <= blue color <= 255
  | Rewind | Newline => True
  end.

(** The states in which [parse] accumulates digits in place. *)
Definition accumulates (st : SixelParser.State) : Prop :=
  st = SixelParser.RepeatIntroducer \/ st = SixelParser.ColorParam \/
  st = SixelParser.RasterSettings.

(** A step of the parser makes on every sink the calls it makes on the
    recording sink. *)
Definition simulated (f : forall St : Type, Events St -> SixelParser.t * St -> SixelParser.t * St) : Prop :=
  forall (St : Type) (H : Events St) (p : SixelParser.t) (s : St),
    f St H (p, s)
    = (fst (f (list Event) Trace_Events (p, [])),
       replay (snd (f (list Event) Trace_Events (p, []))) s).


(** What [parse] keeps of the parameter list: outside [Ground] it is not
    empty. *)
Definition params_inv (p : SixelParser.t) : Prop :=
  SixelParser.state_ p = SixelParser.Ground \/ SixelParser.params_ p <> [].

(** The parameters are [unsigned] values. *)
Definition params_ok (p : SixelParser.t) : Prop :=
  Forall is_unsigned (SixelParser.params_ p).


(** A finalizer of the caller that keeps a builder well formed and leaves
    its largest raster as it is; no finalizer does so. *)
Definition finalizer_keeps_wf
    (fin : option (SixelImageBuilder.t -> SixelImageBuilder.t)) : Prop :=
  forall f, fin = Some f ->
    forall b, fits (SixelImageBuilder.maxSize_ b) -> BuilderInv.wf b ->
      BuilderInv.wf (f b) /\
      SixelImageBuilder.maxSize_ (f b) = SixelImageBuilder.maxSize_ b.

(** ** GridMetrics *)

Module CellMargin.

Record t := mk { top : Z; left : Z; bottom : Z; right : Z }.

End CellMargin.

Module PageMargin.

Record t := mk { left : Z; bottom : Z }.

End PageMargin.

Module Point.

(** Modelled from the spec: [crispy::Point] is declared in [crispy/point.h],
    which is not among the sources; [map] builds it from two [int] values,
    the horizontal one first. *)
Record t := mk { x : Z; y : Z }.

End Point.

Module GridMetrics.

(** The underline metrics, an unnamed struct in the source. *)
Record Underline := mkUnderline { position : Z; thickness : Z }.

Record t := mk {
  pageSize : Size;               (* page size in column- and line count *)
  cellSize : Size;               (* grid cell size in pixels *)
  baseline : Z;
  underline : Underline;
  cellMargin : CellMargin.t;
  pageMargin : PageMargin.t
}.

(** [map(Coordinate const&)].  The margins and the coordinate are [int], the
    sizes [unsigned]: the differences and the products are computed in
    [unsigned], and the two results are cast to [int]. *)
Definition map (gm : t) (pos : Coordinate) : Point.t :=
  let x := uadd (u32 (PageMargin.left (pageMargin gm)))
                (umul (u32 (i32 (column pos - 1))) (width (cellSize gm))) in
  let y := uadd (u32 (PageMargin.bottom (pageMargin gm)))
                (umul (usub (height (pageSize gm)) (u32 (row pos)))
                      (height (cellSize gm))) in
  Point.mk (i32 x) (i32 y).

End GridMetrics.
(** * Properties *)

(** ** Machine integers *)

Section MachineFacts.

Lemma u32_id (x : Z) : 0 <= x <= UINT_MAX -> u32 x = x.
Proof. machine. intros. apply Z.mod_small. lia. Qed.

Lemma i32_id (x : Z) : INT_MIN <= x <= INT_MAX -> i32 x = x.
Proof. machine. intros. rewrite Z.mod_small by lia. lia. Qed.

Lemma usize_id (x : Z) : 0 <= x < 2 ^ 64 -> usize x = x.
Proof. machine. intros. apply Z.mod_small. lia. Qed.

Lemma u32_range (x : Z) : 0 <= u32 x <= UINT_MAX.
Proof. machine. pose proof (Z.mod_pos_bound x 4294967296). lia. Qed.

Lemma i32_range (x : Z) : INT_MIN <= i32 x <= INT_MAX.
Proof. machine. pose proof (Z.mod_pos_bound (x + 2147483648) 4294967296). lia. Qed.

Lemma u32_i32 (x : Z) : u32 (i32 x) = u32 x.
Proof.
  machine.
  rewrite <- Zminus_mod_idemp_l, Z.mod_mod by lia.
  rewrite Zminus_mod_idemp_l.
  replace (x + 2147483648 - 2147483648) with x by lia. reflexivity.
Qed.

Lemma i32_u32 (x : Z) : i32 (u32 x) = i32 x.
Proof. machine. rewrite Zplus_mod_idemp_l. reflexivity. Qed.

Lemma i32_nonneg_inv (x : Z) :
  0 <= x <= UINT_MAX -> 0 <= i32 x -> i32 x = x /\ x <= INT_MAX.
Proof.
  machine. intros Hx Hi.
  destruct (Z_lt_le_dec x 2147483648) as [Hlt | Hge].
  - rewrite Z.mod_small by lia. lia.
  - exfalso. revert Hi.
    replace (x + 2147483648) with (x - 2147483648 + 1 * 4294967296) by lia.
    rewrite Z.mod_add by lia. rewrite Z.mod_small by lia. lia.
Qed.

Lemma clamp_range (v hi : Z) : 0 <= hi -> 0 <= clamp v 0 hi <= hi.
Proof.
  unfold clamp. intros.
  destruct (Z.ltb_spec v 0); [lia |].
  destruct (Z.ltb_spec hi v); lia.
Qed.

(** The test of [render] on the bit [i] of a sixel, [(sixel & (1 << i)) != 0],
    reads that bit. *)
Lemma pinned_testbit (s i : Z) :
  0 <= i -> negb (Z.land s (Z.shiftl 1 i) =? 0) = Z.testbit s i.
Proof.
  intros Hi.
  assert (Hland : Z.land s (Z.shiftl 1 i) = if Z.testbit s i then 2 ^ i else 0).
  { apply Z.bits_inj'. intros n Hn.
    rewrite Z.land_spec, Z.shiftl_spec by lia.
    destruct (Z.eq_dec n i) as [-> | Hne].
    - rewrite Z.sub_diag. change (Z.testbit 1 0) with true.
      rewrite andb_true_r.
      destruct (Z.testbit s i); [now rewrite Z.pow2_bits_true | now rewrite Z.bits_0].
    - assert (Z.testbit 1 (n - i) = false) as ->.
      { destruct (Z_lt_le_dec (n - i) 0).
        - now apply Z.testbit_neg_r.
        - change 1 with (2 ^ 0). apply Z.pow2_bits_false. lia. }
      rewrite andb_false_r.
      destruct (Z.testbit s i); [rewrite Z.pow2_bits_false by lia | rewrite Z.bits_0];
        reflexivity. }
  rewrite Hland. destruct (Z.testbit s i); [| reflexivity].
  assert (0 < 2 ^ i) by (apply Z.pow_pos_nonneg; lia).
  destruct (Z.eqb_spec (2 ^ i) 0); [lia | reflexivity].
Qed.

(** The spec writes the same bit as [((sixel >> i) & 1) == 1]. *)
Lemma shiftr_land_testbit (s i : Z) :
  0 <= i -> (Z.land (Z.shiftr s i) 1 =? 1) = Z.testbit s i.
Proof.
  intros Hi. change 1 with (Z.ones 1) at 1.
  rewrite Z.land_ones by lia. change (2 ^ 1) with 2.
  rewrite <- Z.bit0_mod, Z.shiftr_spec by lia. rewrite Z.add_0_l.
  destruct (Z.testbit s i); reflexivity.
Qed.

End MachineFacts.

(** ** SixelColorPalette *)

Section PaletteFacts.

Import SixelColorPalette.

Lemma size_resize_palette (n : Z) (l : list RGBColor) :
  Z.of_nat (length (resize_palette n l)) = Z.max 0 n.
Proof. unfold resize_palette. rewrite length_resize. lia. Qed.

Lemma size_setSize (n : Z) (p : t) :
  size (setSize n p) = Z.max 0 (Z.min n (maxSize_ p)).
Proof. unfold size, setSize. simpl. rewrite size_resize_palette. lia. Qed.

Lemma setSize_cap (n : Z) (p : t) :
  0 <= maxSize_ p -> size (setSize n p) <= maxSize_ (setSize n p).
Proof. intros. rewrite size_setSize. simpl. lia. Qed.

Lemma maxSize_setColor (i : Z) (c : RGBColor) (p : t) :
  maxSize_ (setColor i c p) = maxSize_ p.
Proof.
  unfold setColor.
  destruct (i <? maxSize_ p); [| reflexivity].
  destruct (size p <=? i); simpl;
    match goal with |- context [if ?c then _ else _] => destruct c end;
    reflexivity.
Qed.

Lemma size_setColor_no_growth (i : Z) (c : RGBColor) (p : t) :
  i < size p -> size (setColor i c p) = size p.
Proof.
  intros Hi. unfold setColor.
  destruct (i <? maxSize_ p); [| reflexivity].
  destruct (Z.leb_spec (size p) i); [lia |].
  destruct ((0 <=? i) && (i <? Z.of_nat (length (palette_ p)))); [| reflexivity].
  unfold size. simpl. now rewrite length_insert.
Qed.

Lemma setColor_cap (i : Z) (c : RGBColor) (p : t) :
  0 <= maxSize_ p -> size p <= maxSize_ p ->
  size (setColor i c p) <= maxSize_ (setColor i c p).
Proof.
  intros Hmax Hcap. rewrite maxSize_setColor. unfold setColor.
  destruct (i <? maxSize_ p); [| assumption].
  assert (Hgrow : size (if size p <=? i then setSize (uadd i 1) p else p)
                  <= maxSize_ p).
  { destruct (size p <=? i); [rewrite size_setSize; lia | assumption]. }
  destruct ((0 <=? i) && (i <? _)); [| assumption].
  unfold size in *. simpl. now rewrite length_insert.
Qed.

Lemma length_reset_loop (l : list nat) (l0 : list RGBColor) :
  length (foldl reset_step l0 l) = length l0.
Proof.
  revert l0. induction l as [| i l IH]; intros l0; simpl; [reflexivity |].
  rewrite IH. unfold reset_step. apply length_insert.
Qed.

Lemma length_reset (p : t) : length (palette_ (reset p)) = length (palette_ p).
Proof. unfold reset. simpl. apply length_reset_loop. Qed.

Lemma maxSize_reset (p : t) : maxSize_ (reset p) = maxSize_ p.
Proof. reflexivity. Qed.

(** The constructor resizes to [_size] whatever the cap is. *)
Lemma size_create (size0 maxSize : Z) : size (create size0 maxSize) = Z.max 0 size0.
Proof.
  unfold create, size. rewrite length_reset.
  destruct (Z.ltb_spec 0 size0); simpl.
  - unfold resize_palette. rewrite length_resize. lia.
  - lia.
Qed.

Lemma maxSize_create (size0 maxSize : Z) : maxSize_ (create size0 maxSize) = maxSize.
Proof. unfold create. rewrite maxSize_reset. now destruct (0 <? size0). Qed.

(** From a palette within its cap, the cap holds after every sequence of
    [setColor] and [setSize]. *)
Lemma palette_run_cap (ops : list PaletteOp) (p : t) :
  0 <= maxSize_ p -> size p <= maxSize_ p ->
  maxSize_ (palette_run ops p) = maxSize_ p /\
  size (palette_run ops p) <= maxSize_ p.
Proof.
  unfold palette_run. revert p.
  induction ops as [| op ops IH]; intros p Hmax Hcap; simpl; [auto |].
  assert (Hstep : maxSize_ (palette_step p op) = maxSize_ p /\
                  size (palette_step p op) <= maxSize_ p).
  { destruct op as [i c | n]; simpl.
    - split; [apply maxSize_setColor |].
      pose proof (setColor_cap i c p Hmax Hcap) as Hc.
      now rewrite maxSize_setColor in Hc.
    - split; [reflexivity | now apply (setSize_cap n p)]. }
  destruct Hstep as [Hm Hs].
  destruct (IH (palette_step p op)) as [IHm IHs]; [lia | lia |].
  split; [congruence | lia].
Qed.

End PaletteFacts.

(** ** SixelImageBuilder: addressing *)

Section Addressing.

Lemma u32_add_i32_r (a b : Z) : u32 (a + i32 b) = u32 (a + b).
Proof.
  machine.
  replace (a + ((b + 2147483648) mod 4294967296 - 2147483648))
    with (a - 2147483648 + (b + 2147483648) mod 4294967296) by lia.
  rewrite Zplus_mod_idemp_r. f_equal. lia.
Qed.

Lemma u32_mul_u32_l (a b : Z) : u32 (u32 a * b) = u32 (a * b).
Proof. machine. apply Zmult_mod_idemp_l. Qed.

Lemma u32_add_u32_l (a b : Z) : u32 (u32 a + b) = u32 (a + b).
Proof. machine. apply Zplus_mod_idemp_l. Qed.

Lemma u32_add_u32_r (a b : Z) : u32 (a + u32 b) = u32 (a + b).
Proof. machine. apply Zplus_mod_idemp_r. Qed.

Lemma pixel_bound (w h r c : Z) :
  0 <= r < h -> 0 <= c < w -> 0 <= r * w + c /\ 4 * (r * w + c) + 4 <= 4 * w * h.
Proof.
  intros Hr Hc.
  assert (0 <= r * w) by (apply Z.mul_nonneg_nonneg; lia).
  assert ((r + 1) * w <= h * w) by (apply Z.mul_le_mono_nonneg_r; lia).
  lia.
Qed.

Lemma pixel_index_inj (w r c r' c' : Z) :
  0 <= c < w -> 0 <= c' < w -> r * w + c = r' * w + c' -> r = r' /\ c = c'.
Proof.
  intros Hc Hc' Heq.
  assert (r = r') as ->.
  { destruct (Z.lt_trichotomy r r') as [Hlt | [-> | Hgt]]; [| reflexivity |].
    - assert ((r + 1) * w <= r' * w) by (apply Z.mul_le_mono_nonneg_r; lia). lia.
    - assert ((r' + 1) * w <= r * w) by (apply Z.mul_le_mono_nonneg_r; lia). lia. }
  lia.
Qed.

(** The offset computed by [write]. *)
Lemma write_base (w h r c : Z) :
  0 <= r < h -> 0 <= c < w -> 4 * w * h <= UINT_MAX ->
  uadd (umul (umul r w) 4) (imul c 4) = 4 * (r * w + c).
Proof.
  intros Hr Hc Hsz. pose proof (pixel_bound w h r c Hr Hc) as [Hlo Hhi].
  assert (0 <= r * w) by (apply Z.mul_nonneg_nonneg; lia).
  unfold uadd, umul, imul.
  rewrite u32_add_i32_r, u32_add_u32_l, (u32_id (r * w)) by lia.
  rewrite u32_id; lia.
Qed.

(** The offset computed by [at]. *)
Lemma at_base (w h r c : Z) :
  0 <= r < h -> 0 <= c < w -> 4 * w * h <= UINT_MAX ->
  uadd (umul (umul r w) 4) (umul c 4) = 4 * (r * w + c).
Proof.
  intros Hr Hc Hsz. pose proof (pixel_bound w h r c Hr Hc) as [Hlo Hhi].
  assert (0 <= r * w) by (apply Z.mul_nonneg_nonneg; lia).
  unfold uadd, umul.
  rewrite u32_add_u32_r, u32_add_u32_l, (u32_id (r * w)) by lia.
  rewrite u32_id; lia.
Qed.

End Addressing.

(** ** SixelImageBuilder: pixels *)

Section BuilderPixels.

Import SixelImageBuilder BuilderInv.

(** Inside the raster, [at] reads the four bytes of the pixel. *)
Lemma at_in_raster (b : t) (r c : Z) :
  raster_ok b -> buffer_ok b ->
  0 <= r < height (size_ b) -> 0 <= c < width (size_ b) ->
  at_ b (mkCoordinate r c) = pixel_of (buffer_ b) (pixel_offset (width (size_ b)) r c).
Proof.
  intros [Hw Hh] [Hlen Hsz] Hr Hc. unfold at_, pixel_of, pixel_offset. simpl.
  rewrite (u32_id r), (u32_id c) by (unfold UINT_MAX, INT_MAX in *; lia).
  rewrite (Z.mod_small r), (Z.mod_small c) by lia.
  rewrite (at_base _ (height (size_ b))) by lia. reflexivity.
Qed.

Lemma write_fields (coord : Coordinate) (v : RGBColor) (b : t) :
  exists buf, write coord v b = with_buffer buf b /\
              length buf = length (buffer_ b).
Proof.
  unfold write. destruct (_ && _).
  - eexists. split; [reflexivity |]. now rewrite !length_insert.
  - exists (buffer_ b). split; [now destruct b | reflexivity].
Qed.

(** A write outside the raster is dropped. *)
Lemma write_outside (coord : Coordinate) (v : RGBColor) (b : t) :
  raster_ok b -> Coordinate_ok coord ->
  ~ (0 <= row coord < height (size_ b) /\ 0 <= column coord < width (size_ b)) ->
  write coord v b = b.
Proof.
  intros [Hw Hh] [Hrow Hcol] Hout. unfold write.
  destruct (Z.leb_spec 0 (row coord)); simpl; [| reflexivity].
  destruct (Z.leb_spec 0 (column coord)); simpl;
    [| now rewrite andb_false_r].
  rewrite (u32_id (row coord)), (u32_id (column coord))
    by (machine; lia).
  destruct (Z.ltb_spec (row coord) (height (size_ b))); simpl; [| reflexivity].
  destruct (Z.ltb_spec (column coord) (width (size_ b))); simpl; [lia | reflexivity].
Qed.

(** A write inside the raster stores the colour, opaque, in the four bytes of
    its pixel and in no other pixel. *)
Lemma write_inside (r0 c0 : Z) (v : RGBColor) (b : t) (r c : Z) :
  raster_ok b -> buffer_ok b ->
  0 <= r0 < height (size_ b) -> 0 <= c0 < width (size_ b) ->
  0 <= r < height (size_ b) -> 0 <= c < width (size_ b) ->
  pixel_of (buffer_ (write (mkCoordinate r0 c0) v b))
           (pixel_offset (width (size_ b)) r c)
  = if decide (r = r0 /\ c = c0) then opaque v
    else pixel_of (buffer_ b) (pixel_offset (width (size_ b)) r c).
Proof.
  intros [Hw Hh] [Hlen Hsz] Hr0 Hc0 Hr Hc.
  set (w := width (size_ b)) in *. set (h := height (size_ b)) in *.
  pose proof (pixel_bound w h r0 c0 Hr0 Hc0) as [Hlo0 Hhi0].
  pose proof (pixel_bound w h r c Hr Hc) as [Hlo Hhi].
  unfold write. simpl. fold w h.
  rewrite (u32_id r0), (u32_id c0) by (machine; lia).
  destruct (Z.leb_spec 0 r0); [| lia].
  destruct (Z.leb_spec 0 c0); [| lia].
  destruct (Z.ltb_spec r0 h); [| lia].
  destruct (Z.ltb_spec c0 w); [| lia].
  simpl. rewrite (write_base w h) by lia.
  unfold uadd. rewrite !u32_id by (machine; lia).
  unfold pixel_of, pixel_offset.
  set (n0 := 4 * (r0 * w + c0)) in *. set (n := 4 * (r * w + c)) in *.
  destruct (decide (r = r0 /\ c = c0)) as [[-> ->] | Hne].
  - subst n. fold n0.
    replace (Z.to_nat n0 + 1)%nat with (Z.to_nat (n0 + 1)) by lia.
    replace (Z.to_nat n0 + 2)%nat with (Z.to_nat (n0 + 2)) by lia.
    replace (Z.to_nat n0 + 3)%nat with (Z.to_nat (n0 + 3)) by lia.
    replace (n0 + 0) with n0 by lia.
    unfold opaque. f_equal.
    + rewrite !list_lookup_total_insert_ne by lia.
      apply list_lookup_total_insert_eq. lia.
    + rewrite !(list_lookup_total_insert_ne _ (Z.to_nat (n0 + 3))),
        !(list_lookup_total_insert_ne _ (Z.to_nat (n0 + 2))) by lia.
      apply list_lookup_total_insert_eq. rewrite !length_insert. lia.
    + rewrite !(list_lookup_total_insert_ne _ (Z.to_nat (n0 + 3))) by lia.
      apply list_lookup_total_insert_eq. rewrite !length_insert. lia.
    + apply list_lookup_total_insert_eq. rewrite !length_insert. lia.
  - assert (Hfar : n + 4 <= n0 \/ n0 + 4 <= n).
    { subst n n0.
      destruct (Z.eq_dec (r * w + c) (r0 * w + c0)) as [Heq | Hneq]; [| lia].
      apply pixel_index_inj in Heq; [tauto | lia | lia]. }
    f_equal; rewrite !list_lookup_total_insert_ne by lia; reflexivity.
Qed.

Lemma currentColor_with_buffer (buf : list Z) (b : t) :
  currentColor (with_buffer buf b) = currentColor b.
Proof. reflexivity. Qed.

End BuilderPixels.

(** ** SixelImageBuilder: render *)

Section BuilderRender.

Import SixelImageBuilder BuilderInv.

Lemma render_bit_fields (s x : Z) (b : t) (i : Z) :
  exists buf, render_bit s x b i = with_buffer buf b /\
              length buf = length (buffer_ b).
Proof.
  unfold render_bit. destruct (negb _).
  - apply write_fields.
  - exists (buffer_ b). split; [now destruct b | reflexivity].
Qed.

Lemma render_bit_pixel (s x : Z) (b : t) (i r c : Z) :
  raster_ok b -> buffer_ok b -> is_int (row (sixelCursor_ b)) ->
  0 <= x < width (size_ b) -> 0 <= i <= 5 ->
  0 <= r < height (size_ b) -> 0 <= c < width (size_ b) ->
  pixel_of (buffer_ (render_bit s x b i)) (pixel_offset (width (size_ b)) r c)
  = if paints s x (row (sixelCursor_ b)) r c i then opaque (currentColor b)
    else pixel_of (buffer_ b) (pixel_offset (width (size_ b)) r c).
Proof.
  intros Hras Hbuf Hrow Hx Hi Hr Hc. unfold render_bit, paints.
  rewrite pinned_testbit by lia.
  destruct (Z.testbit s i); [| now rewrite andb_false_r].
  rewrite andb_true_r. unfold uadd. rewrite i32_u32.
  set (row0 := row (sixelCursor_ b)) in *.
  assert (Hint : INT_MIN <= row0 <= INT_MAX) by exact Hrow.
  destruct Hras as [Hw Hh].
  destruct (decide (0 <= row0 + i < height (size_ b))) as [Hin | Hout].
  - rewrite i32_id by (machine; lia).
    rewrite write_inside by first [assumption | split; assumption].
    destruct (decide (r = row0 + i /\ c = x)) as [[-> ->] | Hne].
    + now rewrite !Z.eqb_refl.
    + destruct (Z.eqb_spec c x); destruct (Z.eqb_spec r (row0 + i));
        simpl; try reflexivity. tauto.
  - rewrite write_outside.
    + destruct (Z.eqb_spec r (row0 + i)); [lia | now rewrite andb_false_r].
    + split; assumption.
    + split; simpl; [apply i32_range | machine; lia].
    + simpl. intros [Hrange _]. apply Hout.
      destruct (decide (row0 + i <= INT_MAX)).
      * rewrite i32_id in Hrange by (machine; lia). exact Hrange.
      * exfalso. revert Hrange. machine.
        replace (row0 + i + 2147483648)
          with (row0 + i - 2147483648 + 1 * 4294967296) by lia.
        rewrite Z.mod_add, Z.mod_small by lia. lia.
Qed.

(** The six rounds of the loop, and any other list of rounds. *)
Lemma render_loop_fields (s x : Z) (rounds : list Z) (b : t) :
  exists buf, foldl (render_bit s x) b rounds = with_buffer buf b /\
              length buf = length (buffer_ b).
Proof.
  revert b. induction rounds as [| i rounds IH]; intros b; simpl.
  - exists (buffer_ b). split; [now destruct b | reflexivity].
  - destruct (render_bit_fields s x b i) as (buf1 & Hf & Hl).
    destruct (IH (render_bit s x b i)) as (buf2 & IHf & IHl).
    exists buf2. rewrite IHf, IHl, Hf. split; [reflexivity | exact Hl].
Qed.

Lemma render_loop_pixel (s x : Z) (rounds : list Z) (b : t) (r c : Z) :
  raster_ok b -> buffer_ok b -> is_int (row (sixelCursor_ b)) ->
  0 <= x < width (size_ b) -> Forall (fun i => 0 <= i <= 5) rounds ->
  0 <= r < height (size_ b) -> 0 <= c < width (size_ b) ->
  pixel_of (buffer_ (foldl (render_bit s x) b rounds))
           (pixel_offset (width (size_ b)) r c)
  = if existsb (paints s x (row (sixelCursor_ b)) r c) rounds
    then opaque (currentColor b)
    else pixel_of (buffer_ b) (pixel_offset (width (size_ b)) r c).
Proof.
  intros Hras Hbuf Hrow Hx Hrounds Hr Hc. revert b Hras Hbuf Hrow Hx Hr Hc.
  induction Hrounds as [| i rounds Hi _ IH]; intros b Hras Hbuf Hrow Hx Hr Hc;
    simpl; [reflexivity |].
  destruct (render_bit_fields s x b i) as (buf1 & Hf & Hl).
  set (b1 := render_bit s x b i) in *.
  assert (Hsize : size_ b1 = size_ b) by (rewrite Hf; reflexivity).
  assert (Hcur : sixelCursor_ b1 = sixelCursor_ b) by (rewrite Hf; reflexivity).
  assert (Hcol : currentColor b1 = currentColor b) by (rewrite Hf; reflexivity).
  specialize (IH b1). rewrite Hsize, Hcur, Hcol in IH.
  rewrite IH; try assumption.
  - subst b1. rewrite render_bit_pixel by assumption.
    destruct (paints s x (row (sixelCursor_ b)) r c i); simpl;
      destruct (existsb _ rounds); reflexivity.
  - unfold raster_ok. rewrite Hsize. exact Hras.
  - unfold buffer_ok. rewrite Hsize, Hf. simpl. rewrite Hl. exact Hbuf.
Qed.

(** The rounds 0..5 paint [(r, c)] when [c] is the column of the cursor, [r]
    is one of the six rows from the row of the cursor on, and the bit of the
    sixel for that row is set. *)
Lemma paints_six (s x row0 r c : Z) :
  existsb (paints s x row0 r c) [0; 1; 2; 3; 4; 5]
  = bool_decide (c = x /\ row0 <= r < row0 + 6 /\
                 Z.land (Z.shiftr s (r - row0)) 1 = 1).
Proof.
  apply eq_true_iff_eq. rewrite existsb_exists, bool_decide_eq_true.
  unfold paints. split.
  - intros (i & Hin & Hp).
    apply andb_prop in Hp as [Hp Hbit]. apply andb_prop in Hp as [Hcx Hri].
    apply Z.eqb_eq in Hcx, Hri.
    assert (0 <= i < 6) by (simpl in Hin; lia).
    replace (r - row0) with i by lia.
    pose proof (shiftr_land_testbit s i) as Hs. rewrite Hbit in Hs.
    split; [assumption | split; [lia |]]. apply Z.eqb_eq, Hs. lia.
  - intros (Hcx & Hr & Hbit). exists (r - row0). split.
    + assert (r - row0 = 0 \/ r - row0 = 1 \/ r - row0 = 2 \/ r - row0 = 3 \/
              r - row0 = 4 \/ r - row0 = 5) as Hcases by lia.
      simpl. lia.
    + rewrite <- shiftr_land_testbit by lia.
      apply Z.eqb_eq in Hbit. rewrite Hbit, andb_true_r.
      apply andb_true_intro. split; apply Z.eqb_eq; lia.
Qed.

End BuilderRender.

Section BuilderRenderSpec.

Import SixelImageBuilder BuilderInv.

(** [render] with the cursor left of the raster width. *)
Lemma render_inside (b : t) (s : Z) :
  wf b -> column (sixelCursor_ b) < width (size_ b) ->
  exists buf,
    render s b
      = with_cursor (mkCoordinate (row (sixelCursor_ b))
                                  (column (sixelCursor_ b) + 1))
          (with_buffer buf b) /\
    length buf = length (buffer_ b) /\
    forall r c, 0 <= r < height (size_ b) -> 0 <= c < width (size_ b) ->
      at_ (render s b) (mkCoordinate r c)
      = if bool_decide (c = column (sixelCursor_ b) /\
                        row (sixelCursor_ b) <= r < row (sixelCursor_ b) + 6 /\
                        Z.land (Z.shiftr s (r - row (sixelCursor_ b))) 1 = 1)
        then opaque (currentColor b)
        else at_ b (mkCoordinate r c).
Proof.
  intros (Hras & Hbuf & ([Hrow Hcol] & Hcol0)) Hlt.
  set (cur := sixelCursor_ b) in *.
  destruct Hras as [Hw Hh].
  assert (Hu : u32 (column cur) = column cur) by (apply u32_id; machine; lia).
  destruct (render_loop_fields s (column cur) [0; 1; 2; 3; 4; 5] b)
    as (buf & Hf & Hl).
  assert (Hrender : render s b
            = with_cursor (mkCoordinate (row cur) (column cur + 1))
                (with_buffer buf b)).
  { unfold render. fold cur. rewrite Hu.
    destruct (Z.ltb_spec (column cur) (width (size_ b))); [| lia].
    rewrite Hf. simpl. fold cur. unfold iadd.
    rewrite i32_id by (machine; lia). reflexivity. }
  exists buf. split; [exact Hrender | split; [exact Hl |]].
  intros r c Hr Hc.
  rewrite Hrender, !at_in_raster; try assumption; try (split; assumption).
  - simpl.
    pose proof (render_loop_pixel s (column cur) [0; 1; 2; 3; 4; 5] b r c) as Hp.
    rewrite Hf in Hp. simpl buffer_ in Hp. rewrite Hp.
    + fold cur. rewrite paints_six. reflexivity.
    + split; assumption.
    + assumption.
    + exact Hrow.
    + fold cur. lia.
    + repeat constructor; lia.
    + assumption.
    + assumption.
  - unfold buffer_ok. simpl. rewrite Hl. exact Hbuf.
Qed.

(** [render] with the cursor at or beyond the raster width. *)
Lemma render_beyond (b : t) (s : Z) :
  is_int (column (sixelCursor_ b)) ->
  0 <= width (size_ b) <= column (sixelCursor_ b) -> render s b = b.
Proof.
  intros Hint Hge. unfold render.
  rewrite u32_id by (machine; lia).
  destruct (Z.ltb_spec (column (sixelCursor_ b)) (width (size_ b)));
    [lia | reflexivity].
Qed.

Lemma render_wf (b : t) (s : Z) : wf b -> wf (render s b).
Proof.
  intros Hwf.
  destruct (Z_lt_le_dec (column (sixelCursor_ b)) (width (size_ b))) as [Hlt | Hge].
  - destruct (render_inside b s Hwf Hlt) as (buf & -> & Hl & _).
    destruct Hwf as ([Hw Hh] & Hbuf & ([Hrow Hcol] & Hcol0)).
    split; [| split].
    + split; assumption.
    + unfold buffer_ok. cbn. rewrite Hl. exact Hbuf.
    + repeat split; cbn; try apply Hrow; machine; lia.
  - rewrite render_beyond; [assumption | apply Hwf |].
    destruct Hwf as ([Hw Hh] & _). lia.
Qed.

(** C1.  [render] on a well-formed builder whose palette is not empty (on
    an empty one the colour lookup of the source divides by zero).  When the
    column of the cursor is left of the raster width, the call paints, for
    every bit [i] of the sixel that is set ([((s >> i) & 1) == 1]), the pixel
    at the row of the cursor plus [i] and the column of the cursor with the
    current palette colour and alpha 0xFF; every other pixel of the raster
    keeps its colour, the buffer keeps its length (a write outside the raster
    is dropped), no other field changes, and the column of the cursor grows
    by one.  When the column is at or beyond the width, the call changes
    nothing.  The statement holds for every value of the sixel, the values
    0..63 among them. *)
Theorem render_spec (b : t) (s : Z) :
  wf b -> 0 < SixelColorPalette.size (colors_ b) ->
  let cur := sixelCursor_ b in
  (column cur < width (size_ b) ->
   exists buf,
     render s b
       = with_cursor (mkCoordinate (row cur) (column cur + 1)) (with_buffer buf b) /\
     length buf = length (buffer_ b) /\
     forall r c, 0 <= r < height (size_ b) -> 0 <= c < width (size_ b) ->
       at_ (render s b) (mkCoordinate r c)
       = if bool_decide (c = column cur /\ row cur <= r < row cur + 6 /\
                         Z.land (Z.shiftr s (r - row cur)) 1 = 1)
         then opaque (currentColor b)
         else at_ b (mkCoordinate r c)) /\
  (width (size_ b) <= column cur -> render s b = b).
Proof.
  intros Hwf _ cur. split.
  - intros Hlt. now apply render_inside.
  - intros Hge. apply render_beyond; [apply Hwf |].
    destruct Hwf as ([Hw _] & _). fold cur. lia.
Qed.

End BuilderRenderSpec.

(** ** Writing through a moving pointer *)

Section CursorFacts.

Lemma stored_nil (o : Cursor) : stored o [] = o.
Proof.
  destruct o as [m p]. unfold stored. simpl.
  rewrite Nat.add_0_r, take_drop. reflexivity.
Qed.

Lemma put_stored (v : Z) (o : Cursor) :
  (ptr o < length (mem o))%nat -> put v o = stored o [v].
Proof.
  destruct o as [m p]. unfold put, stored. simpl. intros Hlt.
  rewrite insert_take_drop by lia.
  now replace (p + 1)%nat with (S p) by lia.
Qed.

Lemma stored_stored (o : Cursor) (vs ws : list Z) :
  (ptr o + length vs <= length (mem o))%nat ->
  stored (stored o vs) ws = stored o (vs ++ ws).
Proof.
  destruct o as [m p]. unfold stored. simpl. intros Hle.
  assert (Hp : length (take p m ++ vs) = (p + length vs)%nat)
    by (rewrite length_app, length_take; lia).
  rewrite (app_assoc (take p m) vs).
  rewrite take_app_length' by (now rewrite Hp).
  rewrite drop_app_add' by (now rewrite Hp).
  rewrite drop_drop, length_app, <- !app_assoc, Nat.add_assoc.
  reflexivity.
Qed.

Lemma length_stored (o : Cursor) (vs : list Z) :
  (ptr o + length vs <= length (mem o))%nat ->
  length (mem (stored o vs)) = length (mem o).
Proof.
  destruct o as [m p]. unfold stored. simpl. intros Hle.
  rewrite !length_app, length_take, length_drop. lia.
Qed.

Lemma put_after_stored (v : Z) (o : Cursor) (vs : list Z) :
  (ptr o + length vs < length (mem o))%nat ->
  put v (stored o vs) = stored o (vs ++ [v]).
Proof.
  intros Hlt.
  rewrite put_stored by (rewrite length_stored; simpl; lia).
  apply stored_stored. lia.
Qed.

Lemma put_color_stored (c : RGBAColor) (o : Cursor) :
  (ptr o + 4 <= length (mem o))%nat -> put_color c o = stored o (color_bytes c).
Proof.
  intros Hle. unfold put_color, color_bytes.
  rewrite (put_stored (red_a c) o) by lia.
  rewrite !put_after_stored by (simpl; lia).
  reflexivity.
Qed.

Lemma length_fill_bytes (n : nat) (c : RGBAColor) :
  length (fill_bytes n c) = (4 * n)%nat.
Proof.
  unfold fill_bytes. induction n as [| n IH]; [reflexivity |].
  cbn [replicate concat color_bytes app length]. rewrite IH. lia.
Qed.

Lemma fill_bytes_S (n : nat) (c : RGBAColor) :
  fill_bytes (S n) c = fill_bytes n c ++ color_bytes c.
Proof.
  unfold fill_bytes. generalize (color_bytes c). intros x.
  induction n as [| n IH].
  - cbn [replicate concat]. now rewrite app_nil_r.
  - change (x ++ concat (replicate (S n) x)
            = (x ++ concat (replicate n x)) ++ x).
    rewrite IH. now rewrite app_assoc.
Qed.

Lemma fill_stored (n : nat) (c : RGBAColor) (o : Cursor) :
  (ptr o + 4 * n <= length (mem o))%nat ->
  Nat.iter n (put_color c) o = stored o (fill_bytes n c).
Proof.
  induction n as [| n IH]; intros Hle.
  - simpl. now rewrite stored_nil.
  - simpl Nat.iter. rewrite IH by lia.
    rewrite put_color_stored
      by (rewrite length_stored; simpl; rewrite length_fill_bytes; lia).
    rewrite stored_stored by (rewrite length_fill_bytes; lia).
    now rewrite fill_bytes_S.
Qed.

Lemma copy_stored (src : list Z) (o : Cursor) :
  (ptr o + length src <= length (mem o))%nat -> copy_to src o = stored o src.
Proof.
  unfold copy_to. revert o.
  induction src as [| v src IH]; intros o Hle; simpl.
  - now rewrite stored_nil.
  - simpl in Hle. rewrite put_stored by lia.
    rewrite IH by (rewrite length_stored; simpl; lia).
    rewrite stored_stored by (simpl; lia). reflexivity.
Qed.

(** A byte of a run of pixels of one colour. *)
Lemma fill_bytes_pixel (n : nat) (c : RGBAColor) (k : nat) :
  (k < n)%nat -> pixel_of (fill_bytes n c) (4 * k) = c.
Proof.
  revert k. induction n as [| n IH]; intros k Hk; [lia |].
  unfold fill_bytes in *. cbn [replicate concat].
  destruct k as [| k].
  - destruct c. reflexivity.
  - specialize (IH k ltac:(lia)).
    set (x := color_bytes c) in *.
    assert (Hx : length x = 4%nat) by reflexivity.
    unfold pixel_of in *.
    rewrite !lookup_total_app_r by lia.
    replace (4 * S k - length x)%nat with (4 * k)%nat by lia.
    replace (4 * S k + 1 - length x)%nat with (4 * k + 1)%nat by lia.
    replace (4 * S k + 2 - length x)%nat with (4 * k + 2)%nat by lia.
    replace (4 * S k + 3 - length x)%nat with (4 * k + 3)%nat by lia.
    exact IH.
Qed.

End CursorFacts.

(** ** SixelImageBuilder: construction, [setRaster], [newline] *)

Section BuilderState.

Import SixelImageBuilder BuilderInv.

Lemma fits_products (w h : Z) :
  0 <= w -> 0 <= h -> 4 * w * h <= UINT_MAX ->
  umul w h = w * h /\ umul (umul w h) 4 = 4 * w * h.
Proof.
  intros Hw Hh Hsz.
  assert (0 <= w * h) by (apply Z.mul_nonneg_nonneg; lia).
  unfold umul. rewrite (u32_id (w * h)) by lia.
  split; [reflexivity |]. rewrite u32_id; lia.
Qed.

(** The buffer of a new builder: every pixel holds the background. *)
Lemma create_buffer (maxSize : Size) (av ah : Z) (bg : RGBAColor)
    (pal : SixelColorPalette.t) :
  fits maxSize ->
  buffer_ (create maxSize av ah bg pal)
  = fill_bytes (Z.to_nat (width maxSize * height maxSize)) bg.
Proof.
  intros (Hw & Hh & Hsz).
  destruct (fits_products (width maxSize) (height maxSize)) as [Hp Hp4];
    try lia.
  unfold create, clear.
  cbn [buffer_ size_ with_buffer with_cursor]. rewrite Hp4, Hp.
  rewrite fill_stored by (cbn [mem ptr]; rewrite length_replicate; lia).
  unfold stored. cbn [mem ptr take Nat.add]. rewrite length_fill_bytes.
  rewrite drop_ge by (rewrite length_replicate; lia).
  now rewrite app_nil_r.
Qed.

Lemma create_wf (maxSize : Size) (av ah : Z) (bg : RGBAColor)
    (pal : SixelColorPalette.t) :
  fits maxSize -> wf (create maxSize av ah bg pal).
Proof.
  intros Hfits. pose proof Hfits as (Hw & Hh & Hsz).
  assert (0 <= width maxSize * height maxSize)
    by (apply Z.mul_nonneg_nonneg; lia).
  split; [| split].
  - split; assumption.
  - unfold buffer_ok. rewrite create_buffer by assumption.
    rewrite length_fill_bytes. simpl. split; lia.
  - repeat split; simpl; machine; lia.
Qed.

Lemma create_pixel (maxSize : Size) (av ah : Z) (bg : RGBAColor)
    (pal : SixelColorPalette.t) (r c : Z) :
  fits maxSize -> 0 <= r < height maxSize -> 0 <= c < width maxSize ->
  at_ (create maxSize av ah bg pal) (mkCoordinate r c) = bg.
Proof.
  intros Hfits Hr Hc. pose proof (create_wf maxSize av ah bg pal Hfits) as (Hras & Hbuf & _).
  rewrite at_in_raster by assumption.
  rewrite create_buffer by assumption. simpl.
  pose proof (pixel_bound (width maxSize) (height maxSize) r c Hr Hc) as [Hlo Hhi].
  unfold pixel_offset.
  replace (Z.to_nat (4 * (r * width maxSize + c)))
    with (4 * Z.to_nat (r * width maxSize + c))%nat by lia.
  apply fill_bytes_pixel. lia.
Qed.

(** The length [setRaster] gives the buffer is the [unsigned] product. *)
Lemma setRaster_length (pan pad : Z) (s : Size) (b : t) :
  Z.of_nat (length (buffer_ (setRaster pan pad s b)))
  = umul (umul (clamp (width s) 0 (width (maxSize_ b)))
               (clamp (height s) 0 (height (maxSize_ b)))) 4.
Proof.
  unfold setRaster. simpl. rewrite length_resize.
  rewrite Z2Nat.id; [reflexivity | apply u32_range].
Qed.

(** Where the byte count of the largest raster fits [unsigned], [setRaster]
    leaves four bytes for each pixel of the clamped raster. *)
Lemma setRaster_length_fits (pan pad : Z) (s : Size) (b : t) :
  fits (maxSize_ b) ->
  let w := clamp (width s) 0 (width (maxSize_ b)) in
  let h := clamp (height s) 0 (height (maxSize_ b)) in
  aspectRatio_ (setRaster pan pad s b) = (pan, pad) /\
  size_ (setRaster pan pad s b) = mkSize w h /\
  Z.of_nat (length (buffer_ (setRaster pan pad s b))) = 4 * w * h.
Proof.
  intros (Hw & Hh & Hsz) w h.
  split; [reflexivity | split; [reflexivity |]].
  rewrite setRaster_length. fold w h.
  pose proof (clamp_range (width s) (width (maxSize_ b)) ltac:(lia)) as Hcw.
  pose proof (clamp_range (height s) (height (maxSize_ b)) ltac:(lia)) as Hch.
  fold w in Hcw. fold h in Hch.
  apply fits_products; try lia.
  assert (w * h <= width (maxSize_ b) * height (maxSize_ b))
    by (apply Z.mul_le_mono_nonneg; lia).
  lia.
Qed.

End BuilderState.

Section BuilderCursor.

Import SixelImageBuilder BuilderInv.

(** C6.  [newline] sets the column of the cursor to 0, adds 6 to its row
    when the row plus 6 is less than the height of the raster and leaves the
    row alone otherwise; the buffer, and with it every pixel, and the size
    are the same after the call.  The row of the cursor is not negative and
    the addition of 6 stays in [int]. *)
Theorem newline_spec (b : t) :
  0 <= row (sixelCursor_ b) -> row (sixelCursor_ b) + 6 <= INT_MAX ->
  column (sixelCursor_ (newline b)) = 0 /\
  (row (sixelCursor_ b) + 6 < height (size_ b) ->
   row (sixelCursor_ (newline b)) = row (sixelCursor_ b) + 6) /\
  (height (size_ b) <= row (sixelCursor_ b) + 6 ->
   row (sixelCursor_ (newline b)) = row (sixelCursor_ b)) /\
  buffer_ (newline b) = buffer_ b /\
  size_ (newline b) = size_ b.
Proof.
  intros Hrow Hadd. unfold newline.
  cbn [sixelCursor_ with_cursor row column size_].
  unfold iadd. rewrite i32_id by (machine; lia).
  rewrite u32_id by (machine; lia).
  destruct (Z.ltb_spec (row (sixelCursor_ b) + 6) (height (size_ b)));
    cbn [sixelCursor_ with_cursor row column buffer_ size_];
    repeat split; try reflexivity; lia.
Qed.

(** [newline] on a new builder of 4 x 12 pixels. *)
Lemma newline_spec_witness :
  let b := create (mkSize 4 12) 1 1 (rgba 0 0 0 255) (SixelColorPalette.create 16 256) in
  column (sixelCursor_ (newline b)) = 0 /\
  (row (sixelCursor_ b) + 6 < height (size_ b) ->
   row (sixelCursor_ (newline b)) = row (sixelCursor_ b) + 6) /\
  (height (size_ b) <= row (sixelCursor_ b) + 6 ->
   row (sixelCursor_ (newline b)) = row (sixelCursor_ b)) /\
  buffer_ (newline b) = buffer_ b /\
  size_ (newline b) = size_ b.
Proof. intros b. apply (newline_spec b); vm_compute; discriminate. Defined.

Lemma render_size_cursor (s : Z) (b : t) :
  size_ (render s b) = size_ b /\
  row (sixelCursor_ (render s b)) = row (sixelCursor_ b) /\
  column (sixelCursor_ (render s b))
  = if u32 (column (sixelCursor_ b)) <? width (size_ b)
    then iadd (column (sixelCursor_ b)) 1 else column (sixelCursor_ b).
Proof.
  unfold render.
  destruct (u32 (column (sixelCursor_ b)) <? width (size_ b)); [| auto].
  destruct (render_loop_fields s (column (sixelCursor_ b)) [0; 1; 2; 3; 4; 5] b)
    as (buf & -> & _).
  auto.
Qed.

Lemma cursor_step_disciplined (b : t) (op : CursorOp) :
  raster_ok b -> disciplined b ->
  size_ (cursor_step b op) = size_ b /\ disciplined (cursor_step b op).
Proof.
  intros [Hw Hh] (Hmod & Hrow & Hbelow & Hcol). unfold disciplined in *.
  destruct op as [s | |]; cbn [cursor_step].
  - destruct (render_size_cursor s b) as (-> & -> & ->).
    split; [reflexivity |]. cbv zeta.
    rewrite u32_id by (machine; lia).
    destruct (Z.ltb_spec (column (sixelCursor_ b)) (width (size_ b))).
    + unfold iadd. rewrite i32_id by (machine; lia). repeat split; tauto || lia.
    + repeat split; tauto || lia.
  - unfold rewind. cbn. repeat split; tauto || lia.
  - unfold newline. cbn [sixelCursor_ with_cursor row column size_].
    unfold iadd. rewrite u32_i32.
    rewrite u32_id by (machine; lia).
    destruct (Z.ltb_spec (row (sixelCursor_ b) + 6) (height (size_ b)));
      cbn [sixelCursor_ with_cursor row column size_].
    + rewrite i32_id by (machine; lia).
      split; [reflexivity |].
      repeat split; try lia.
      rewrite <- Zplus_mod_idemp_l, Hmod. reflexivity.
    + split; [reflexivity |]. repeat split; tauto || lia.
Qed.

Lemma cursor_run_disciplined (ops : list CursorOp) (b : t) :
  raster_ok b -> disciplined b ->
  size_ (cursor_run ops b) = size_ b /\ disciplined (cursor_run ops b).
Proof.
  unfold cursor_run. revert b.
  induction ops as [| op ops IH]; intros b Hras Hd; cbn [foldl]; [auto |].
  destruct (cursor_step_disciplined b op Hras Hd) as [Hsz Hd'].
  destruct (IH (cursor_step b op)) as [IHsz IHd].
  - unfold raster_ok. now rewrite Hsz.
  - exact Hd'.
  - split; [congruence | exact IHd].
Qed.

(** C7.  From a builder whose cursor is at (0, 0), as the constructor and
    [clear] leave it, every finite sequence of [render], [rewind] and
    [newline] leaves the row of the cursor a multiple of 6 and its column
    between 0 and the width of the raster, which no call of the sequence
    changes.  The raster is one that [int] coordinates can address. *)
Theorem cursor_discipline (ops : list CursorOp) (b : t) :
  raster_ok b -> sixelCursor_ b = mkCoordinate 0 0 ->
  size_ (cursor_run ops b) = size_ b /\
  row (sixelCursor_ (cursor_run ops b)) mod 6 = 0 /\
  0 <= column (sixelCursor_ (cursor_run ops b)) <= width (size_ (cursor_run ops b)).
Proof.
  intros Hras Hcur.
  destruct (cursor_run_disciplined ops b Hras) as (Hsz & Hmod & _ & _ & Hcol).
  - unfold disciplined. rewrite Hcur. cbn. destruct Hras. repeat split; lia.
  - auto.
Qed.

(** Seven calls on a new builder of 4 x 12 pixels. *)
Lemma cursor_discipline_witness :
  let b := create (mkSize 4 12) 1 1 (rgba 0 0 0 255) (SixelColorPalette.create 16 256) in
  let ops := [CRender 63; CRender 1; CNewline; CRender 5; CRewind; CNewline; CRender 7] in
  size_ (cursor_run ops b) = size_ b /\
  row (sixelCursor_ (cursor_run ops b)) mod 6 = 0 /\
  0 <= column (sixelCursor_ (cursor_run ops b)) <= width (size_ (cursor_run ops b)).
Proof.
  intros b ops. apply (cursor_discipline ops b).
  - split; vm_compute; split; discriminate.
  - reflexivity.
Defined.

(** C10.  [setRaster] leaves the cursor and the current colour as they are.
    When the clamped width is less than the column of the cursor, the cursor
    stays beyond the raster: every further [render] leaves the builder, its
    buffer included, as [setRaster] left it.  The column of the cursor is an
    [int] and the largest width is not negative. *)
Theorem setRaster_keeps_cursor (pan pad : Z) (s : Size) (b : t) :
  sixelCursor_ (setRaster pan pad s b) = sixelCursor_ b /\
  currentColor_ (setRaster pan pad s b) = currentColor_ b /\
  (is_int (column (sixelCursor_ b)) -> 0 <= width (maxSize_ b) ->
   width (size_ (setRaster pan pad s b)) < column (sixelCursor_ b) ->
   forall sixels : list Z,
     foldl (fun b' sixel => render sixel b') (setRaster pan pad s b) sixels
     = setRaster pan pad s b).
Proof.
  split; [reflexivity | split; [reflexivity |]].
  intros Hint Hmax Hlt sixels.
  induction sixels as [| sixel sixels IH]; cbn [foldl]; [reflexivity |].
  assert (Hskip : render sixel (setRaster pan pad s b) = setRaster pan pad s b).
  { unfold render. cbn [sixelCursor_ setRaster size_ width] in *.
    pose proof (clamp_range (width s) (width (maxSize_ b)) Hmax).
    rewrite u32_id by (machine; lia).
    destruct (Z.ltb_spec (column (sixelCursor_ b))
                (clamp (width s) 0 (width (maxSize_ b)))); [lia | reflexivity]. }
  rewrite Hskip. exact IH.
Qed.

End BuilderCursor.

(** ** The claims on the palette and on [setRaster] *)

Section PaletteClaims.

Import SixelColorPalette.

(** A palette at or above its cap keeps its length over [setColor]. *)
Lemma setColor_keeps_excess (i : Z) (c : RGBColor) (p : t) :
  maxSize_ p <= size p -> size (setColor i c p) = size p.
Proof.
  intros Hex. unfold setColor.
  destruct (Z.ltb_spec i (maxSize_ p)); [| reflexivity].
  destruct (Z.leb_spec (size p) i); [lia |].
  destruct (_ && _); [| reflexivity].
  unfold size. cbn [palette_]. now rewrite length_insert.
Qed.

(** C8, on the code.  The constructor resizes the palette to the initial size
    without looking at the cap, and [setColor] only ever grows a palette:
    the palette constructed with 16 entries and the cap 4 has 16 entries,
    more than its cap, and has them still after every sequence of
    [setColor]. *)
Theorem palette_cap_broken_by_constructor :
  let p := create 16 4 in
  maxSize_ p = 4 /\ size p = 16 /\
  forall calls : list (Z * RGBColor),
    let p' := palette_run (map (fun ic => PSetColor (fst ic) (snd ic)) calls) p in
    maxSize_ p' = 4 /\ size p' = 16.
Proof.
  intros p. split; [reflexivity | split; [reflexivity |]].
  intros calls.
  assert (Hgen : forall q, maxSize_ q = 4 -> size q = 16 ->
            let q' := palette_run (map (fun ic => PSetColor (fst ic) (snd ic)) calls) q in
            maxSize_ q' = 4 /\ size q' = 16).
  { induction calls as [| [i c] calls IH]; intros q Hm Hs; [now split |].
    apply IH.
    - cbn. now rewrite maxSize_setColor.
    - cbn. rewrite setColor_keeps_excess; [assumption | lia]. }
  now apply Hgen.
Qed.

(** C9.  For every palette that is not empty (on an empty one [at] divides
    by zero) and every index that is not negative, [at] of the index is [at]
    of the index modulo the length of the palette, and the index modulo the
    length is the position of an entry of the palette. *)
Theorem palette_at_wraps (p : t) (i : Z) :
  0 < size p -> 0 <= i ->
  at_ p i = at_ p (i mod size p) /\ 0 <= i mod size p < size p.
Proof.
  intros Hsize Hi. split.
  - unfold at_, size. now rewrite Zmod_mod.
  - apply Z.mod_pos_bound. exact Hsize.
Qed.

(** The index 18 in a palette of 16 colours. *)
Lemma palette_at_wraps_witness :
  0 < size (create 16 256) /\ 0 <= 18 /\
  at_ (create 16 256) 18 = at_ (create 16 256) (18 mod size (create 16 256)) /\
  0 <= 18 mod size (create 16 256) < size (create 16 256).
Proof.
  assert (Hsize : 0 < size (create 16 256)) by (vm_compute; reflexivity).
  assert (Hi : 0 <= 18) by lia.
  split; [exact Hsize | split; [exact Hi |]].
  exact (palette_at_wraps (create 16 256) 18 Hsize Hi).
Defined.

End PaletteClaims.

Section SetRasterClaim.

Import SixelImageBuilder.

(** C5, on the code.  [setRaster] computes the byte count of the buffer as
    the [unsigned] product [width * height * 4].  On a builder whose largest
    raster is 65536 x 65536, the call for that raster sets the aspect ratio
    and the size as the claim says, and resizes the buffer to
    65536 * 65536 * 4 mod 2^32 = 0 bytes, not to 4 * 65536 * 65536. *)
Theorem setRaster_buffer_wraps :
  let b := create (mkSize 65536 65536) 1 1 (rgba 0 0 0 255)
             (SixelColorPalette.create 16 256) in
  let b' := setRaster 1 1 (mkSize 65536 65536) b in
  aspectRatio_ b' = (1, 1) /\
  width (size_ b') = clamp 65536 0 (width (maxSize_ b)) /\
  height (size_ b') = clamp 65536 0 (height (maxSize_ b)) /\
  4 * clamp 65536 0 (width (maxSize_ b)) * clamp 65536 0 (height (maxSize_ b))
    = 17179869184 /\
  length (buffer_ b') = 0%nat.
Proof. vm_compute. repeat split. Qed.

End SetRasterClaim.

(** ** Repeated [render] *)

Section RenderRun.

Import SixelImageBuilder BuilderInv.

Lemma if_bool_decide_iff {A : Type} (P Q : Prop) `{Decision P, Decision Q}
    (a b : A) :
  (P <-> Q) ->
  (if bool_decide P then a else b) = (if bool_decide Q then a else b).
Proof. intros Hiff. now rewrite (bool_decide_ext P Q Hiff). Qed.

(** [n] calls of [render] with one sixel paint the columns from the cursor
    on, as far as the raster goes. *)
Lemma render_run (n : nat) (s : Z) (b : t) :
  wf b -> column (sixelCursor_ b) <= width (size_ b) ->
  let b' := Nat.iter n (render s) b in
  wf b' /\ size_ b' = size_ b /\ currentColor b' = currentColor b /\
  row (sixelCursor_ b') = row (sixelCursor_ b) /\
  column (sixelCursor_ b')
    = Z.min (column (sixelCursor_ b) + Z.of_nat n) (width (size_ b)) /\
  forall r c, 0 <= r < height (size_ b) -> 0 <= c < width (size_ b) ->
    at_ b' (mkCoordinate r c)
    = if bool_decide (column (sixelCursor_ b) <= c
                        < column (sixelCursor_ b) + Z.of_nat n /\
                      row (sixelCursor_ b) <= r < row (sixelCursor_ b) + 6 /\
                      Z.land (Z.shiftr s (r - row (sixelCursor_ b))) 1 = 1)
      then opaque (currentColor b)
      else at_ b (mkCoordinate r c).
Proof.
  intros Hwf Hcol.
  induction n as [| n IH];
    [cbn [Nat.iter nat_rect]
    | change (Nat.iter (S n) (render s) b)
        with (render s (Nat.iter n (render s) b))];
    cbv zeta.
  - split; [assumption |]. do 3 (split; [reflexivity |]). split; [lia |].
    intros r c Hr Hc. rewrite bool_decide_eq_false_2; [reflexivity | lia].
  - cbv zeta in IH.
    destruct IH as (Hwf' & Hsize & Hcolor & Hrow & Hcolumn & Hpix).
    set (bn := Nat.iter n (render s) b) in *.
    destruct (Z_lt_le_dec (column (sixelCursor_ bn)) (width (size_ bn)))
      as [Hlt | Hge].
    + destruct (render_inside bn s Hwf' Hlt) as (buf & Heq & Hl & Hp).
      split; [now apply render_wf |].
      rewrite Hsize in *.
      split; [rewrite Heq; exact Hsize |].
      split; [rewrite Heq; exact Hcolor |].
      split; [rewrite Heq; exact Hrow |].
      split; [rewrite Heq; cbn; lia |].
      intros r c Hr Hc. rewrite Hp, Hpix, Hcolor, Hrow by assumption.
      destruct (decide (c = column (sixelCursor_ bn))) as [Hc' | Hc'].
      * rewrite (bool_decide_eq_false_2 (_ <= c < _ /\ _)) by lia.
        apply if_bool_decide_iff. lia.
      * rewrite (bool_decide_eq_false_2 (c = _ /\ _)) by tauto.
        apply if_bool_decide_iff. lia.
    + assert (Hint : is_int (column (sixelCursor_ bn))) by apply Hwf'.
      assert (Hw : 0 <= width (size_ bn)) by apply Hwf'.
      rewrite render_beyond by (try assumption; lia).
      rewrite Hsize in *.
      split; [assumption |].
      do 3 (split; [first [assumption | reflexivity] |]). split; [lia |].
      intros r c Hr Hc. rewrite Hpix by assumption.
      apply if_bool_decide_iff. lia.
Qed.

End RenderRun.

(** ** SixelParser *)

Section ParserFacts.

Import SixelParser.

Lemma all_below_sound (f : Z -> bool) (n : positive) (v : Z) :
  all_below f n v = true -> forall k, v <= k < v + Z.pos n -> f k = true.
Proof.
  revert v. induction n as [n IH | n IH |]; intros v Hall k Hk; cbn in Hall.
  - apply andb_prop in Hall as [Hall H2]. apply andb_prop in Hall as [H0 H1].
    destruct (Z.eq_dec k v) as [-> | Hne]; [assumption |].
    destruct (Z_lt_le_dec k (v + 1 + Z.pos n)).
    + apply (IH (v + 1)); [assumption | lia].
    + apply (IH (v + 1 + Z.pos n)); [assumption | lia].
  - apply andb_prop in Hall as [H1 H2].
    destruct (Z_lt_le_dec k (v + Z.pos n)).
    + apply (IH v); [assumption | lia].
    + apply (IH (v + Z.pos n)); [assumption | lia].
  - replace k with v by lia. assumption.
Qed.

(** The reductions modulo 2^32, 256 and 2^8 of [convertValue] amount to one
    reduction modulo 256. *)
Lemma convertValue_truncate (v : Z) :
  convertValue v = Float32.truncate (scaled v) mod 256.
Proof.
  unfold convertValue, Float32.to_unsigned, u8, u32, scaled.
  change (Float32.of_unsigned 255) with f255.
  change (Float32.of_unsigned 100) with f100.
  change (2 ^ 8) with 256.
  rewrite Z.mod_mod by lia.
  apply Z.mod_mod_divide. exists (2 ^ 24). reflexivity.
Qed.

(** Below 263180 the single precision computation of [convertValue] agrees
    with the integer formula of the spec: the quotient, truncated, is
    [floor(v * 255 / 100)]. *)
Lemma convertValue_exact (v : Z) :
  0 <= v < 263180 -> convertValue v = spec_scale v.
Proof.
  intros Hv. rewrite convertValue_truncate. unfold spec_scale. f_equal.
  apply Z.eqb_eq.
  apply (all_below_sound
           (fun v => Float32.truncate (scaled v) =? v * 255 / 100) 263180 0);
    [vm_compute; reflexivity | lia].
Qed.

(** At 263180 it does not: 263180 * 255 = 67110900 lies between 2^26 and
    2^27, where single precision numbers are 8 apart. *)
Lemma convertValue_first_difference :
  convertValue 263180 = 132 /\ spec_scale 263180 = 133.
Proof. split; vm_compute; reflexivity. Qed.

Lemma trace_render_iter (n : nat) (sixel : Z) (tr : list Event) :
  Nat.iter n (ev_render sixel) tr = tr ++ replicate n (Render sixel).
Proof.
  induction n as [| n IH].
  - cbn. now rewrite app_nil_r.
  - change (Nat.iter (S n) (ev_render sixel) tr)
      with (ev_render sixel (Nat.iter n (ev_render sixel) tr)).
    rewrite IH. cbn [ev_render Trace_Events].
    rewrite <- app_assoc. f_equal.
    clear. induction n as [| n IH]; [reflexivity |].
    cbn [replicate app]. now rewrite IH.
Qed.

Lemma toSixel_value (b : Z) : 63 <= b <= 126 -> toSixel b = b - 63.
Proof.
  intros Hb. unfold toSixel. machine.
  rewrite (Z.mod_small (b - 63)) by lia.
  rewrite Z.mod_small by lia. lia.
Qed.

(** A sixel byte in [RepeatIntroducer], for every sink. *)
Lemma parse_repeat_sixel {S : Type} `{Events S} (p : t) (s : S)
    (n : Z) (rest : list Z) (b : Z) :
  state_ p = RepeatIntroducer -> params_ p = n :: rest -> 63 <= b <= 126 ->
  parse b (p, s)
  = (mk Ground (n :: rest), Nat.iter (Z.to_nat n) (ev_render (b - 63)) s).
Proof.
  intros Hst Hpar Hb. destruct p as [st ps]. cbn in Hst, Hpar. subst st ps.
  unfold parse. cbn [state_ params_].
  assert (isDigit b = false) as ->.
  { unfold isDigit. destruct (Z.leb_spec b 57); [lia | apply andb_false_r]. }
  assert (isSixel b = true) as ->.
  { unfold isSixel. apply andb_true_intro. split; apply Z.leb_le; lia. }
  rewrite toSixel_value by assumption. reflexivity.
Qed.

(** The calls that the input [#2!4N] makes on a sink. *)
Lemma parse_repeat_example {S : Type} `{Events S} (s : S) :
  parse_all [35; 50; 33; 52; 78] (create, s)
  = (mk Ground [4],
     Nat.iter 4 (ev_render 15) (ev_useColor 2 s)).
Proof. reflexivity. Qed.

End ParserFacts.

Section ParserClaims.

Import SixelParser.

(** C3.  In [RepeatIntroducer] with the parameter list [n :: rest], a sixel
    byte [b] from 63 to 126 makes the parser call [render (b - 63)] [n]
    times, nothing else, and go to [Ground].  The input [#2!4N], parsed from
    the initial state into a new builder whose palette has more than two
    entries, leaves every pixel of the raster in the columns 0..3 and the
    rows 0..3 with the palette entry 2, opaque, and every other pixel, the
    rows 4 and 5 of these columns among them, with the background. *)
Theorem repeat_introducer_spec :
  (forall (p : t) (tr : list Event) (n : Z) (rest : list Z) (b : Z),
     state_ p = RepeatIntroducer -> params_ p = n :: rest -> 63 <= b <= 126 ->
     parse b (p, tr)
     = (mk Ground (n :: rest), tr ++ replicate (Z.to_nat n) (Render (b - 63)))) /\
  (forall (maxSize : Size) (av ah : Z) (bg : RGBAColor) (pal : SixelColorPalette.t),
     fits maxSize -> 2 < SixelColorPalette.size pal ->
     let b0 := SixelImageBuilder.create maxSize av ah bg pal in
     let b := snd (parse_all [35; 50; 33; 52; 78] (create, b0)) in
     forall r c, 0 <= r < height maxSize -> 0 <= c < width maxSize ->
       SixelImageBuilder.at_ b (mkCoordinate r c)
       = if bool_decide (c < 4 /\ r < 4)
         then opaque (SixelColorPalette.at_ pal 2)
         else bg).
Proof.
  split.
  - intros p tr n rest b Hst Hpar Hb.
    rewrite (parse_repeat_sixel p tr n rest b Hst Hpar Hb).
    now rewrite trace_render_iter.
  - intros maxSize av ah bg pal Hfits Hpal b0 b r c Hr Hc.
    subst b. rewrite parse_repeat_example. cbn [snd].
    cbn [ev_render ev_useColor SixelImageBuilder_Events].
    set (b1 := SixelImageBuilder.useColor 2 b0).
    pose proof (create_wf maxSize av ah bg pal Hfits) as Hwf0. fold b0 in Hwf0.
    assert (Hwf1 : BuilderInv.wf b1) by exact Hwf0.
    assert (Hsize : SixelImageBuilder.size_ b1 = maxSize) by reflexivity.
    assert (Hcur : SixelImageBuilder.sixelCursor_ b1 = mkCoordinate 0 0)
      by reflexivity.
    assert (Hcolor : SixelImageBuilder.currentColor b1 = SixelColorPalette.at_ pal 2).
    { unfold SixelImageBuilder.currentColor, b1, SixelImageBuilder.useColor.
      cbn [SixelImageBuilder.colors_ SixelImageBuilder.currentColor_].
      unfold b0, SixelImageBuilder.create, SixelImageBuilder.clear.
      cbn [SixelImageBuilder.colors_ SixelImageBuilder.with_buffer
           SixelImageBuilder.with_cursor].
      now rewrite Z.mod_small by lia. }
    destruct (render_run 4 15 b1 Hwf1) as (_ & _ & _ & _ & _ & Hpix).
    { rewrite Hcur, Hsize. cbn. apply Hfits. }
    rewrite Hsize, Hcur, Hcolor in Hpix. cbn [row column] in Hpix.
    rewrite Hpix by assumption.
    replace (SixelImageBuilder.at_ b1 (mkCoordinate r c)) with bg
      by (symmetry; apply (create_pixel maxSize av ah bg pal r c); assumption).
    apply if_bool_decide_iff.
    rewrite Z.sub_0_r. split.
    + intros (Hc4 & Hr6 & Hbit).
      assert (r = 0 \/ r = 1 \/ r = 2 \/ r = 3 \/ r = 4 \/ r = 5) as Hcases by lia.
      destruct Hcases as [-> | [-> | [-> | [-> | [-> | ->]]]]];
        try (split; lia); vm_compute in Hbit; discriminate.
    + intros [Hc4 Hr4]. split; [lia | split; [lia |]].
      assert (r = 0 \/ r = 1 \/ r = 2 \/ r = 3) as Hcases by lia.
      destruct Hcases as [-> | [-> | [-> | ->]]]; reflexivity.
Qed.

(** The byte [N] after [!4], and the pixel (3, 2) after [#2!4N] on a new
    builder of 10 x 6 pixels. *)
Lemma repeat_introducer_spec_witness :
  parse 78 (mk RepeatIntroducer [4], [UseColor 2])
    = (mk Ground [4], [UseColor 2] ++ replicate (Z.to_nat 4) (Render (78 - 63))) /\
  SixelImageBuilder.at_
    (snd (parse_all [35; 50; 33; 52; 78]
            (create,
             SixelImageBuilder.create (mkSize 10 6) 1 1 (rgba 0 0 0 255)
               (SixelColorPalette.create 16 256))))
    (mkCoordinate 3 2)
  = (if bool_decide (2 < 4 /\ 3 < 4)
     then opaque (SixelColorPalette.at_ (SixelColorPalette.create 16 256) 2)
     else rgba 0 0 0 255).
Proof.
  destruct repeat_introducer_spec as [Hrepeat Hexample]. split.
  - apply (Hrepeat (mk RepeatIntroducer [4]) [UseColor 2] 4 [] 78);
      [reflexivity | reflexivity | lia].
  - apply (Hexample (mkSize 10 6) 1 1 (rgba 0 0 0 255)
             (SixelColorPalette.create 16 256)).
    + repeat split; vm_compute; discriminate.
    + vm_compute. reflexivity.
    + cbn. lia.
    + cbn. lia.
Defined.

(** The claim C4 gives the colour of [setColor] by the integer formula for
    every parameter.  For the component 16777217 the source, which computes
    in single precision, emits 204 where the formula gives 207:
    16777217 is not a single precision number and becomes 16777216. *)
Lemma leave_ColorParam_scale_counterexample :
  leaveState (mk ColorParam [0; 2; 16777217; 0; 0], [])
    = (mk ColorParam [0; 2; 16777217; 0; 0], [SetColor 0 (rgb 204 0 0)]) /\
  spec_scale 16777217 = 207 /\
  leaveState (mk ColorParam [0; 2; 16777217; 0; 0], [])
    <> (mk ColorParam [0; 2; 16777217; 0; 0],
        [SetColor 0 (rgb (spec_scale 16777217) (spec_scale 0) (spec_scale 0))]).
Proof.
  split; [vm_compute; reflexivity | split; [vm_compute; reflexivity |]].
  vm_compute. intros Heq. discriminate Heq.
Qed.

(** C4, amended.  Leaving [ColorParam]: with one parameter the parser calls
    [useColor] with it and nothing else; with five parameters, the second of
    them 2 and the last three below 263180, it calls [setColor] with the
    first parameter and the colour whose components are
    [floor(v * 255 / 100) mod 256]; with five parameters, the second of them
    not 2, it calls nothing; with any other number of parameters it calls
    nothing.  The parser is the same after leaving. *)
Theorem leave_ColorParam_spec (p : t) (tr : list Event) :
  state_ p = ColorParam ->
  (forall index, params_ p = [index] ->
     leaveState (p, tr) = (p, tr ++ [UseColor index])) /\
  (forall index a b c, params_ p = [index; 2; a; b; c] ->
     0 <= a < 263180 -> 0 <= b < 263180 -> 0 <= c < 263180 ->
     leaveState (p, tr)
     = (p, tr ++ [SetColor index
                    (rgb (spec_scale a) (spec_scale b) (spec_scale c))])) /\
  (forall index space a b c, params_ p = [index; space; a; b; c] ->
     space <> 2 -> leaveState (p, tr) = (p, tr)) /\
  (length (params_ p) <> 1%nat -> length (params_ p) <> 5%nat ->
   leaveState (p, tr) = (p, tr)).
Proof.
  intros Hst. destruct p as [st ps]. cbn in Hst. subst st.
  unfold leaveState. cbn [state_ params_].
  split; [| split; [| split]].
  - intros index ->. reflexivity.
  - intros index a b c -> Ha Hb Hc. cbn.
    now rewrite !convertValue_exact by assumption.
  - intros index space a b c -> Hspace. cbn.
    destruct (Z.eqb_spec space 2); [contradiction | reflexivity].
  - intros H1 H5.
    destruct (Nat.eqb_spec (length ps) 1); [contradiction |].
    destruct (Nat.eqb_spec (length ps) 5); [contradiction | reflexivity].
Qed.

(** The definition [#5;2;100;0;0] of the spec: palette entry 5 becomes
    (255, 0, 0). *)
Lemma leave_ColorParam_spec_witness :
  leaveState (mk ColorParam [5; 2; 100; 0; 0], [])
  = (mk ColorParam [5; 2; 100; 0; 0],
     [] ++ [SetColor 5 (rgb (spec_scale 100) (spec_scale 0) (spec_scale 0))]).
Proof.
  apply (leave_ColorParam_spec (mk ColorParam [5; 2; 100; 0; 0]) []
           eq_refl);
    [reflexivity | lia | lia | lia].
Defined.

End ParserClaims.

(** ** RasterizedImage: fragment *)

Section FragmentFacts.

Import RasterizedImage.

Lemma u32_mul_i32_r (a b : Z) : u32 (a * i32 b) = u32 (a * b).
Proof.
  unfold u32. rewrite Zmult_mod. fold (u32 (i32 b)). rewrite u32_i32.
  unfold u32. now rewrite <- Zmult_mod.
Qed.

(** The pixel offset of a cell, as [unsigned]. *)
Lemma cell_offset (n cell limit : Z) :
  0 <= n * cell <= limit -> limit <= UINT_MAX ->
  u32 (imul n (i32 cell)) = n * cell.
Proof.
  intros Hn Hl. unfold imul. rewrite u32_i32, u32_mul_i32_r.
  apply u32_id. lia.
Qed.

Lemma concat_uniform_lookup (rows : list (list Z)) (len y j : nat) :
  Forall (fun r => length r = len) rows ->
  (y < length rows)%nat -> (j < len)%nat ->
  concat rows !!! (y * len + j)%nat = (rows !!! y) !!! j.
Proof.
  intros Hall. revert y. induction Hall as [| r rows Hr _ IH]; intros y Hy Hj.
  - cbn in Hy. lia.
  - cbn [concat]. destruct y as [| y].
    + cbn [Nat.mul Nat.add]. rewrite lookup_total_app_l by lia. reflexivity.
    + rewrite lookup_total_app_r by (rewrite Hr; lia).
      replace (S y * len + j - length r)%nat with (y * len + j)%nat
        by (rewrite Hr; lia).
      cbn in Hy. rewrite IH by lia. reflexivity.
Qed.

Lemma length_concat_uniform (rows : list (list Z)) (len : nat) :
  Forall (fun r => length r = len) rows ->
  length (concat rows) = (length rows * len)%nat.
Proof.
  induction 1 as [| r rows Hr _ IH]; [reflexivity |].
  cbn [concat length]. rewrite length_app, IH, Hr. lia.
Qed.


Lemma row_start (ri : t) (xOff yOff aw ah y : Z) :
  row_pre ri xOff yOff aw ah -> 0 <= y < ah ->
  let k := (yOff + (ah - 1 - y)) * Image.width (image_ ri) + xOff in
  0 <= k /\ k + aw <= Image.width (image_ ri) * Image.height (image_ ri) /\
  szmul (usize (uadd (umul (uadd yOff (usub (usub ah 1) y))
                           (Image.width (image_ ri))) xOff)) 4
  = 4 * k.
Proof.
  intros [Hiw Hih Hfits _ _ Hx Hy Haw Hxin Hyin] Hrange k.
  set (iw := Image.width (image_ ri)) in *.
  set (ih := Image.height (image_ ri)) in *.
  assert (Hr : 0 <= yOff + (ah - 1 - y) <= ih - 1) by lia.
  assert (Hlo : 0 <= (yOff + (ah - 1 - y)) * iw)
    by (apply Z.mul_nonneg_nonneg; lia).
  assert (Hhi : (yOff + (ah - 1 - y) + 1) * iw <= ih * iw)
    by (apply Z.mul_le_mono_nonneg_r; lia).
  assert (Hk : 0 <= k /\ k + aw <= iw * ih) by (subst k; lia).
  split; [apply Hk | split; [apply Hk |]].
  unfold usub. rewrite (u32_id (ah - 1)) by (machine; lia).
  rewrite (u32_id (ah - 1 - y)) by (machine; lia).
  unfold uadd. rewrite (u32_id (yOff + (ah - 1 - y))) by (machine; lia).
  unfold umul. rewrite (u32_id (_ * iw)) by (machine; lia).
  fold k. rewrite (u32_id k) by (machine; lia).
  unfold szmul. rewrite (usize_id k) by (machine; lia).
  rewrite usize_id by (machine; lia). lia.
Qed.

Lemma length_row_bytes (ri : t) (xOff yOff aw ah y : Z) :
  row_pre ri xOff yOff aw ah -> 0 <= y < ah ->
  length (row_bytes ri xOff yOff aw ah y)
  = Z.to_nat (4 * width (cellSize_ ri)).
Proof.
  intros Hpre Hy.
  destruct (row_start ri xOff yOff aw ah y Hpre Hy) as (Hk0 & Hk1 & _).
  destruct Hpre as [Hiw Hih Hfits Hdata _ Hx Hyo Haw Hxin Hyin].
  unfold row_bytes. rewrite length_app, length_fill_bytes.
  rewrite length_take_le by (rewrite length_drop; lia). lia.
Qed.

Lemma fragment_row_stored (ri : t) (po : Coordinate) (xOff yOff aw ah : Z)
    (target : Cursor) (y : Z) :
  u32 (row po) = yOff -> u32 (column po) = xOff ->
  row_pre ri xOff yOff aw ah -> 0 <= y < ah ->
  (ptr target + Z.to_nat (4 * width (cellSize_ ri)) <= length (mem target))%nat ->
  fragment_row ri po aw ah target y
  = stored target (row_bytes ri xOff yOff aw ah y).
Proof.
  intros Hrow Hcol Hpre Hy Hroom.
  destruct (row_start ri xOff yOff aw ah y Hpre Hy) as (Hk0 & Hk1 & Hstart).
  pose proof (length_row_bytes ri xOff yOff aw ah y Hpre Hy) as Hlen.
  destruct Hpre as [Hiw Hih Hfits Hdata Hcell Hx Hyo Haw Hxin Hyin].
  unfold fragment_row, row_bytes in *. rewrite Hrow, Hcol, Hstart.
  unfold umul. rewrite (u32_id (aw * 4)) by (machine; lia).
  replace (aw * 4) with (4 * aw) by lia.
  set (src := take (Z.to_nat (4 * aw)) _) in *.
  assert (Hsrc : length src = Z.to_nat (4 * aw)).
  { subst src. rewrite length_take_le; [reflexivity |].
    rewrite length_drop. lia. }
  rewrite length_app, length_fill_bytes in Hlen.
  rewrite copy_stored by lia.
  unfold repeat_from_to.
  rewrite fill_stored by (rewrite length_stored; cbn [ptr stored]; lia).
  apply stored_stored. lia.
Qed.

Lemma fragment_rows_stored (ri : t) (po : Coordinate) (xOff yOff aw ah : Z)
    (ys : list Z) (target : Cursor) :
  u32 (row po) = yOff -> u32 (column po) = xOff ->
  row_pre ri xOff yOff aw ah -> Forall (fun y => 0 <= y < ah) ys ->
  (ptr target + length ys * Z.to_nat (4 * width (cellSize_ ri))
     <= length (mem target))%nat ->
  foldl (fragment_row ri po aw ah) target ys
  = stored target (concat (row_bytes ri xOff yOff aw ah <$> ys)).
Proof.
  intros Hrow Hcol Hpre Hys. revert target.
  induction Hys as [| y ys Hy _ IH]; intros target Hroom.
  - cbn. now rewrite stored_nil.
  - rewrite fmap_cons. cbn [foldl concat length] in *.
    pose proof (length_row_bytes ri xOff yOff aw ah y Hpre Hy) as Hlen.
    rewrite (fragment_row_stored ri po xOff yOff aw ah target y) by (try assumption; lia).
    rewrite IH by (rewrite length_stored; cbn [ptr stored]; lia).
    apply stored_stored. lia.
Qed.


(** The bytes of a fragment: the gap at the bottom, then the rows. *)
Lemma fragment_bytes (ri : t) (pos : Coordinate) :
  fragment_pre ri pos ->
  let cw := width (cellSize_ ri) in
  let ch := height (cellSize_ ri) in
  let xOff := column pos * cw in
  let yOff := row pos * ch in
  let aw := Z.min (Image.width (image_ ri) - xOff) cw in
  let ah := Z.min (Image.height (image_ ri) - yOff) ch in
  fragment ri pos
  = Some (fill_bytes (Z.to_nat ((ch - ah) * cw)) (defaultColor_ ri)
          ++ concat (row_bytes ri xOff yOff aw ah <$> seqZ 0 ah)).
Proof.
  intros [Hcw Hch Hcell Hiw Hih Hfits Hdata Hcol Hrow Hcolin Hrowin].
  intros cw ch xOff yOff aw ah.
  set (iw := Image.width (image_ ri)) in *.
  set (ih := Image.height (image_ ri)) in *.
  fold cw ch in Hcw, Hch, Hcell, Hcolin, Hrowin.
  assert (Hx0 : 0 <= xOff) by (apply Z.mul_nonneg_nonneg; lia).
  assert (Hy0 : 0 <= yOff) by (apply Z.mul_nonneg_nonneg; lia).
  assert (Hcwch : cw <= cw * ch /\ ch <= cw * ch) by nia.
  assert (Hahcw : 0 <= ah * cw <= ch * cw) by nia.
  unfold fragment. fold cw ch iw ih. cbn [row column].
  rewrite (cell_offset (column pos) cw iw) by (fold xOff; lia).
  rewrite (cell_offset (row pos) ch ih) by (fold yOff; lia).
  fold xOff yOff.
  destruct (Z.ltb_spec iw xOff); [lia |].
  destruct (Z.ltb_spec ih yOff); [lia |].
  unfold usub. rewrite (u32_id (iw - xOff)), (u32_id (ih - yOff)) by lia.
  fold aw ah.
  unfold szmul. rewrite (usize_id cw), (usize_id ch) by (machine; lia).
  rewrite (usize_id (cw * ch)) by (machine; lia).
  rewrite usize_id by (machine; lia).
  rewrite resize_nil.
  unfold repeat_from_to, umul.
  rewrite (u32_id (ah * cw)), (u32_id (ch * cw)) by lia.
  replace (ch * cw - ah * cw) with ((ch - ah) * cw) by lia.
  set (gap := Z.to_nat ((ch - ah) * cw)).
  set (c0 := mkCursor (replicate (Z.to_nat (cw * ch * 4)) 0) 0).
  assert (Hc0 : length (mem c0) = Z.to_nat (cw * ch * 4))
    by (cbn; apply length_replicate).
  assert (Hgap : (4 * gap + Z.to_nat ah * Z.to_nat (4 * cw))%nat
                 = Z.to_nat (cw * ch * 4)) by (subst gap; nia).
  rewrite fill_stored by (cbn [ptr c0]; lia).
  rewrite (fragment_rows_stored ri _ xOff yOff aw ah).
  - rewrite stored_stored by (cbn [ptr c0]; rewrite length_fill_bytes; lia).
    unfold stored. cbn [mem ptr c0 take app Nat.add].
    rewrite drop_ge; [now rewrite app_nil_r |].
    rewrite length_replicate, length_app, length_fill_bytes.
    rewrite (length_concat_uniform _ (Z.to_nat (4 * cw))).
    + rewrite length_fmap, length_seqZ. fold gap. lia.
    + apply Forall_fmap, Forall_forall. intros y Hy. cbn.
      apply elem_of_seqZ in Hy. apply length_row_bytes; [| lia].
      constructor; fold cw ch iw ih; lia.
  - cbn [row]. apply cell_offset with ih; fold yOff; lia.
  - cbn [column]. apply cell_offset with iw; fold xOff; lia.
  - constructor; fold cw ch iw ih; lia.
  - apply Forall_forall. intros y Hy. apply elem_of_seqZ in Hy. lia.
  - rewrite length_stored by (cbn [ptr c0]; rewrite length_fill_bytes; lia).
    cbn [stored ptr]. rewrite length_fill_bytes, length_seqZ.
    fold cw gap. cbn [c0 ptr]. lia.
Qed.


Lemma pixel_of_app_l (l1 l2 : list Z) (n : nat) :
  (n + 4 <= length l1)%nat -> pixel_of (l1 ++ l2) n = pixel_of l1 n.
Proof.
  intros Hn. unfold pixel_of. now rewrite !lookup_total_app_l by lia.
Qed.

Lemma pixel_of_app_r (l1 l2 : list Z) (n : nat) :
  pixel_of (l1 ++ l2) (length l1 + n) = pixel_of l2 n.
Proof.
  unfold pixel_of. rewrite !lookup_total_app_r by lia.
  repeat match goal with
         | |- context [(?a + ?b - ?a)%nat] =>
             replace (a + b - a)%nat with b by lia
         | |- context [(?a + ?b + ?c - ?a)%nat] =>
             replace (a + b + c - a)%nat with (b + c)%nat by lia
         end.
  reflexivity.
Qed.

Lemma pixel_of_concat_uniform (rows : list (list Z)) (len y m : nat) :
  Forall (fun r => length r = len) rows ->
  (y < length rows)%nat -> (m + 4 <= len)%nat ->
  pixel_of (concat rows) (y * len + m) = pixel_of (rows !!! y) m.
Proof.
  intros Hall Hy Hm. unfold pixel_of.
  rewrite <- !Nat.add_assoc.
  now rewrite !(concat_uniform_lookup rows len y) by (assumption || lia).
Qed.

(** C2, amended.  [fragment] of a cell inside the image returns a buffer of
    [cw * ch * 4] bytes, [cw] and [ch] the cell width and height.  With
    [aw = min(iw - col * cw, cw)] and [ah = min(ih - row * ch, ch)]:
    - the rows of the gap at the bottom, which the source stores first, are
      the first [ch - ah] rows of the buffer, and every pixel of them is the
      default colour;
    - the [ah] rows after them are copied from the image, the row [y] of
      them from the image row [row * ch + (ah - 1 - y)]: its first [4 * aw]
      bytes are the bytes of that image row from the column [col * cw] on,
      and its other [cw - aw] pixels are the default colour.
    The image holds four bytes for each of its pixels, the cell is not left
    of or above the origin, and the pixel counts of the image and the byte
    count of the cell fit [unsigned]. *)
Theorem fragment_spec (ri : t) (pos : Coordinate) :
  let cw := width (cellSize_ ri) in
  let ch := height (cellSize_ ri) in
  let iw := Image.width (image_ ri) in
  let ih := Image.height (image_ ri) in
  let data := Image.data (image_ ri) in
  0 < cw -> 0 < ch -> 4 * cw * ch <= UINT_MAX ->
  0 <= iw <= UINT_MAX -> 0 <= ih <= UINT_MAX -> iw * ih <= UINT_MAX ->
  Z.of_nat (length data) = 4 * iw * ih ->
  0 <= column pos -> 0 <= row pos ->
  column pos * cw <= iw -> row pos * ch <= ih ->
  let xOff := column pos * cw in
  let yOff := row pos * ch in
  let aw := Z.min (iw - xOff) cw in
  let ah := Z.min (ih - yOff) ch in
  exists out,
    fragment ri pos = Some out /\
    Z.of_nat (length out) = cw * ch * 4 /\
    (forall k, 0 <= k < (ch - ah) * cw ->
       pixel_of out (Z.to_nat (4 * k)) = defaultColor_ ri) /\
    (forall y, 0 <= y < ah ->
       (forall j, 0 <= j < 4 * aw ->
          out !!! Z.to_nat (4 * ((ch - ah + y) * cw) + j)
          = data !!! Z.to_nat (4 * ((yOff + (ah - 1 - y)) * iw + xOff) + j)) /\
       (forall x, aw <= x < cw ->
          pixel_of out (Z.to_nat (4 * ((ch - ah + y) * cw + x)))
          = defaultColor_ ri)).
Proof.
  intros cw ch iw ih data Hcw Hch Hcell Hiw Hih Hfits Hdata Hcol Hrow
    Hcolin Hrowin xOff yOff aw ah.
  assert (Hpre : fragment_pre ri pos) by (constructor; assumption).
  pose proof (fragment_bytes ri pos Hpre) as Hbytes. cbv zeta in Hbytes.
  fold cw ch iw ih xOff yOff aw ah in Hbytes.
  set (gap := Z.to_nat ((ch - ah) * cw)) in *.
  set (G := fill_bytes gap (defaultColor_ ri)) in *.
  set (rows := row_bytes ri xOff yOff aw ah <$> seqZ 0 ah) in *.
  set (len := Z.to_nat (4 * cw)).
  assert (Hx0 : 0 <= xOff) by (apply Z.mul_nonneg_nonneg; lia).
  assert (Hy0 : 0 <= yOff) by (apply Z.mul_nonneg_nonneg; lia).
  assert (Hcwch : cw <= cw * ch) by nia.
  assert (Hrp : row_pre ri xOff yOff aw ah)
    by (constructor; fold cw ch iw ih data; lia).
  assert (Hrows : Forall (fun r => length r = len) rows).
  { apply Forall_fmap, Forall_forall. intros y Hy. cbn.
    apply elem_of_seqZ in Hy. apply length_row_bytes; [assumption | lia]. }
  assert (Hnrows : length rows = Z.to_nat ah)
    by (subst rows; now rewrite length_fmap, length_seqZ).
  assert (HG : length G = (4 * gap)%nat) by apply length_fill_bytes.
  assert (Hrow_y : forall y, 0 <= y < ah ->
            rows !!! Z.to_nat y = row_bytes ri xOff yOff aw ah y).
  { intros y Hy. subst rows.
    rewrite (list_lookup_total_fmap (row_bytes ri xOff yOff aw ah) (seqZ 0 ah))
      by (rewrite length_seqZ; lia).
    rewrite lookup_total_seqZ_lt by lia. f_equal. lia. }
  assert (Hahcw : 0 <= (ch - ah) * cw) by nia.
  exists (G ++ concat rows). split; [exact Hbytes | split; [| split]].
  - rewrite length_app, HG, (length_concat_uniform rows len Hrows), Hnrows.
    subst gap len. nia.
  - intros k Hk.
    rewrite pixel_of_app_l by (rewrite HG; subst gap; lia).
    replace (Z.to_nat (4 * k)) with (4 * Z.to_nat k)%nat by lia.
    apply fill_bytes_pixel. subst gap. lia.
  - intros y Hy.
    assert (Hyrow : 0 <= y * cw) by nia.
    split.
    + intros j Hj.
      replace (Z.to_nat (4 * ((ch - ah + y) * cw) + j))
        with (length G + (Z.to_nat y * len + Z.to_nat j))%nat
        by (rewrite HG; subst gap len; nia).
      rewrite lookup_total_app_r by lia.
      replace (length G + (Z.to_nat y * len + Z.to_nat j) - length G)%nat
        with (Z.to_nat y * len + Z.to_nat j)%nat by lia.
      rewrite (concat_uniform_lookup rows len) by (try assumption; subst len; lia).
      rewrite Hrow_y by assumption. unfold row_bytes.
      destruct (row_start ri xOff yOff aw ah y Hrp Hy) as (Hk0 & Hk1 & _).
      fold iw ih data in Hk0, Hk1 |- *.
      rewrite lookup_total_app_l
        by (rewrite length_take_le; [lia | rewrite length_drop; lia]).
      rewrite lookup_total_take_lt by lia.
      rewrite lookup_total_drop. f_equal. lia.
    + intros x Hx.
      replace (Z.to_nat (4 * ((ch - ah + y) * cw + x)))
        with (length G + (Z.to_nat y * len + Z.to_nat (4 * x)))%nat
        by (rewrite HG; subst gap len; nia).
      rewrite pixel_of_app_r.
      rewrite (pixel_of_concat_uniform rows len)
        by (try assumption; subst len; lia).
      rewrite Hrow_y by assumption. unfold row_bytes.
      destruct (row_start ri xOff yOff aw ah y Hrp Hy) as (Hk0 & Hk1 & _).
      fold iw ih data in Hk0, Hk1 |- *.
      set (src := take (Z.to_nat (4 * aw)) _).
      assert (Hsrc : length src = Z.to_nat (4 * aw)).
      { subst src. rewrite length_take_le; [reflexivity |].
        rewrite length_drop. lia. }
      replace (Z.to_nat (4 * x))
        with (length src + 4 * Z.to_nat (x - aw))%nat by lia.
      rewrite pixel_of_app_r. apply fill_bytes_pixel. fold cw. lia.
Qed.

End FragmentFacts.

(** ** Instances of the theorems *)

Section Witnesses.

Import SixelImageBuilder BuilderInv.

(** The sixel 21 on a new builder of 2 x 6 pixels. *)
Lemma render_spec_witness :
  let b := create (mkSize 2 6) 1 1 (rgba 0 0 0 255)
             (SixelColorPalette.create 16 256) in
  wf b /\ 0 < SixelColorPalette.size (colors_ b) /\
  ((column (sixelCursor_ b) < width (size_ b) ->
    exists buf,
      render 21 b
        = with_cursor (mkCoordinate (row (sixelCursor_ b))
                                    (column (sixelCursor_ b) + 1))
            (with_buffer buf b) /\
      length buf = length (buffer_ b) /\
      forall r c, 0 <= r < height (size_ b) -> 0 <= c < width (size_ b) ->
        at_ (render 21 b) (mkCoordinate r c)
        = if bool_decide (c = column (sixelCursor_ b) /\
                          row (sixelCursor_ b) <= r < row (sixelCursor_ b) + 6 /\
                          Z.land (Z.shiftr 21 (r - row (sixelCursor_ b))) 1 = 1)
          then opaque (currentColor b)
          else at_ b (mkCoordinate r c)) /\
   (width (size_ b) <= column (sixelCursor_ b) -> render 21 b = b)).
Proof.
  intros b.
  assert (Hwf : wf b)
    by (repeat split; vm_compute; first [reflexivity | discriminate]).
  assert (Hpal : 0 < SixelColorPalette.size (colors_ b))
    by (vm_compute; reflexivity).
  split; [exact Hwf | split; [exact Hpal | exact (render_spec b 21 Hwf Hpal)]].
Defined.

(** Three columns rendered, then a raster two pixels wide. *)
Lemma setRaster_keeps_cursor_witness :
  let b := Nat.iter 3 (render 63)
             (create (mkSize 4 6) 1 1 (rgba 0 0 0 255)
                (SixelColorPalette.create 16 256)) in
  let b' := setRaster 1 1 (mkSize 2 6) b in
  is_int (column (sixelCursor_ b)) /\ 0 <= width (maxSize_ b) /\
  width (size_ b') < column (sixelCursor_ b) /\
  foldl (fun b'' sixel => render sixel b'') b' [63; 1] = b'.
Proof.
  intros b b'.
  assert (Hint : is_int (column (sixelCursor_ b)))
    by (split; vm_compute; discriminate).
  assert (Hmax : 0 <= width (maxSize_ b)) by (vm_compute; discriminate).
  assert (Hlt : width (size_ b') < column (sixelCursor_ b))
    by (vm_compute; reflexivity).
  split; [exact Hint | split; [exact Hmax | split; [exact Hlt |]]].
  exact (proj2 (proj2 (setRaster_keeps_cursor 1 1 (mkSize 2 6) b))
           Hint Hmax Hlt [63; 1]).
Defined.

End Witnesses.

Section FragmentWitness.

Import RasterizedImage.

(** The claim C2 has the copied rows in the top rows of the output, the
    row [y] of the output from the image row [yOff + (ah - 1 - y)], and the
    gap in the bottom rows.  For an image of 2 x 2 pixels and a cell of
    2 x 3 pixels, which the claim covers, the source stores the row of the
    gap first, then the image row 1, then the image row 0: the last row of
    the buffer is the image row 0 and not the default colour, and the first
    row is the default colour and not the image row 1. *)
Lemma fragment_layout_counterexample :
  let ri := mk (Image.mk (mkSize 2 2) (seqZ 100 16)) (rgba 1 2 3 4)
               (mkSize 1 1) (mkSize 2 3) in
  let pos := mkCoordinate 0 0 in
  exists out,
    0 < width (cellSize_ ri) /\ 0 < height (cellSize_ ri) /\
    column pos * width (cellSize_ ri) <= Image.width (image_ ri) /\
    row pos * height (cellSize_ ri) <= Image.height (image_ ri) /\
    fragment ri pos = Some out /\
    out = [1; 2; 3; 4; 1; 2; 3; 4;
           108; 109; 110; 111; 112; 113; 114; 115;
           100; 101; 102; 103; 104; 105; 106; 107] /\
    ~ claimed_layout ri pos out.
Proof.
  intros ri pos. eexists.
  split; [vm_compute; reflexivity |].
  split; [vm_compute; reflexivity |].
  split; [vm_compute; discriminate |].
  split; [vm_compute; discriminate |].
  split; [vm_compute; reflexivity |].
  split; [reflexivity |].
  intros [_ Hgap].
  assert (Hlast := Hgap 2 0).
  vm_compute in Hlast.
  assert (Hne : rgba 100 101 102 103 = rgba 1 2 3 4)
    by (apply Hlast; split; first [reflexivity | discriminate]).
  discriminate Hne.
Qed.

(** The cell (1, 1) of 2 x 2 pixels over an image of 3 x 3 pixels. *)
Lemma fragment_spec_witness :
  let ri := mk (Image.mk (mkSize 3 3) (seqZ 100 36)) (rgba 1 2 3 4)
               (mkSize 2 2) (mkSize 2 2) in
  let pos := mkCoordinate 1 1 in
  exists out,
    fragment ri pos = Some out /\
    Z.of_nat (length out) = 2 * 2 * 4 /\
    (forall k, 0 <= k < (2 - 1) * 2 ->
       pixel_of out (Z.to_nat (4 * k)) = rgba 1 2 3 4) /\
    (forall y, 0 <= y < 1 ->
       (forall j, 0 <= j < 4 * 1 ->
          out !!! Z.to_nat (4 * ((2 - 1 + y) * 2) + j)
          = seqZ 100 36 !!! Z.to_nat (4 * ((2 + (1 - 1 - y)) * 3 + 2) + j)) /\
       (forall x, 1 <= x < 2 ->
          pixel_of out (Z.to_nat (4 * ((2 - 1 + y) * 2 + x))) = rgba 1 2 3 4)).
Proof.
  intros ri pos.
  apply (fragment_spec ri pos);
    repeat split; vm_compute; first [reflexivity | discriminate].
Defined.

End FragmentWitness.

(** * Further properties *)

(** ** SixelParser: the calls and the sink *)

Section ParserReplay.

Import SixelParser.

Lemma replay_app {St : Type} `{Events St} (tr1 tr2 : list Event) (s : St) :
  replay (tr1 ++ tr2) s = replay tr2 (replay tr1 s).
Proof. unfold replay. apply foldl_app. Qed.

Lemma replay_trace (evs tr : list Event) : replay evs tr = tr ++ evs.
Proof.
  revert tr. induction evs as [| e evs IH]; intros tr.
  - cbn. now rewrite app_nil_r.
  - change (replay (e :: evs) tr) with (replay evs (apply_event tr e)).
    rewrite IH. destruct e; cbn; now rewrite <- app_assoc.
Qed.

Lemma replay_render_iter {St : Type} `{Events St} (n : nat) (sixel : Z) (s : St) :
  Nat.iter n (ev_render sixel) s = replay (replicate n (Render sixel)) s.
Proof.
  induction n as [| n IH]; [reflexivity |].
  change (Nat.iter (S n) (ev_render sixel) s)
    with (ev_render sixel (Nat.iter n (ev_render sixel) s)).
  rewrite IH.
  replace (replicate (S n) (Render sixel))
    with (replicate n (Render sixel) ++ [Render sixel]).
  - now rewrite replay_app.
  - clear. induction n as [| n IH]; [reflexivity |].
    cbn [replicate app]. now rewrite IH.
Qed.

Lemma leaveState_simulated : simulated (@leaveState).
Proof.
  intros St H p s. unfold leaveState.
  destruct (state_ p); try reflexivity.
  - destruct (length (params_ p) =? 4)%nat; reflexivity.
  - destruct (length (params_ p) =? 1)%nat; [reflexivity |].
    destruct (length (params_ p) =? 5)%nat; [| reflexivity].
    destruct (params_ p !!! 1%nat =? 2); reflexivity.
Qed.

Lemma transitionTo_simulated (st : State) :
  simulated (fun St H => @transitionTo St H st).
Proof.
  intros St H p s. unfold transitionTo.
  rewrite (leaveState_simulated St H p s).
  destruct (leaveState (p, [])) as [p1 e1]. cbn [fst snd].
  unfold enterState. cbn [state_ params_]. destruct st; reflexivity.
Qed.

Lemma fallback_simulated (v : Z) : simulated (fun St H => @fallback St H v).
Proof.
  intros St H p s. unfold fallback. cbn [fst snd].
  destruct (v =? 35); [apply (transitionTo_simulated ColorIntroducer) |].
  destruct (v =? 33); [apply (transitionTo_simulated RepeatIntroducer) |].
  destruct (v =? 34); [apply (transitionTo_simulated RasterSettings) |].
  destruct (v =? 36).
  { rewrite (transitionTo_simulated Ground St H p s).
    destruct (transitionTo Ground (p, [])) as [p1 e1]. cbn [fst snd].
    cbn [ev_rewind Trace_Events]. now rewrite replay_app. }
  destruct (v =? 45).
  { rewrite (transitionTo_simulated Ground St H p s).
    destruct (transitionTo Ground (p, [])) as [p1 e1]. cbn [fst snd].
    cbn [ev_newline Trace_Events]. now rewrite replay_app. }
  destruct (decide (state_ p = Ground)).
  - destruct (isSixel v); reflexivity.
  - rewrite (transitionTo_simulated Ground St H p s).
    destruct (transitionTo Ground (p, [])) as [p1 e1]. cbn [fst snd].
    destruct (isSixel v); cbn [fst snd]; [| reflexivity].
    cbn [ev_render Trace_Events]. now rewrite replay_app.
Qed.

Lemma parse_simulated (v : Z) : simulated (fun St H => @parse St H v).
Proof.
  intros St H p s. unfold parse.
  destruct (state_ p).
  - apply (fallback_simulated v).
  - destruct (isDigit v); [reflexivity |].
    destruct (v =? 59); [reflexivity |]. apply (fallback_simulated v).
  - destruct (isDigit v); [reflexivity |].
    destruct (isSixel v); [| apply (fallback_simulated v)].
    set (n := Z.to_nat (params_ p !!! 0%nat)).
    rewrite (replay_render_iter n _ s), trace_render_iter. cbn [app].
    rewrite (transitionTo_simulated Ground St H p _).
    rewrite (transitionTo_simulated Ground _ Trace_Events p
               (replicate n (Render (toSixel v)))).
    destruct (transitionTo Ground (p, [])) as [p1 e1]. cbn [fst snd].
    now rewrite replay_trace, replay_app.
  - destruct (isDigit v); [| apply (fallback_simulated v)].
    apply (transitionTo_simulated ColorParam).
  - destruct (isDigit v); [reflexivity |].
    destruct (v =? 59); [reflexivity |]. apply (fallback_simulated v).
Qed.

End ParserReplay.

Section ParserSequences.

Import SixelParser.

Context {St : Type} `{Events St}.

Lemma parse_all_app (a b : list Z) (ps : t * St) :
  parse_all (a ++ b) ps = parse_all b (parse_all a ps).
Proof. unfold parse_all. apply foldl_app. Qed.

Lemma transitionTo_parser (st : State) (p : t) (s : St) :
  fst (transitionTo st (p, s))
  = mk st (match st with
           | ColorIntroducer | RepeatIntroducer | RasterSettings => [0]
           | Ground | ColorParam => params_ p
           end).
Proof.
  unfold transitionTo.
  assert (Hleave : params_ (fst (leaveState (p, s))) = params_ p).
  { unfold leaveState. destruct (state_ p); try reflexivity.
    - destruct (length (params_ p) =? 4)%nat; reflexivity.
    - destruct (length (params_ p) =? 1)%nat; [reflexivity |].
      destruct (length (params_ p) =? 5)%nat; [| reflexivity].
      destruct (params_ p !!! 1%nat =? 2); reflexivity. }
  destruct (leaveState (p, s)) as [p1 s1]. cbn [fst] in Hleave.
  unfold enterState. cbn [state_ params_]. rewrite Hleave.
  destruct st; reflexivity.
Qed.

Lemma length_paramShiftAndAddDigit (d : Z) (p : t) :
  state_ (paramShiftAndAddDigit d p) = state_ p /\
  length (params_ (paramShiftAndAddDigit d p)) = length (params_ p).
Proof. unfold paramShiftAndAddDigit. cbn. now rewrite length_insert. Qed.

Lemma nonempty_length {A : Type} (l : list A) : l <> [] <-> length l <> 0%nat.
Proof. destruct l; cbn; split; congruence. Qed.

Lemma fallback_params_inv (v : Z) (p : t) (s : St) :
  params_inv (fst (fallback v (p, s))).
Proof.
  unfold fallback, params_inv. cbn [fst snd].
  destruct (v =? 35); [rewrite transitionTo_parser; now right |].
  destruct (v =? 33); [rewrite transitionTo_parser; now right |].
  destruct (v =? 34); [rewrite transitionTo_parser; now right |].
  destruct (v =? 36).
  { pose proof (transitionTo_parser Ground p s) as Ht.
    destruct (transitionTo Ground (p, s)) as [p1 s1]. cbn [fst] in *.
    rewrite Ht. now left. }
  destruct (v =? 45).
  { pose proof (transitionTo_parser Ground p s) as Ht.
    destruct (transitionTo Ground (p, s)) as [p1 s1]. cbn [fst] in *.
    rewrite Ht. now left. }
  destruct (decide (state_ p = Ground)) as [Hg | Hg].
  - destruct (isSixel v); cbn [fst]; now left.
  - pose proof (transitionTo_parser Ground p s) as Ht.
    destruct (isSixel v); cbn [fst]; rewrite Ht; now left.
Qed.

Lemma parse_params_inv (v : Z) (p : t) (s : St) :
  params_inv p -> params_inv (fst (parse v (p, s))).
Proof.
  intros Hinv. unfold parse.
  assert (Hshift : forall d, state_ p <> Ground ->
            params_inv (paramShiftAndAddDigit d p)).
  { intros d Hst. destruct Hinv as [Hg | Hne]; [contradiction |].
    right. destruct (length_paramShiftAndAddDigit d p) as [_ Hl].
    apply nonempty_length. rewrite Hl. now apply nonempty_length. }
  assert (Hpush : params_inv (push_param p)).
  { right. unfold push_param. cbn. now destruct (params_ p). }
  destruct (state_ p) eqn:Hst.
  - apply fallback_params_inv.
  - destruct (isDigit v); [apply Hshift; congruence |].
    destruct (v =? 59); [exact Hpush | apply fallback_params_inv].
  - destruct (isDigit v); [apply Hshift; congruence |].
    destruct (isSixel v); [| apply fallback_params_inv].
    rewrite transitionTo_parser. now left.
  - destruct (isDigit v); [| apply fallback_params_inv].
    rewrite transitionTo_parser. right.
    specialize (Hshift (toDigit v) ltac:(congruence)).
    destruct Hshift as [Hg | Hne]; [| exact Hne].
    destruct (length_paramShiftAndAddDigit (toDigit v) p) as [Hs _].
    congruence.
  - destruct (isDigit v); [apply Hshift; congruence |].
    destruct (v =? 59); [exact Hpush | apply fallback_params_inv].
Qed.

(** X2.  Whatever the input, a parser that started as constructed is in
    [Ground] or has a parameter list that is not empty: [params_.back()] and
    [params_[0]], which [parse] uses outside [Ground] only, always find an
    element. *)
Theorem params_never_empty (input : list Z) (s : St) :
  let p := fst (parse_all input (create, s)) in
  state_ p <> Ground -> params_ p <> [].
Proof.
  intros p Hst.
  assert (Hgen : forall q t, params_inv q ->
            params_inv (fst (parse_all input (q, t)))).
  { clear. induction input as [| v input IH]; intros q t Hq; [exact Hq |].
    unfold parse_all in *. cbn [foldl].
    pose proof (parse_params_inv v q t Hq) as Hq'.
    destruct (parse v (q, t)) as [q1 t1]. now apply IH. }
  destruct (Hgen create s) as [Hg | Hne]; [now left | | exact Hne].
  contradiction.
Qed.


Lemma isDigit_code (c : Z) : is_digit_code c -> isDigit c = true /\ toDigit c = c - 48.
Proof.
  unfold is_digit_code, isDigit, toDigit. intros Hc. split.
  - apply andb_true_intro. split; apply Z.leb_le; lia.
  - unfold usub. apply u32_id. machine. lia.
Qed.

Lemma decimal_from_congr (ds : list Z) (a b : Z) :
  u32 a = u32 b -> u32 (decimal_from a ds) = u32 (decimal_from b ds).
Proof.
  revert a b. induction ds as [| c ds IH]; intros a b Hab; [exact Hab |].
  unfold decimal_from in *. cbn [foldl]. apply IH.
  unfold u32 in *.
  rewrite <- (Zplus_mod_idemp_l (a * 10)), <- (Zplus_mod_idemp_l (b * 10)).
  rewrite <- (Zmult_mod_idemp_l a), <- (Zmult_mod_idemp_l b), Hab.
  reflexivity.
Qed.

(** The digits of a number, in a state that accumulates in place. *)
Lemma parse_digits (st : State) (ps : list Z) (x : Z) (ds : list Z) (s : St) :
  accumulates st -> is_unsigned x -> Forall is_digit_code ds ->
  parse_all ds (mk st (ps ++ [x]), s)
  = (mk st (ps ++ [u32 (decimal_from x ds)]), s).
Proof.
  intros Hst Hx Hds. revert x Hx.
  induction Hds as [| c ds Hc _ IH]; intros x Hx.
  - cbn. now rewrite u32_id.
  - change (parse_all (c :: ds) (mk st (ps ++ [x]), s))
      with (parse_all ds (parse c (mk st (ps ++ [x]), s))).
    destruct (isDigit_code c Hc) as [Hd Ht].
    assert (Hstep : parse c (mk st (ps ++ [x]), s)
                    = (mk st (ps ++ [uadd (umul x 10) (c - 48)]), s)).
    { unfold parse. cbn [state_].
      assert (Hshift : paramShiftAndAddDigit (toDigit c) (mk st (ps ++ [x]))
                       = mk st (ps ++ [uadd (umul x 10) (c - 48)])).
      { unfold paramShiftAndAddDigit. cbn [state_ params_].
        rewrite length_app. cbn [length].
        replace (pred (length ps + 1)) with (length ps + 0)%nat by lia.
        rewrite lookup_total_app_r, insert_app_r by lia.
        replace (length ps + 0 - length ps)%nat with 0%nat by lia.
        cbn. now rewrite Ht. }
      destruct Hst as [-> | [-> | ->]]; rewrite Hd, Hshift; reflexivity. }
    rewrite Hstep, IH by apply u32_range.
    change (decimal_from x (c :: ds)) with (decimal_from (x * 10 + (c - 48)) ds).
    rewrite (decimal_from_congr ds (uadd (umul x 10) (c - 48))
               (x * 10 + (c - 48))); [reflexivity |].
    unfold uadd, umul. rewrite u32_add_u32_l. unfold u32. apply Zmod_mod.
Qed.


Lemma decimal_from_split (ds : list Z) (a : Z) :
  decimal_from a ds = a * 10 ^ Z.of_nat (length ds) + decimal ds.
Proof.
  unfold decimal. revert a. induction ds as [| c ds IH]; intros a.
  - cbn. lia.
  - change (decimal_from a (c :: ds)) with (decimal_from (a * 10 + (c - 48)) ds).
    change (decimal_from 0 (c :: ds)) with (decimal_from (0 * 10 + (c - 48)) ds).
    rewrite (IH (a * 10 + (c - 48))), (IH (0 * 10 + (c - 48))).
    cbn [length]. rewrite Nat2Z.inj_succ, Z.pow_succ_r by lia. ring.
Qed.

(** X3.  In [RepeatIntroducer], [ColorParam] and [RasterSettings] a run of
    decimal digits is accumulated in the last parameter, in [unsigned]
    arithmetic: from the value [x] the parameter becomes
    [(x * 10^k + n) mod 2^32], [n] the number the [k] digits write; no call
    is made on the sink and the state stays. *)
Theorem digits_accumulate (st : State) (ps : list Z) (x : Z) (ds : list Z) (s : St) :
  accumulates st -> is_unsigned x -> Forall is_digit_code ds ->
  parse_all ds (mk st (ps ++ [x]), s)
  = (mk st (ps ++ [(x * 10 ^ Z.of_nat (length ds) + decimal ds) mod 2 ^ 32]), s).
Proof.
  intros Hst Hx Hds. rewrite parse_digits by assumption.
  now rewrite decimal_from_split.
Qed.

Lemma parse_cons (v : Z) (input : list Z) (ps : t * St) :
  parse_all (v :: input) ps = parse_all input (parse v ps).
Proof. reflexivity. Qed.

(** A separator and the digits of the next parameter. *)
Lemma parse_next_param (st : State) (ps ds : list Z) (s : St) :
  st = ColorParam \/ st = RasterSettings -> Forall is_digit_code ds ->
  parse_all (59 :: ds) (mk st ps, s) = (mk st (ps ++ [u32 (decimal ds)]), s).
Proof.
  intros Hst Hds. rewrite parse_cons.
  assert (Hsep : parse 59 (mk st ps, s) = (mk st (ps ++ [0]), s))
    by (destruct Hst as [-> | ->]; reflexivity).
  rewrite Hsep. apply parse_digits; [| machine; lia | assumption].
  destruct Hst as [-> | ->]; [right; now left | right; now right].
Qed.

Lemma parse_next_param_app (st : State) (ps ds rest : list Z) (s : St) :
  st = ColorParam \/ st = RasterSettings -> Forall is_digit_code ds ->
  parse_all (59 :: ds ++ rest) (mk st ps, s)
  = parse_all rest (mk st (ps ++ [u32 (decimal ds)]), s).
Proof.
  intros Hst Hds. change (59 :: ds ++ rest) with ((59 :: ds) ++ rest).
  now rewrite parse_all_app, parse_next_param.
Qed.

(** X4.  From [Ground], the raster attributes: a double quote and four
    numbers in decimal digits, separated by semicolons, then the end of the
    data, make one call of [setRaster] with the four numbers, each reduced
    modulo 2^32, and no other call on the sink; the finalizer, when there is
    one, runs after it. *)
Theorem raster_sequence (fin : option (St -> St))
    (ps0 ds1 ds2 ds3 ds4 : list Z) (s : St) :
  Forall is_digit_code ds1 -> Forall is_digit_code ds2 ->
  Forall is_digit_code ds3 -> Forall is_digit_code ds4 ->
  done fin (parse_all (34 :: ds1 ++ 59 :: ds2 ++ 59 :: ds3 ++ 59 :: ds4)
              (mk Ground ps0, s))
  = (mk Ground [u32 (decimal ds1); u32 (decimal ds2);
                u32 (decimal ds3); u32 (decimal ds4)],
     invoke_finalizer fin
       (ev_setRaster (u32 (decimal ds1)) (u32 (decimal ds2))
          (mkSize (u32 (decimal ds3)) (u32 (decimal ds4))) s)).
Proof.
  intros H1 H2 H3 H4. rewrite parse_cons.
  change (parse 34 (mk Ground ps0, s)) with (mk RasterSettings ([] ++ [0]), s).
  rewrite parse_all_app.
  rewrite parse_digits; [| right; now right | machine; lia | assumption].
  rewrite !parse_next_param_app by (assumption || now right).
  rewrite parse_next_param by (assumption || now right).
  reflexivity.
Qed.

(** The colour index after the number sign. *)
Lemma parse_color_index (ps0 : list Z) (c : Z) (ds : list Z) (s : St) :
  is_digit_code c -> Forall is_digit_code ds ->
  parse_all (35 :: c :: ds) (mk Ground ps0, s)
  = (mk ColorParam [u32 (decimal (c :: ds))], s).
Proof.
  intros Hc Hds. rewrite !parse_cons.
  change (parse 35 (mk Ground ps0, s)) with (mk ColorIntroducer [0], s).
  destruct (isDigit_code c Hc) as [Hd Ht].
  assert (Hfirst : parse c (mk ColorIntroducer [0], s)
                   = (mk ColorParam ([] ++ [uadd (umul 0 10) (c - 48)]), s)).
  { unfold parse. cbn [state_]. rewrite Hd, Ht. reflexivity. }
  rewrite Hfirst, parse_digits; [| right; now left | apply u32_range | assumption].
  cbn [app]. do 3 f_equal.
  change (decimal (c :: ds)) with (decimal_from (0 * 10 + (c - 48)) ds).
  apply decimal_from_congr. unfold uadd, umul.
  rewrite u32_add_u32_l. unfold u32. apply Zmod_mod.
Qed.

(** X5.  From [Ground], a colour selection: a number sign and a number of at
    least one decimal digit, then the end of the data, make one call of
    [useColor] with the number modulo 2^32 and no other call on the sink;
    the finalizer, when there is one, runs after it. *)
Theorem color_selection_sequence (fin : option (St -> St))
    (ps0 : list Z) (c : Z) (ds : list Z) (s : St) :
  is_digit_code c -> Forall is_digit_code ds ->
  done fin (parse_all (35 :: c :: ds) (mk Ground ps0, s))
  = (mk Ground [u32 (decimal (c :: ds))],
     invoke_finalizer fin (ev_useColor (u32 (decimal (c :: ds))) s)).
Proof.
  intros Hc Hds. now rewrite parse_color_index.
Qed.

(** X6.  From [Ground], a colour definition: a number sign, the index and
    four more numbers separated by semicolons, then the end of the data.
    When the second number is 2 modulo 2^32, the parser makes one call of
    [setColor] with the index and the three last numbers converted by
    [convertValue]; when it is not, the parser makes no call at all on the
    sink.  The finalizer, when there is one, runs after that. *)
Theorem color_definition_sequence (fin : option (St -> St))
    (ps0 : list Z) (c : Z) (ds dsSpace dsA dsB dsC : list Z) (s : St) :
  is_digit_code c -> Forall is_digit_code ds -> Forall is_digit_code dsSpace ->
  Forall is_digit_code dsA -> Forall is_digit_code dsB ->
  Forall is_digit_code dsC ->
  snd (done fin
         (parse_all
            ((35 :: c :: ds) ++ 59 :: dsSpace ++ 59 :: dsA ++ 59 :: dsB
               ++ 59 :: dsC)
            (mk Ground ps0, s)))
  = invoke_finalizer fin
      (if u32 (decimal dsSpace) =? 2
       then ev_setColor (u32 (decimal (c :: ds)))
              (rgb (convertValue (u32 (decimal dsA)))
                   (convertValue (u32 (decimal dsB)))
                   (convertValue (u32 (decimal dsC)))) s
       else s).
Proof.
  intros Hc Hds Hsp Ha Hb HcC.
  rewrite parse_all_app, parse_color_index by assumption.
  rewrite !parse_next_param_app by (assumption || now left).
  rewrite parse_next_param by (assumption || now left).
  unfold done, transitionTo, leaveState. cbn [state_ params_ length Nat.eqb app].
  cbn [lookup_total list_lookup_total].
  destruct (u32 (decimal dsSpace) =? 2); reflexivity.
Qed.

(** X7.  In [Ground] a sixel byte makes one call of [render] with the byte
    minus 63, the dollar sign one call of [rewind], the minus sign one call
    of [newline]; a code point that is none of these and none of the number
    sign, the exclamation mark and the double quote changes nothing.  The
    parser stays as it is in all four cases. *)
Theorem ground_input (v : Z) (ps : list Z) (s : St) :
  (63 <= v <= 126 ->
   parse v (mk Ground ps, s) = (mk Ground ps, ev_render (v - 63) s)) /\
  (v = 36 -> parse v (mk Ground ps, s) = (mk Ground ps, ev_rewind s)) /\
  (v = 45 -> parse v (mk Ground ps, s) = (mk Ground ps, ev_newline s)) /\
  (~ 63 <= v <= 126 -> v <> 35 -> v <> 33 -> v <> 34 -> v <> 36 -> v <> 45 ->
   parse v (mk Ground ps, s) = (mk Ground ps, s)).
Proof.
  split; [| split; [| split]].
  - intros Hv. unfold parse, fallback. cbn [state_ fst snd].
    repeat match goal with
           | |- context [v =? ?c] => destruct (Z.eqb_spec v c); [lia |]
           end.
    destruct (decide (Ground = Ground)); [| contradiction].
    assert (isSixel v = true) as ->
      by (unfold isSixel; apply andb_true_intro; split; apply Z.leb_le; lia).
    cbn [fst snd]. rewrite toSixel_value by lia. reflexivity.
  - intros ->. reflexivity.
  - intros ->. reflexivity.
  - intros Hv H35 H33 H34 H36 H45. unfold parse, fallback. cbn [state_ fst snd].
    repeat match goal with
           | |- context [v =? ?c] =>
               destruct (Z.eqb_spec v c); [contradiction |]
           end.
    destruct (decide (Ground = Ground)); [| contradiction].
    assert (isSixel v = false) as ->; [| reflexivity].
    unfold isSixel. destruct (Z.leb_spec 63 v); [| reflexivity].
    destruct (Z.leb_spec v 126); [lia | reflexivity].
Qed.

(** X8.  [done] always ends in [Ground] with the parameter list as it was.
    A second [done] makes no call on the sink, what was pending having been
    flushed by the first, and leaves the parser as it is; it invokes the
    finalizer once more, when there is one.  Without a finalizer the second
    [done] changes nothing. *)
Theorem done_flushes_once (fin : option (St -> St)) (p : t) (s : St) :
  fst (done fin (p, s)) = mk Ground (params_ p) /\
  done fin (done fin (p, s))
  = (mk Ground (params_ p), invoke_finalizer fin (snd (done fin (p, s)))) /\
  (fin = None -> done fin (done fin (p, s)) = done fin (p, s)).
Proof.
  unfold done. pose proof (transitionTo_parser Ground p s) as Ht.
  destruct (transitionTo Ground (p, s)) as [p1 s1]. cbn [fst] in Ht.
  subst p1. cbn [fst snd].
  split; [reflexivity | split; [reflexivity |]].
  intros ->. reflexivity.
Qed.

End ParserSequences.

Section ParserRanges.

Import SixelParser.

Lemma convertValue_range (v : Z) : 0 <= convertValue v <= 255.
Proof.
  unfold convertValue. machine.
  match goal with |- 0 <= ?x mod 256 <= 255 =>
    pose proof (Z.mod_pos_bound x 256) end. lia.
Qed.

Lemma isSixel_range (v : Z) : isSixel v = true -> 0 <= toSixel v <= 63.
Proof.
  unfold isSixel. intros Hv. apply andb_prop in Hv as [H1 H2].
  apply Z.leb_le in H1, H2. rewrite toSixel_value by lia. lia.
Qed.

Lemma params_ok_lookup (p : t) (i : nat) :
  params_ok p -> (i < length (params_ p))%nat -> is_unsigned (params_ p !!! i).
Proof. intros Hok Hi. now apply Forall_lookup_total_1. Qed.

Lemma leaveState_ok (p : t) (tr : list Event) :
  params_ok p -> Forall event_ok tr ->
  params_ (fst (leaveState (p, tr))) = params_ p /\
  Forall event_ok (snd (leaveState (p, tr))).
Proof.
  intros Hok Htr. unfold leaveState.
  destruct (state_ p); try (split; [reflexivity | assumption]).
  - destruct (Nat.eqb_spec (length (params_ p)) 4) as [Hlen |];
      [| split; [reflexivity | assumption]].
    split; [reflexivity |]. cbn [snd ev_setRaster Trace_Events].
    apply Forall_app_2; [assumption |]. apply Forall_singleton.
    cbn. repeat split; apply params_ok_lookup; (assumption || lia).
  - destruct (Nat.eqb_spec (length (params_ p)) 1) as [Hlen |].
    { split; [reflexivity |]. cbn [snd ev_useColor Trace_Events].
      apply Forall_app_2; [assumption |]. apply Forall_singleton.
      cbn. apply params_ok_lookup; (assumption || lia). }
    destruct (Nat.eqb_spec (length (params_ p)) 5) as [Hlen |];
      [| split; [reflexivity | assumption]].
    destruct (params_ p !!! 1%nat =? 2); [| split; [reflexivity | assumption]].
    split; [reflexivity |]. cbn [snd ev_setColor Trace_Events].
    apply Forall_app_2; [assumption |]. apply Forall_singleton.
    cbn. split; [apply params_ok_lookup; (assumption || lia) |].
    repeat split; apply convertValue_range.
Qed.

Lemma transitionTo_ok (st : State) (p : t) (tr : list Event) :
  params_ok p -> Forall event_ok tr ->
  params_ok (fst (transitionTo st (p, tr))) /\
  Forall event_ok (snd (transitionTo st (p, tr))).
Proof.
  intros Hok Htr. unfold transitionTo.
  destruct (leaveState_ok p tr Hok Htr) as [Hp Hev].
  destruct (leaveState (p, tr)) as [p1 tr1]. cbn [fst snd] in *.
  unfold enterState, params_ok in *. cbn [state_ params_].
  destruct st; cbn [fst snd params_]; split;
    first [assumption | now rewrite Hp
          | apply Forall_singleton; machine; lia].
Qed.

Lemma paramShiftAndAddDigit_ok (d : Z) (p : t) :
  params_ok p -> params_ok (paramShiftAndAddDigit d p).
Proof.
  unfold params_ok, paramShiftAndAddDigit. cbn [params_]. intros Hok.
  apply Forall_insert; [assumption | apply u32_range].
Qed.

Lemma fallback_ok (v : Z) (p : t) (tr : list Event) :
  params_ok p -> Forall event_ok tr ->
  params_ok (fst (fallback v (p, tr))) /\
  Forall event_ok (snd (fallback v (p, tr))).
Proof.
  intros Hok Htr. unfold fallback. cbn [fst snd].
  destruct (v =? 35); [now apply transitionTo_ok |].
  destruct (v =? 33); [now apply transitionTo_ok |].
  destruct (v =? 34); [now apply transitionTo_ok |].
  pose proof (transitionTo_ok Ground p tr Hok Htr) as [HpG HtG].
  destruct (v =? 36).
  { destruct (transitionTo Ground (p, tr)) as [p1 tr1]. cbn [fst snd] in *.
    split; [assumption |]. apply Forall_app_2; [assumption |].
    now apply Forall_singleton. }
  destruct (v =? 45).
  { destruct (transitionTo Ground (p, tr)) as [p1 tr1]. cbn [fst snd] in *.
    split; [assumption |]. apply Forall_app_2; [assumption |].
    now apply Forall_singleton. }
  destruct (decide (state_ p = Ground)).
  - destruct (isSixel v) eqn:Hs; cbn [fst snd]; split; try assumption.
    apply Forall_app_2; [assumption |]. apply Forall_singleton.
    cbn. now apply isSixel_range.
  - destruct (isSixel v) eqn:Hs; cbn [fst snd]; split; try assumption.
    apply Forall_app_2; [assumption |]. apply Forall_singleton.
    cbn. now apply isSixel_range.
Qed.

Lemma parse_ok (v : Z) (p : t) (tr : list Event) :
  params_ok p -> Forall event_ok tr ->
  params_ok (fst (parse v (p, tr))) /\
  Forall event_ok (snd (parse v (p, tr))).
Proof.
  intros Hok Htr. unfold parse.
  pose proof (paramShiftAndAddDigit_ok (toDigit v) p Hok) as Hshift.
  assert (Hpush : params_ok (push_param p)).
  { unfold params_ok, push_param. cbn [params_].
    apply Forall_app_2; [assumption |]. apply Forall_singleton. machine. lia. }
  destruct (state_ p).
  - now apply fallback_ok.
  - destruct (isDigit v); [now split |].
    destruct (v =? 59); [now split | now apply fallback_ok].
  - destruct (isDigit v); [now split |].
    destruct (isSixel v) eqn:Hs; [| now apply fallback_ok].
    apply transitionTo_ok; [assumption |].
    rewrite trace_render_iter. apply Forall_app_2; [assumption |].
    apply Forall_replicate. cbn. now apply isSixel_range.
  - destruct (isDigit v); [| now apply fallback_ok].
    now apply transitionTo_ok.
  - destruct (isDigit v); [now split |].
    destruct (v =? 59); [now split | now apply fallback_ok].
Qed.

(** X9.  Whatever the code points of the input, every call the parser makes
    carries values of its parameter types: [render] a sixel from 0 to 63,
    [setRaster] and [useColor] numbers below 2^32, [setColor] such an index
    and colour components from 0 to 255. *)
Theorem events_in_range (input : list Z) :
  Forall event_ok (snd (parse_all input (create, @nil Event))).
Proof.
  assert (Hgen : forall p tr, params_ok p -> Forall event_ok tr ->
            Forall event_ok (snd (parse_all input (p, tr)))).
  { induction input as [| v input IH]; intros p tr Hok Htr; [exact Htr |].
    change (parse_all (v :: input) (p, tr))
      with (parse_all input (parse v (p, tr))).
    destruct (parse_ok v p tr Hok Htr) as [Hp Hev].
    destruct (parse v (p, tr)) as [p1 tr1]. now apply IH. }
  apply Hgen; constructor.
Qed.

End ParserRanges.

Section ParserWitnesses.

Import SixelParser.

(** After a number sign and a digit the parser is in [ColorParam]. *)
Lemma params_never_empty_witness :
  state_ (fst (parse_all [35; 50] (create, @nil Event))) <> Ground /\
  params_ (fst (parse_all [35; 50] (create, @nil Event))) <> [].
Proof.
  assert (Hst : state_ (fst (parse_all [35; 50] (create, @nil Event)))
                <> Ground) by (vm_compute; discriminate).
  split; [exact Hst |].
  exact (params_never_empty (St := list Event) [35; 50] [] Hst).
Defined.

(** The digits 2 and 0 after the value 1, in [RasterSettings]. *)
Lemma digits_accumulate_witness :
  accumulates RasterSettings /\ is_unsigned 1 /\
  Forall is_digit_code [50; 48] /\
  parse_all [50; 48] (mk RasterSettings ([7] ++ [1]), @nil Event)
  = (mk RasterSettings
       ([7] ++ [(1 * 10 ^ Z.of_nat (length [50; 48]) + decimal [50; 48])
                mod 2 ^ 32]), []).
Proof.
  assert (Hst : accumulates RasterSettings) by (right; right; reflexivity).
  assert (Hx : is_unsigned 1) by (vm_compute; split; discriminate).
  assert (Hds : Forall is_digit_code [50; 48])
    by (repeat constructor; vm_compute; discriminate).
  split; [exact Hst | split; [exact Hx | split; [exact Hds |]]].
  exact (digits_accumulate (St := list Event) RasterSettings [7] 1 [50; 48] []
           Hst Hx Hds).
Defined.

(** The raster attributes 1;1;20;12. *)
Lemma raster_sequence_witness :
  Forall is_digit_code [49] /\ Forall is_digit_code [50; 48] /\
  Forall is_digit_code [49; 50] /\
  snd (done None
         (parse_all (34 :: [49] ++ 59 :: [49] ++ 59 :: [50; 48]
                       ++ 59 :: [49; 50])
            (mk Ground [], @nil Event)))
  = [SetRaster 1 1 (mkSize 20 12)].
Proof.
  assert (H1 : Forall is_digit_code [49])
    by (repeat constructor; vm_compute; discriminate).
  assert (H3 : Forall is_digit_code [50; 48])
    by (repeat constructor; vm_compute; discriminate).
  assert (H4 : Forall is_digit_code [49; 50])
    by (repeat constructor; vm_compute; discriminate).
  split; [exact H1 | split; [exact H3 | split; [exact H4 |]]].
  rewrite (raster_sequence (St := list Event) None [] [49] [49] [50; 48] [49; 50]
             [] H1 H1 H3 H4).
  reflexivity.
Defined.

(** The selection of colour 12. *)
Lemma color_selection_sequence_witness :
  is_digit_code 49 /\ Forall is_digit_code [50] /\
  snd (done None (parse_all (35 :: 49 :: [50]) (mk Ground [], @nil Event)))
  = [UseColor 12].
Proof.
  assert (Hc : is_digit_code 49) by (vm_compute; split; discriminate).
  assert (Hds : Forall is_digit_code [50])
    by (repeat constructor; vm_compute; discriminate).
  split; [exact Hc | split; [exact Hds |]].
  rewrite (color_selection_sequence (St := list Event) None [] 49 [50] []
             Hc Hds).
  reflexivity.
Defined.

(** The definition of colour 1 as RGB 100;0;50. *)
Lemma color_definition_sequence_witness :
  is_digit_code 49 /\ Forall is_digit_code [50] /\
  Forall is_digit_code [49; 48; 48] /\ Forall is_digit_code [48] /\
  Forall is_digit_code [53; 48] /\
  snd (done None
         (parse_all
            ((35 :: 49 :: []) ++ 59 :: [50] ++ 59 :: [49; 48; 48]
               ++ 59 :: [48] ++ 59 :: [53; 48])
            (mk Ground [], @nil Event)))
  = [SetColor 1 (rgb 255 0 127)].
Proof.
  assert (Hc : is_digit_code 49) by (vm_compute; split; discriminate).
  assert (H0 : Forall is_digit_code []) by constructor.
  assert (Hsp : Forall is_digit_code [50])
    by (repeat constructor; vm_compute; discriminate).
  assert (Ha : Forall is_digit_code [49; 48; 48])
    by (repeat constructor; vm_compute; discriminate).
  assert (Hb : Forall is_digit_code [48])
    by (repeat constructor; vm_compute; discriminate).
  assert (HcC : Forall is_digit_code [53; 48])
    by (repeat constructor; vm_compute; discriminate).
  split; [exact Hc | split; [exact Hsp | split; [exact Ha |
    split; [exact Hb | split; [exact HcC |]]]]].
  rewrite (color_definition_sequence (St := list Event) None [] 49 [] [50]
             [49; 48; 48] [48] [53; 48] [] Hc H0 Hsp Ha Hb HcC).
  vm_compute. reflexivity.
Defined.

(** The sixel byte 126 in [Ground]. *)
Lemma ground_input_witness :
  63 <= 126 <= 126 /\
  parse 126 (mk Ground [], @nil Event) = (mk Ground [], [Render 63]).
Proof.
  assert (Hv : 63 <= 126 <= 126) by lia.
  split; [exact Hv |].
  exact (proj1 (ground_input (St := list Event) 126 [] []) Hv).
Defined.

End ParserWitnesses.

(** ** SixelColorPalette: contents *)

Section PaletteContents.

Import SixelColorPalette.

(** The loop of [reset] after [k] rounds. *)
Lemma reset_loop_lookup (l : list RGBColor) (k i : nat) :
  (k <= length l)%nat ->
  foldl reset_step l (seq 0 k) !! i
  = if decide (i < k)%nat then Some (defaultColors !!! i) else l !! i.
Proof.
  induction k as [| k IH]; intros Hk.
  - simpl. destruct (decide (i < 0)%nat); [lia | reflexivity].
  - rewrite seq_S, foldl_app. cbn [foldl Nat.add]. unfold reset_step at 1.
    destruct (decide (i = k)) as [-> | Hne].
    + rewrite list_lookup_insert_eq by (rewrite length_reset_loop; lia).
      destruct (decide (k < S k)%nat); [reflexivity | lia].
    + rewrite list_lookup_insert_ne by congruence.
      rewrite IH by lia.
      destruct (decide (i < k)%nat), (decide (i < S k)%nat);
        try lia; reflexivity.
Qed.

Lemma palette_reset (p : t) :
  palette_ (reset p)
  = take (length (palette_ p)) defaultColors
    ++ drop (length defaultColors) (palette_ p).
Proof.
  unfold reset, size. cbn [palette_].
  set (l := palette_ p).
  change (length defaultColors) with 16%nat.
  replace (Z.to_nat (Z.min (Z.of_nat (length l)) (Z.of_nat 16)))
    with (Nat.min (length l) 16) by lia.
  apply list_eq. intros i.
  rewrite reset_loop_lookup by lia.
  assert (Hlen : length (take (length l) defaultColors) = Nat.min (length l) 16).
  { rewrite length_take. change (length defaultColors) with 16%nat. lia. }
  destruct (decide (i < Nat.min (length l) 16)%nat) as [Hi | Hi].
  - rewrite lookup_app_l by lia.
    rewrite lookup_take_lt by lia.
    symmetry. apply list_lookup_lookup_total_lt.
    change (length defaultColors) with 16%nat. lia.
  - rewrite lookup_app_r by lia. rewrite Hlen, lookup_drop.
    destruct (decide (16 <= length l)%nat) as [Hl | Hl].
    + f_equal. lia.
    + rewrite !lookup_ge_None_2 by lia. reflexivity.
Qed.

(** X10.  [reset] overwrites the first entries of the palette, at most 16
    and at most as many as the palette holds, with the VT 340 default
    colours, and keeps the entries from the seventeenth on, the length and
    the cap; a second [reset] changes nothing more. *)
Theorem reset_restores_defaults (p : t) :
  palette_ (reset p)
  = take (length (palette_ p)) defaultColors
    ++ drop (length defaultColors) (palette_ p) /\
  size (reset p) = size p /\
  maxSize_ (reset p) = maxSize_ p /\
  reset (reset p) = reset p.
Proof.
  split; [apply palette_reset |].
  split; [unfold size; now rewrite length_reset |].
  split; [reflexivity |].
  assert (Heq : palette_ (reset (reset p)) = palette_ (reset p)).
  { rewrite (palette_reset (reset p)), length_reset, palette_reset.
    f_equal. set (l := palette_ p).
    change (length defaultColors) with 16%nat.
    rewrite drop_app, length_take.
    change (length defaultColors) with 16%nat.
    rewrite (drop_ge (take _ _))
      by (rewrite length_take; change (length defaultColors) with 16%nat; lia).
    cbn [app]. rewrite drop_drop.
    destruct (decide (16 <= length l)%nat) as [Hl | Hl].
    - f_equal. lia.
    - rewrite !drop_ge by lia. reflexivity. }
  destruct (reset (reset p)) as [l m] eqn:E.
  assert (Hm : m = maxSize_ (reset p))
    by (change m with (maxSize_ (mk l m)); now rewrite <- E).
  cbn [palette_] in Heq. subst l m. now destruct (reset p).
Qed.

(** X11.  A palette constructed with [size0] entries holds the first
    [size0] default colours, and black in every entry from the seventeenth
    on; its cap is the one given, whatever [size0] is. *)
Theorem create_contents (size0 maxSize : Z) :
  palette_ (create size0 maxSize)
  = take (Z.to_nat size0) defaultColors
    ++ replicate (Z.to_nat size0 - length defaultColors) (rgb 0 0 0) /\
  maxSize_ (create size0 maxSize) = maxSize.
Proof.
  split; [| apply maxSize_create].
  unfold create. rewrite palette_reset.
  destruct (Z.ltb_spec 0 size0) as [Hpos | Hneg]; cbn [palette_].
  - unfold resize_palette. rewrite resize_nil, length_replicate.
    now rewrite drop_replicate.
  - replace (Z.to_nat size0) with 0%nat by lia. reflexivity.
Qed.

(** The palette after a [setColor] below the cap. *)
Lemma palette_setColor (i : Z) (c : RGBColor) (p : t) :
  0 <= i < maxSize_ p -> i < UINT_MAX ->
  palette_ (setColor i c p)
  = <[Z.to_nat i := c]>
      (if size p <=? i
       then resize (Z.to_nat (i + 1)) (rgb 0 0 0) (palette_ p)
       else palette_ p).
Proof.
  intros Hi Hu. unfold setColor.
  destruct (Z.ltb_spec i (maxSize_ p)); [| lia].
  assert (Hadd : uadd i 1 = i + 1) by (machine; rewrite Z.mod_small; lia).
  destruct (Z.leb_spec (size p) i) as [Hle | Hlt].
  - unfold setSize, resize_palette. cbn [palette_ maxSize_].
    rewrite Hadd.
    replace (Z.max 0 (Z.min (i + 1) (maxSize_ p))) with (i + 1) by lia.
    rewrite length_resize.
    destruct (Z.leb_spec 0 i); [| lia].
    destruct (Z.ltb_spec i (Z.of_nat (Z.to_nat (i + 1)))); [| lia].
    reflexivity.
  - unfold size in Hlt.
    destruct (Z.leb_spec 0 i); [| lia].
    destruct (Z.ltb_spec i (Z.of_nat (length (palette_ p)))); [| lia].
    reflexivity.
Qed.

(** The entry stored and the length after a [setColor] below the cap. *)
Lemma setColor_stores (i : Z) (c : RGBColor) (p : t) :
  0 <= i < maxSize_ p -> i < UINT_MAX ->
  at_ (setColor i c p) i = c /\
  size (setColor i c p) = Z.max (size p) (i + 1).
Proof.
  intros Hi Hu.
  pose proof (palette_setColor i c p Hi Hu) as Hpal.
  assert (Hsize : size (setColor i c p) = Z.max (size p) (i + 1)).
  { unfold size. rewrite Hpal, length_insert. fold (size p).
    destruct (Z.leb_spec (size p) i).
    - rewrite length_resize. lia.
    - unfold size in *. lia. }
  split; [| exact Hsize].
  unfold at_. fold (size (setColor i c p)). rewrite Hsize.
  rewrite Z.mod_small by lia. rewrite Hpal.
  apply list_lookup_total_insert_eq.
  destruct (Z.leb_spec (size p) i).
  - rewrite length_resize. lia.
  - unfold size in *. lia.
Qed.

(** X12.  [setColor] at an index below the cap (and below [UINT_MAX], so
    that [_index + 1] does not wrap) stores the colour where [at] of the
    same index reads it; the palette grows to hold the index when it did
    not; every other entry reads as before, a new one as black. *)
Theorem setColor_at (i : Z) (c : RGBColor) (p : t) :
  0 <= i < maxSize_ p -> i < UINT_MAX ->
  at_ (setColor i c p) i = c /\
  size (setColor i c p) = Z.max (size p) (i + 1) /\
  (forall j, 0 <= j < size (setColor i c p) -> j <> i ->
     at_ (setColor i c p) j = if j <? size p then at_ p j else rgb 0 0 0).
Proof.
  intros Hi Hu.
  pose proof (palette_setColor i c p Hi Hu) as Hpal.
  destruct (setColor_stores i c p Hi Hu) as [Hat Hsize].
  split; [exact Hat | split; [exact Hsize |]].
  intros j Hj Hne. rewrite Hsize in Hj.
  unfold at_ at 1. fold (size (setColor i c p)). rewrite Hsize.
  rewrite Z.mod_small by lia. rewrite Hpal.
  rewrite list_lookup_total_insert_ne by lia.
  destruct (Z.ltb_spec j (size p)) as [Hjl | Hjl].
  - unfold at_. fold (size p). rewrite Z.mod_small by lia.
    destruct (Z.leb_spec (size p) i); [| reflexivity].
    unfold size in *. apply lookup_total_resize; lia.
  - destruct (Z.leb_spec (size p) i); [| lia].
    unfold size in *. apply lookup_total_resize_new; lia.
Qed.

End PaletteContents.

Section PaletteWitnesses.

Import SixelColorPalette.

(** The colour 20 of a palette of 16 colours with room for 256. *)
Lemma setColor_at_witness :
  0 <= 20 < maxSize_ (create 16 256) /\ 20 < UINT_MAX /\
  at_ (setColor 20 (rgb 1 2 3) (create 16 256)) 20 = rgb 1 2 3 /\
  size (setColor 20 (rgb 1 2 3) (create 16 256)) = 21.
Proof.
  assert (Hi : 0 <= 20 < maxSize_ (create 16 256))
    by (vm_compute; split; [discriminate | reflexivity]).
  assert (Hu : 20 < UINT_MAX) by (vm_compute; reflexivity).
  split; [exact Hi | split; [exact Hu |]].
  destruct (setColor_at 20 (rgb 1 2 3) (create 16 256) Hi Hu)
    as (Hat & Hsize & _).
  split; [exact Hat | exact Hsize].
Defined.

End PaletteWitnesses.

(** ** SixelImageBuilder: construction, [clear], [at], [write] *)

Section BuilderContents.

Import SixelImageBuilder BuilderInv.

(** X13.  A builder constructed for a largest raster whose byte count fits
    [unsigned] starts with that raster, four bytes for each of its pixels,
    every pixel the background colour with its alpha, the cursor at the
    origin, the colour 0 selected, and the palette and the aspect ratio it
    was given. *)
Theorem constructor_blank (maxSize : Size) (av ah : Z) (bg : RGBAColor)
    (pal : SixelColorPalette.t) :
  fits maxSize ->
  let b := create maxSize av ah bg pal in
  wf b /\ maxSize_ b = maxSize /\ size_ b = maxSize /\
  colors_ b = pal /\ sixelCursor_ b = mkCoordinate 0 0 /\
  currentColor_ b = 0 /\ aspectRatio_ b = (av, ah) /\
  Z.of_nat (length (buffer_ b)) = 4 * width maxSize * height maxSize /\
  forall r c, 0 <= r < height maxSize -> 0 <= c < width maxSize ->
    at_ b (mkCoordinate r c) = bg.
Proof.
  intros Hfits b.
  pose proof (create_wf maxSize av ah bg pal Hfits) as Hwf.
  split; [exact Hwf |].
  do 6 (split; [reflexivity |]).
  split; [apply Hwf |].
  intros r c Hr Hc. now apply create_pixel.
Qed.

(** The buffer after [clear]: every pixel holds the fill colour. *)
Lemma clear_buffer (fillColor : RGBAColor) (b : t) :
  raster_ok b -> buffer_ok b ->
  buffer_ (clear fillColor b)
  = fill_bytes (Z.to_nat (width (size_ b) * height (size_ b))) fillColor.
Proof.
  intros [Hw Hh] [Hlen Hsz].
  destruct (fits_products (width (size_ b)) (height (size_ b))) as [Hp _];
    try lia.
  unfold clear. cbn [buffer_ size_ with_buffer with_cursor]. rewrite Hp.
  rewrite fill_stored by (cbn [mem ptr]; lia).
  unfold stored. cbn [mem ptr take Nat.add]. rewrite length_fill_bytes.
  rewrite drop_ge by lia.
  now rewrite app_nil_r.
Qed.

(** X14.  [clear] on a well-formed builder stores the fill colour, alpha
    included, in every pixel of the raster and moves the cursor to the
    origin; the raster, the length of the buffer, the palette and the
    selected colour stay. *)
Theorem clear_fills (fillColor : RGBAColor) (b : t) :
  wf b ->
  let b' := clear fillColor b in
  wf b' /\ size_ b' = size_ b /\ sixelCursor_ b' = mkCoordinate 0 0 /\
  colors_ b' = colors_ b /\ currentColor_ b' = currentColor_ b /\
  length (buffer_ b') = length (buffer_ b) /\
  forall r c, 0 <= r < height (size_ b) -> 0 <= c < width (size_ b) ->
    at_ b' (mkCoordinate r c) = fillColor.
Proof.
  intros (Hras & Hbuf & Hcur) b'.
  pose proof (clear_buffer fillColor b Hras Hbuf) as Hb.
  pose proof Hras as [Hw Hh]. pose proof Hbuf as [Hlen Hsz].
  assert (Hprod : 0 <= width (size_ b) * height (size_ b))
    by (apply Z.mul_nonneg_nonneg; lia).
  assert (Hlen' : length (buffer_ b') = length (buffer_ b)).
  { subst b'. rewrite Hb, length_fill_bytes. lia. }
  assert (Hras' : raster_ok b') by exact Hras.
  assert (Hbuf' : buffer_ok b').
  { split; [| exact Hsz]. rewrite Hlen'. exact Hlen. }
  split; [| do 4 (split; [reflexivity |]); split; [exact Hlen' |]].
  - split; [exact Hras' | split; [exact Hbuf' |]].
    repeat split; cbn; machine; lia.
  - intros r c Hr Hc.
    rewrite at_in_raster by assumption.
    subst b'. rewrite Hb.
    change (size_ (clear fillColor b)) with (size_ b).
    pose proof (pixel_bound (width (size_ b)) (height (size_ b)) r c Hr Hc)
      as [Hlo Hhi].
    unfold pixel_offset.
    replace (Z.to_nat (4 * (r * width (size_ b) + c)))
      with (4 * Z.to_nat (r * width (size_ b) + c))%nat by lia.
    apply fill_bytes_pixel. lia.
Qed.

(** X15.  [at] reduces the row and the column, read as [unsigned], modulo
    the height and the width of the raster: on a well-formed builder with a
    raster that is not empty it reads, for every coordinate, negative ones
    included, the four bytes of a pixel of the raster, inside the buffer. *)
Theorem at_wraps (b : t) (coord : Coordinate) :
  raster_ok b -> buffer_ok b ->
  0 < width (size_ b) -> 0 < height (size_ b) ->
  let r := u32 (row coord) mod height (size_ b) in
  let c := u32 (column coord) mod width (size_ b) in
  0 <= r < height (size_ b) /\ 0 <= c < width (size_ b) /\
  (pixel_offset (width (size_ b)) r c + 3 < length (buffer_ b))%nat /\
  at_ b coord = pixel_of (buffer_ b) (pixel_offset (width (size_ b)) r c) /\
  at_ b coord = at_ b (mkCoordinate r c).
Proof.
  intros Hras Hbuf Hw Hh r c.
  pose proof Hras as [Hw' Hh']. pose proof Hbuf as [Hlen Hsz].
  assert (Hr : 0 <= r < height (size_ b)) by (apply Z.mod_pos_bound; lia).
  assert (Hc : 0 <= c < width (size_ b)) by (apply Z.mod_pos_bound; lia).
  pose proof (pixel_bound (width (size_ b)) (height (size_ b)) r c Hr Hc)
    as [Hlo Hhi].
  assert (Hat : at_ b coord
                = pixel_of (buffer_ b) (pixel_offset (width (size_ b)) r c)).
  { unfold at_, pixel_of, pixel_offset. fold r c.
    rewrite (at_base _ (height (size_ b))) by lia. reflexivity. }
  split; [exact Hr | split; [exact Hc | split; [| split; [exact Hat |]]]].
  - unfold pixel_offset. lia.
  - rewrite Hat. symmetry. now apply at_in_raster.
Qed.

(** X16.  [write] at a coordinate stores the colour with the alpha byte
    0xFF where [at] reads that pixel, and leaves every other pixel of the
    raster as it was; a coordinate outside the raster, a negative one
    included, changes nothing.  The raster and the length of the buffer
    stay. *)
Theorem write_at (coord : Coordinate) (v : RGBColor) (b : t) :
  raster_ok b -> buffer_ok b -> Coordinate_ok coord ->
  size_ (write coord v b) = size_ b /\
  length (buffer_ (write coord v b)) = length (buffer_ b) /\
  (~ (0 <= row coord < height (size_ b) /\
      0 <= column coord < width (size_ b)) -> write coord v b = b) /\
  forall r c, 0 <= r < height (size_ b) -> 0 <= c < width (size_ b) ->
    at_ (write coord v b) (mkCoordinate r c)
    = if decide (r = row coord /\ c = column coord) then opaque v
      else at_ b (mkCoordinate r c).
Proof.
  intros Hras Hbuf Hcoord.
  destruct (write_fields coord v b) as (buf & Hwr & Hlen).
  assert (Hsize : size_ (write coord v b) = size_ b) by now rewrite Hwr.
  assert (Hl : length (buffer_ (write coord v b)) = length (buffer_ b))
    by now rewrite Hwr.
  split; [exact Hsize | split; [exact Hl | split]].
  - now apply write_outside.
  - intros r c Hr Hc.
    destruct (decide (0 <= row coord < height (size_ b) /\
                      0 <= column coord < width (size_ b))) as [Hin | Hout].
    + assert (Hras' : raster_ok (write coord v b))
        by (unfold raster_ok; now rewrite Hsize).
      assert (Hbuf' : buffer_ok (write coord v b))
        by (unfold buffer_ok; now rewrite Hsize, Hl).
      rewrite at_in_raster by (rewrite ?Hsize; assumption).
      rewrite Hsize. destruct coord as [r0 c0]. cbn [row column] in *.
      rewrite write_inside by (assumption || lia).
      destruct (decide (r = r0 /\ c = c0)); [reflexivity |].
      symmetry. now apply at_in_raster.
    + rewrite write_outside by assumption.
      destruct (decide (r = row coord /\ c = column coord)) as [[-> ->] | _];
        [| reflexivity].
      exfalso. apply Hout. split; assumption.
Qed.

End BuilderContents.

(** ** SixelImageBuilder: the selected colour *)

Section BuilderColors.

Import SixelImageBuilder BuilderInv.


(** X18.  A colour defined through the builder at an index below the cap of
    the palette and then selected is the colour the builder paints with,
    whatever the palette held before and whether it had to grow or not. *)
Theorem setColor_then_useColor (index : Z) (color : RGBColor) (b : t) :
  0 <= index < SixelColorPalette.maxSize_ (colors_ b) -> index < UINT_MAX ->
  currentColor (useColor index (setColor index color b)) = color /\
  currentColor_ (useColor index (setColor index color b)) = index.
Proof.
  intros Hi Hu.
  destruct (setColor_stores index color (colors_ b) Hi Hu) as (Hat & Hsz).
  unfold useColor, setColor, currentColor. cbn [currentColor_ colors_].
  rewrite Hsz, Z.mod_small by lia.
  split; [exact Hat | reflexivity].
Qed.

End BuilderColors.

(** ** SixelImageBuilder: [setRaster] and the pixels *)

Section BuilderRaster.

Import SixelImageBuilder BuilderInv.

Lemma setRaster_ok (pan pad : Z) (s : Size) (b : t) :
  fits (maxSize_ b) ->
  raster_ok (setRaster pan pad s b) /\ buffer_ok (setRaster pan pad s b).
Proof.
  intros Hfits. pose proof Hfits as (Hw & Hh & Hsz).
  destruct (setRaster_length_fits pan pad s b Hfits) as (_ & Hsize & Hlen).
  pose proof (clamp_range (width s) (width (maxSize_ b)) ltac:(lia)) as Hcw.
  pose proof (clamp_range (height s) (height (maxSize_ b)) ltac:(lia)) as Hch.
  assert (Hprod : clamp (width s) 0 (width (maxSize_ b))
                  * clamp (height s) 0 (height (maxSize_ b))
                  <= width (maxSize_ b) * height (maxSize_ b))
    by (apply Z.mul_le_mono_nonneg; lia).
  unfold raster_ok, buffer_ok. rewrite Hsize, Hlen. cbn [width height].
  repeat split; lia.
Qed.

(** X19.  [setRaster] resizes the buffer and keeps its bytes where they
    are: a pixel of the new raster reads the four old bytes at its new
    offset, and zero bytes, not the background, where the old buffer ended.
    With the width unchanged the rows kept read as before and the rows added
    read as transparent black. *)
Theorem setRaster_pixels (pan pad : Z) (s : Size) (b : t) :
  wf b -> fits (maxSize_ b) ->
  let w := clamp (width s) 0 (width (maxSize_ b)) in
  let h := clamp (height s) 0 (height (maxSize_ b)) in
  let b' := setRaster pan pad s b in
  (forall r c, 0 <= r < h -> 0 <= c < w ->
     at_ b' (mkCoordinate r c)
     = if 4 * (r * w + c) <? Z.of_nat (length (buffer_ b))
       then pixel_of (buffer_ b) (pixel_offset w r c)
       else rgba 0 0 0 0) /\
  (w = width (size_ b) ->
   forall r c, 0 <= r < h -> 0 <= c < w ->
     at_ b' (mkCoordinate r c)
     = if r <? height (size_ b) then at_ b (mkCoordinate r c)
       else rgba 0 0 0 0).
Proof.
  intros (Hras & Hbuf & Hcur) Hfits w h b'.
  destruct (setRaster_ok pan pad s b Hfits) as [Hras' Hbuf'].
  destruct (setRaster_length_fits pan pad s b Hfits) as (_ & Hsize & Hlen').
  fold w h b' in Hsize, Hlen', Hras', Hbuf'.
  pose proof Hbuf as [Hlen Hsz].
  assert (Hpix : forall r c, 0 <= r < h -> 0 <= c < w ->
            at_ b' (mkCoordinate r c)
            = if 4 * (r * w + c) <? Z.of_nat (length (buffer_ b))
              then pixel_of (buffer_ b) (pixel_offset w r c)
              else rgba 0 0 0 0).
  { intros r c Hr Hc.
    rewrite at_in_raster by (rewrite ?Hsize; assumption).
    rewrite Hsize. cbn [width height].
    pose proof (pixel_bound w h r c Hr Hc) as [Hlo Hhi].
    unfold pixel_of, pixel_offset.
    change (buffer_ b')
      with (resize (Z.to_nat (umul (umul w h) 4)) 0 (buffer_ b)).
    assert (Hn : Z.to_nat (umul (umul w h) 4) = Z.to_nat (4 * w * h)).
    { rewrite <- Hlen'. unfold b', setRaster. cbn [buffer_].
      fold w h. rewrite length_resize. lia. }
    rewrite Hn.
    destruct (Z.ltb_spec (4 * (r * w + c)) (Z.of_nat (length (buffer_ b))))
      as [Hold | Hnew].
    - rewrite !lookup_total_resize by lia. reflexivity.
    - rewrite !lookup_total_resize_new by lia. reflexivity. }
  split; [exact Hpix |].
  intros Hw r c Hr Hc. rewrite Hpix by assumption.
  pose proof Hras as [Hrw Hrh].
  destruct (Z.ltb_spec r (height (size_ b))) as [Hin | Hout].
  - pose proof (pixel_bound w (height (size_ b)) r c ltac:(lia) Hc) as [Hlo Hhi].
    destruct (Z.ltb_spec (4 * (r * w + c)) (Z.of_nat (length (buffer_ b))));
      [| rewrite <- Hw in Hlen; lia].
    rewrite at_in_raster by (assumption || lia). now rewrite <- Hw.
  - destruct (Z.ltb_spec (4 * (r * w + c)) (Z.of_nat (length (buffer_ b))));
      [| reflexivity].
    rewrite <- Hw in Hlen. nia.
Qed.

End BuilderRaster.

(** ** SixelImageBuilder under the parser *)

Section BuilderUnderParser.

Import SixelImageBuilder BuilderInv.

Lemma maxSize_render (s : Z) (b : t) : maxSize_ (render s b) = maxSize_ b.
Proof.
  unfold render.
  destruct (u32 (column (sixelCursor_ b)) <? width (size_ b)); [| reflexivity].
  destruct (render_loop_fields s (column (sixelCursor_ b)) [0; 1; 2; 3; 4; 5] b)
    as (buf & -> & _).
  reflexivity.
Qed.

Lemma newline_wf (b : t) : wf b -> wf (newline b).
Proof.
  intros (Hras & Hbuf & [[Hrow Hcol] Hcol0]). unfold newline.
  cbn [sixelCursor_ with_cursor row column size_].
  destruct (u32 (iadd (row (sixelCursor_ b)) 6) <? height (size_ b)).
  - split; [exact Hras | split; [exact Hbuf |]].
    split; [split |]; cbn; [apply i32_range | machine; lia | lia].
  - split; [exact Hras | split; [exact Hbuf |]].
    split; [split |]; cbn; [exact Hrow | machine; lia | lia].
Qed.

Lemma rewind_wf (b : t) : wf b -> wf (rewind b).
Proof.
  intros (Hras & Hbuf & [[Hrow Hcol] Hcol0]).
  split; [exact Hras | split; [exact Hbuf |]].
  split; [split |]; cbn; [exact Hrow | machine; lia | lia].
Qed.

(** Every call of the parser keeps a builder well formed. *)
Lemma apply_event_wf (e : Event) (b : t) :
  fits (maxSize_ b) -> wf b ->
  wf (apply_event b e) /\ maxSize_ (apply_event b e) = maxSize_ b.
Proof.
  intros Hfits Hwf. destruct e as [sixel | pan pad sz | index | index color | |];
    cbn [apply_event ev_render ev_setRaster ev_useColor ev_setColor
         ev_rewind ev_newline SixelImageBuilder_Events].
  - split; [now apply render_wf | apply maxSize_render].
  - split; [| reflexivity].
    destruct (setRaster_ok pan pad sz b Hfits) as [Hras Hbuf].
    split; [exact Hras | split; [exact Hbuf | apply Hwf]].
  - split; [exact Hwf | reflexivity].
  - split; [exact Hwf | reflexivity].
  - split; [now apply rewind_wf | reflexivity].
  - split; [now apply newline_wf |].
    unfold newline. now destruct (_ <? _).
Qed.

Lemma replay_wf (tr : list Event) (b : t) :
  fits (maxSize_ b) -> wf b ->
  wf (replay tr b) /\ maxSize_ (replay tr b) = maxSize_ b.
Proof.
  unfold replay. revert b.
  induction tr as [| e tr IH]; intros b Hfits Hwf; [now split |].
  cbn [foldl].
  destruct (apply_event_wf e b Hfits Hwf) as [Hwf1 Hmax1].
  destruct (IH (apply_event b e)) as [Hwf2 Hmax2];
    [now rewrite Hmax1 | exact Hwf1 |].
  split; [exact Hwf2 | now rewrite Hmax2].
Qed.

(** X20.  Whatever the input and the state of the parser, a well-formed
    builder whose largest raster fits [unsigned] in bytes is well formed
    after the data and after [done]: the raster stays addressable by [int]
    coordinates, the buffer holds exactly four bytes for each pixel of the
    raster, and the cursor holds [int] values with a column that is not
    negative.  The largest raster stays as it was.  The finalizer that
    [done] invokes, when there is one, is a callback of the caller: it is
    assumed to keep these properties itself. *)
Theorem parse_keeps_wf (fin : option (t -> t)) (input : list Z)
    (p : SixelParser.t) (b : t) :
  fits (maxSize_ b) -> wf b -> finalizer_keeps_wf fin ->
  let b1 := snd (SixelParser.parse_all input (p, b)) in
  let b2 := snd (SixelParser.done fin (SixelParser.parse_all input (p, b))) in
  wf b1 /\ maxSize_ b1 = maxSize_ b /\ wf b2 /\ maxSize_ b2 = maxSize_ b.
Proof.
  intros Hfits Hwf Hfin b1 b2.
  assert (Hrun : forall input p b, fits (maxSize_ b) -> wf b ->
            wf (snd (SixelParser.parse_all input (p, b))) /\
            maxSize_ (snd (SixelParser.parse_all input (p, b))) = maxSize_ b).
  { clear. induction input as [| v input IH]; intros p b Hfits Hwf;
      [now split |].
    change (SixelParser.parse_all (v :: input) (p, b))
      with (SixelParser.parse_all input (SixelParser.parse v (p, b))).
    rewrite (parse_simulated v _ _ p b).
    destruct (replay_wf (snd (SixelParser.parse v (p, @nil Event))) b Hfits Hwf)
      as [Hwf1 Hmax1].
    destruct (IH (fst (SixelParser.parse v (p, @nil Event)))
                (replay (snd (SixelParser.parse v (p, @nil Event))) b))
      as [Hwf2 Hmax2]; [now rewrite Hmax1 | exact Hwf1 |].
    split; [exact Hwf2 | now rewrite Hmax2]. }
  destruct (Hrun input p b Hfits Hwf) as [Hwf1 Hmax1].
  fold b1 in Hwf1, Hmax1.
  split; [exact Hwf1 | split; [exact Hmax1 |]].
  subst b2. unfold SixelParser.done.
  destruct (SixelParser.parse_all input (p, b)) as [q b1'] eqn:E.
  cbn [snd] in b1. subst b1.
  rewrite (transitionTo_simulated SixelParser.Ground _ _ q b1').
  cbn [snd].
  destruct (replay_wf
              (snd (SixelParser.transitionTo SixelParser.Ground (q, @nil Event)))
              b1') as [Hwf2 Hmax2]; [now rewrite Hmax1 | exact Hwf1 |].
  destruct fin as [f |]; cbn [SixelParser.invoke_finalizer].
  - destruct (Hfin f eq_refl _ ltac:(rewrite Hmax2, Hmax1; exact Hfits) Hwf2)
      as [Hwf3 Hmax3].
    split; [exact Hwf3 | now rewrite Hmax3, Hmax2].
  - split; [exact Hwf2 | now rewrite Hmax2].
Qed.

End BuilderUnderParser.

(** ** RasterizedImage: the assertions of [fragment] *)

Section FragmentAssertions.

Import RasterizedImage.

(** X21.  [fragment] stops at one of its two assertions exactly when the
    cell starts left of, right of, above or below the image; in every other
    case it returns a buffer.  The cell size and the image size are at most
    [INT_MAX] and the pixel offsets of the cell fit [int]. *)
Theorem fragment_refuses (ri : t) (pos : Coordinate) :
  let cw := width (cellSize_ ri) in
  let ch := height (cellSize_ ri) in
  let iw := Image.width (image_ ri) in
  let ih := Image.height (image_ ri) in
  0 <= cw <= INT_MAX -> 0 <= ch <= INT_MAX ->
  0 <= iw <= INT_MAX -> 0 <= ih <= INT_MAX ->
  is_int (column pos * cw) -> is_int (row pos * ch) ->
  (fragment ri pos = None
   <-> column pos * cw < 0 \/ iw < column pos * cw \/
       row pos * ch < 0 \/ ih < row pos * ch).
Proof.
  intros cw ch iw ih Hcw Hch Hiw Hih Hx Hy.
  unfold fragment. cbn zeta. cbn [row column].
  fold cw ch iw ih.
  assert (Ex : imul (column pos) (i32 cw) = column pos * cw).
  { unfold imul. rewrite (i32_id cw) by (machine; lia). now apply i32_id. }
  assert (Ey : imul (row pos) (i32 ch) = row pos * ch).
  { unfold imul. rewrite (i32_id ch) by (machine; lia). now apply i32_id. }
  rewrite Ex, Ey.
  assert (Hu : forall v, is_int v ->
            (0 <= v -> u32 v = v) /\ (v < 0 -> u32 v = v + 2 ^ 32)).
  { intros v Hv. split; intros Hs.
    - apply u32_id. machine. lia.
    - unfold u32. symmetry. apply (Z.mod_unique_pos _ _ (-1)); machine; lia. }
  destruct (Hu _ Hx) as [Hxp Hxn]. destruct (Hu _ Hy) as [Hyp Hyn].
  destruct (Z.ltb_spec iw (u32 (column pos * cw))) as [Hrx | Hrx].
  - split; [intros _ | reflexivity].
    destruct (Z_lt_le_dec (column pos * cw) 0) as [Hneg | Hpos];
      [now left | right; left; rewrite Hxp in Hrx; lia].
  - destruct (Z.ltb_spec ih (u32 (row pos * ch))) as [Hry | Hry].
    + split; [intros _ | reflexivity].
      destruct (Z_lt_le_dec (row pos * ch) 0) as [Hneg | Hpos];
        [right; right; now left | right; right; right; rewrite Hyp in Hry; lia].
    + split; [discriminate |].
      intros Hout. exfalso.
      destruct (Z_lt_le_dec (column pos * cw) 0) as [Hxneg | Hxpos];
        [rewrite Hxn in Hrx by assumption; machine; lia |].
      destruct (Z_lt_le_dec (row pos * ch) 0) as [Hyneg | Hypos];
        [rewrite Hyn in Hry by assumption; machine; lia |].
      rewrite Hxp in Hrx by assumption. rewrite Hyp in Hry by assumption.
      lia.
Qed.

End FragmentAssertions.

(** ** GridMetrics: cells to pixels *)

Section GridMapping.

Import GridMetrics.

Lemma i32_of_u32_sum (a b : Z) : i32 (uadd (u32 a) (u32 b)) = i32 (a + b).
Proof.
  unfold uadd. now rewrite u32_add_u32_l, u32_add_u32_r, i32_u32.
Qed.

Lemma u32_mul_u32_r (a b : Z) : u32 (a * u32 b) = u32 (a * b).
Proof. rewrite Z.mul_comm, u32_mul_u32_l. now rewrite Z.mul_comm. Qed.

(** X22.  [map] computes in [unsigned], whatever the signs of the margins
    and of the differences; when the position of the cell fits [int], the
    result is exact: the left margin plus [column - 1] cell widths, and the
    bottom margin plus the cell heights of the lines below the row.  The
    subtraction [column - 1] does not overflow. *)
Theorem map_exact (gm : t) (pos : Coordinate) :
  is_int (column pos - 1) ->
  (is_int (PageMargin.left (pageMargin gm)
           + (column pos - 1) * width (cellSize gm)) ->
   Point.x (map gm pos)
   = PageMargin.left (pageMargin gm)
     + (column pos - 1) * width (cellSize gm)) /\
  (is_int (PageMargin.bottom (pageMargin gm)
           + (height (pageSize gm) - row pos) * height (cellSize gm)) ->
   Point.y (map gm pos)
   = PageMargin.bottom (pageMargin gm)
     + (height (pageSize gm) - row pos) * height (cellSize gm)).
Proof.
  intros Hcol. unfold map. cbn [Point.x Point.y].
  unfold umul. rewrite !i32_of_u32_sum.
  rewrite (i32_id (column pos - 1)) by exact Hcol.
  split; intros Hfit.
  - rewrite <- i32_u32. rewrite <- u32_add_u32_r, u32_mul_u32_l, u32_add_u32_r.
    rewrite i32_u32. now apply i32_id.
  - unfold usub. rewrite <- i32_u32.
    rewrite <- u32_add_u32_r, u32_mul_u32_l.
    replace (height (pageSize gm) - u32 (row pos))
      with (- u32 (row pos) + height (pageSize gm)) by lia.
    rewrite <- (u32_mul_u32_l (_ + _)).
    rewrite <- (u32_add_u32_l (- u32 (row pos))).
    assert (Hneg : u32 (- u32 (row pos)) = u32 (- row pos)).
    { unfold u32.
      replace (- (row pos mod 2 ^ 32)) with (-1 * (row pos mod 2 ^ 32)) by lia.
      rewrite Z.mul_mod_idemp_r by (machine; lia).
      f_equal; lia. }
    rewrite Hneg, u32_add_u32_l, u32_mul_u32_l, u32_add_u32_r, i32_u32.
    replace (- row pos + height (pageSize gm))
      with (height (pageSize gm) - row pos) by lia.
    now apply i32_id.
Qed.

End GridMapping.

(** ** SixelImageBuilder: the bands of six rows *)

Section BuilderBands.

Import SixelImageBuilder BuilderInv.

(** X23.  From the start of a band of six rows, [n] calls of [newline] move
    the cursor down [n] bands and stop at the last band that starts inside
    the raster: the row is six times the smaller of the band reached and
    [(height - 1) / 6].  The column is 0 after the first call; the raster
    and the buffer stay.  The height is at most [INT_MAX - 5], so that
    [row + 6] does not overflow. *)
Theorem newline_bands (n : nat) (k : Z) (b : t) :
  0 < height (size_ b) <= INT_MAX - 5 ->
  row (sixelCursor_ b) = 6 * k -> 0 <= k <= (height (size_ b) - 1) / 6 ->
  let b' := Nat.iter n newline b in
  row (sixelCursor_ b')
  = 6 * Z.min (k + Z.of_nat n) ((height (size_ b) - 1) / 6) /\
  ((0 < n)%nat -> column (sixelCursor_ b') = 0) /\
  size_ b' = size_ b /\ buffer_ b' = buffer_ b.
Proof.
  intros Hh Hrow Hk. cbv zeta.
  induction n as [| n IH].
  - cbn [Nat.iter nat_rect]. rewrite Hrow.
    split; [f_equal; lia | split; [lia | split; reflexivity]].
  - change (Nat.iter (S n) newline b) with (newline (Nat.iter n newline b)).
    destruct IH as (IHrow & _ & IHsize & IHbuf).
    set (bn := Nat.iter n newline b) in *.
    set (m := (height (size_ b) - 1) / 6) in *.
    assert (Hm : 6 * m <= height (size_ b) - 1 < 6 * m + 6)
      by (subst m; pose proof (Z.div_mod (height (size_ b) - 1) 6 ltac:(lia));
          pose proof (Z.mod_pos_bound (height (size_ b) - 1) 6 ltac:(lia));
          lia).
    unfold newline. cbn [sixelCursor_ with_cursor row column size_].
    unfold iadd. rewrite IHrow, IHsize.
    rewrite i32_id by (machine; lia).
    rewrite u32_id by (machine; lia).
    destruct (Z.ltb_spec (6 * Z.min (k + Z.of_nat n) m + 6) (height (size_ b)));
      cbn [sixelCursor_ with_cursor row column size_ buffer_].
    + split; [lia | split; [reflexivity | split; assumption]].
    + split; [lia | split; [reflexivity | split; assumption]].
Qed.

End BuilderBands.

(** ** Instances *)

Section BuilderWitnesses.

Import SixelImageBuilder BuilderInv.

(** A builder of 4 x 6 pixels. *)
Lemma constructor_blank_witness :
  fits (mkSize 4 6) /\
  at_ (create (mkSize 4 6) 1 1 (rgba 10 20 30 255)
         (SixelColorPalette.create 16 256)) (mkCoordinate 5 3)
  = rgba 10 20 30 255.
Proof.
  assert (Hfits : fits (mkSize 4 6))
    by (repeat split; vm_compute; discriminate).
  split; [exact Hfits |].
  destruct (constructor_blank (mkSize 4 6) 1 1 (rgba 10 20 30 255)
              (SixelColorPalette.create 16 256) Hfits)
    as (_ & _ & _ & _ & _ & _ & _ & _ & Hpix).
  apply Hpix; cbn; lia.
Defined.

(** [clear] with a colour that is not opaque. *)
Lemma clear_fills_witness :
  let b := create (mkSize 4 6) 1 1 (rgba 10 20 30 255)
             (SixelColorPalette.create 16 256) in
  wf b /\ at_ (clear (rgba 1 2 3 4) b) (mkCoordinate 5 3) = rgba 1 2 3 4.
Proof.
  intros b.
  assert (Hwf : wf b)
    by (repeat split; vm_compute; first [reflexivity | discriminate]).
  split; [exact Hwf |].
  destruct (clear_fills (rgba 1 2 3 4) b Hwf)
    as (_ & _ & _ & _ & _ & _ & Hpix).
  apply Hpix; cbn; lia.
Defined.

(** The coordinate (-1, 5) on a raster of 4 x 6 pixels: 2^32 - 1 is 3 modulo
    6, and 5 is 1 modulo 4. *)
Lemma at_wraps_witness :
  let b := create (mkSize 4 6) 1 1 (rgba 10 20 30 255)
             (SixelColorPalette.create 16 256) in
  raster_ok b /\ buffer_ok b /\
  0 < width (size_ b) /\ 0 < height (size_ b) /\
  at_ b (mkCoordinate (-1) 5) = at_ b (mkCoordinate 3 1).
Proof.
  intros b.
  assert (Hras : raster_ok b) by (repeat split; vm_compute; discriminate).
  assert (Hbuf : buffer_ok b)
    by (split; vm_compute; first [reflexivity | discriminate]).
  assert (Hw : 0 < width (size_ b)) by (vm_compute; reflexivity).
  assert (Hh : 0 < height (size_ b)) by (vm_compute; reflexivity).
  split; [exact Hras | split; [exact Hbuf | split; [exact Hw |
    split; [exact Hh |]]]].
  exact (proj2 (proj2 (proj2 (proj2
           (at_wraps b (mkCoordinate (-1) 5) Hras Hbuf Hw Hh))))).
Defined.

(** A write at (2, 1). *)
Lemma write_at_witness :
  let b := create (mkSize 4 6) 1 1 (rgba 10 20 30 255)
             (SixelColorPalette.create 16 256) in
  raster_ok b /\ buffer_ok b /\ Coordinate_ok (mkCoordinate 2 1) /\
  at_ (write (mkCoordinate 2 1) (rgb 9 8 7) b) (mkCoordinate 2 1)
  = rgba 9 8 7 255 /\
  at_ (write (mkCoordinate 2 1) (rgb 9 8 7) b) (mkCoordinate 2 2)
  = at_ b (mkCoordinate 2 2).
Proof.
  intros b.
  assert (Hras : raster_ok b) by (repeat split; vm_compute; discriminate).
  assert (Hbuf : buffer_ok b)
    by (split; vm_compute; first [reflexivity | discriminate]).
  assert (Hco : Coordinate_ok (mkCoordinate 2 1))
    by (repeat split; vm_compute; discriminate).
  split; [exact Hras | split; [exact Hbuf | split; [exact Hco |]]].
  destruct (write_at (mkCoordinate 2 1) (rgb 9 8 7) b Hras Hbuf Hco)
    as (_ & _ & _ & Hpix).
  split.
  - rewrite Hpix by (cbn; lia). reflexivity.
  - rewrite Hpix by (cbn; lia). reflexivity.
Defined.


(** The colour 20 defined on a palette of 16 colours, then selected. *)
Lemma setColor_then_useColor_witness :
  let b := create (mkSize 4 6) 1 1 (rgba 10 20 30 255)
             (SixelColorPalette.create 16 256) in
  0 <= 20 < SixelColorPalette.maxSize_ (colors_ b) /\ 20 < UINT_MAX /\
  currentColor (useColor 20 (setColor 20 (rgb 1 2 3) b)) = rgb 1 2 3.
Proof.
  intros b.
  assert (Hi : 0 <= 20 < SixelColorPalette.maxSize_ (colors_ b))
    by (vm_compute; split; [discriminate | reflexivity]).
  assert (Hu : 20 < UINT_MAX) by (vm_compute; reflexivity).
  split; [exact Hi | split; [exact Hu |]].
  exact (proj1 (setColor_then_useColor 20 (rgb 1 2 3) b Hi Hu)).
Defined.

(** A raster of 4 x 12 pixels cut to 6 rows, then grown to 12 rows again:
    the rows added do not read as the background. *)
Lemma setRaster_pixels_witness :
  let b := setRaster 1 1 (mkSize 4 6)
             (create (mkSize 4 12) 1 1 (rgba 10 20 30 255)
                (SixelColorPalette.create 16 256)) in
  wf b /\ fits (maxSize_ b) /\
  at_ (setRaster 1 1 (mkSize 4 12) b) (mkCoordinate 7 0) = rgba 0 0 0 0 /\
  at_ (setRaster 1 1 (mkSize 4 12) b) (mkCoordinate 5 0) = rgba 10 20 30 255.
Proof.
  intros b.
  assert (Hwf : wf b)
    by (repeat split; vm_compute; first [reflexivity | discriminate]).
  assert (Hfits : fits (maxSize_ b))
    by (repeat split; vm_compute; discriminate).
  split; [exact Hwf | split; [exact Hfits |]].
  pose proof (setRaster_pixels 1 1 (mkSize 4 12) b Hwf Hfits) as Hpix.
  cbv zeta in Hpix. destruct Hpix as [_ Hrows].
  assert (Hwidth : clamp (width (mkSize 4 12)) 0 (width (maxSize_ b))
                   = width (size_ b)) by reflexivity.
  split.
  - rewrite (Hrows Hwidth 7 0) by (vm_compute; split; first [reflexivity | discriminate]).
    reflexivity.
  - rewrite (Hrows Hwidth 5 0) by (vm_compute; split; first [reflexivity | discriminate]).
    vm_compute. reflexivity.
Defined.

(** Raster attributes, a colour definition, a selection, sixels and a
    newline on a builder of 4 x 6 pixels, with a finalizer that moves the
    cursor to the first column. *)
Lemma parse_keeps_wf_witness :
  let b := create (mkSize 4 6) 1 1 (rgba 10 20 30 255)
             (SixelColorPalette.create 16 256) in
  let input := [34; 49; 59; 49; 59; 51; 59; 54;
                35; 49; 59; 50; 59; 49; 48; 48; 59; 48; 59; 48;
                35; 49; 126; 33; 57; 63; 45; 126] in
  fits (maxSize_ b) /\ wf b /\ finalizer_keeps_wf (Some rewind) /\
  wf (snd (SixelParser.done (Some rewind)
             (SixelParser.parse_all input (SixelParser.create, b)))).
Proof.
  intros b input.
  assert (Hfits : fits (maxSize_ b))
    by (repeat split; vm_compute; discriminate).
  assert (Hwf : wf b)
    by (repeat split; vm_compute; first [reflexivity | discriminate]).
  assert (Hfin : finalizer_keeps_wf (Some rewind)).
  { intros f Hf b0 _ Hwf0. injection Hf as <-.
    split; [now apply rewind_wf | reflexivity]. }
  split; [exact Hfits | split; [exact Hwf | split; [exact Hfin |]]].
  exact (proj1 (proj2 (proj2
           (parse_keeps_wf (Some rewind) input SixelParser.create b
              Hfits Hwf Hfin)))).
Defined.

(** Three calls of [newline] on a raster of 13 rows: the bands start at the
    rows 0, 6 and 12. *)
Lemma newline_bands_witness :
  let b := create (mkSize 4 13) 1 1 (rgba 10 20 30 255)
             (SixelColorPalette.create 16 256) in
  0 < height (size_ b) <= INT_MAX - 5 /\
  row (sixelCursor_ b) = 6 * 0 /\ 0 <= 0 <= (height (size_ b) - 1) / 6 /\
  row (sixelCursor_ (Nat.iter 3 newline b)) = 12.
Proof.
  intros b.
  assert (Hh : 0 < height (size_ b) <= INT_MAX - 5)
    by (split; vm_compute; first [reflexivity | discriminate]).
  assert (Hrow : row (sixelCursor_ b) = 6 * 0) by reflexivity.
  assert (Hk : 0 <= 0 <= (height (size_ b) - 1) / 6)
    by (split; vm_compute; discriminate).
  split; [exact Hh | split; [exact Hrow | split; [exact Hk |]]].
  rewrite (proj1 (newline_bands 3 0 b Hh Hrow Hk)). reflexivity.
Defined.

End BuilderWitnesses.

Section FragmentAssertionWitness.

Import RasterizedImage.

(** The cell (0, 2) of 2 x 2 pixels starts right of an image of 3 x 3
    pixels. *)
Lemma fragment_refuses_witness :
  let ri := mk (Image.mk (mkSize 3 3) (seqZ 100 36)) (rgba 1 2 3 4)
               (mkSize 2 2) (mkSize 2 2) in
  let pos := mkCoordinate 0 2 in
  0 <= width (cellSize_ ri) <= INT_MAX /\
  0 <= Image.width (image_ ri) <= INT_MAX /\
  is_int (column pos * width (cellSize_ ri)) /\
  is_int (row pos * height (cellSize_ ri)) /\
  fragment ri pos = None.
Proof.
  intros ri pos.
  assert (Hc : 0 <= width (cellSize_ ri) <= INT_MAX)
    by (split; vm_compute; discriminate).
  assert (Hi : 0 <= Image.width (image_ ri) <= INT_MAX)
    by (split; vm_compute; discriminate).
  assert (Hx : is_int (column pos * width (cellSize_ ri)))
    by (split; vm_compute; discriminate).
  assert (Hy : is_int (row pos * height (cellSize_ ri)))
    by (split; vm_compute; discriminate).
  split; [exact Hc | split; [exact Hi | split; [exact Hx | split; [exact Hy |]]]].
  apply (fragment_refuses ri pos Hc Hc Hi Hi Hx Hy).
  right; left. vm_compute. reflexivity.
Defined.

End FragmentAssertionWitness.

Section GridMappingWitness.

Import GridMetrics.

(** The column 0, one cell left of the page, on the top line of a page of
    80 x 24 cells of 10 x 20 pixels with the margins 5 and 3. *)
Lemma map_exact_witness :
  let gm := mk (mkSize 80 24) (mkSize 10 20) 4 (mkUnderline 1 1)
               (CellMargin.mk 0 0 0 0) (PageMargin.mk 5 3) in
  is_int (0 - 1) /\
  Point.x (map gm (mkCoordinate 1 0)) = -5 /\
  Point.y (map gm (mkCoordinate 1 0)) = 463.
Proof.
  intros gm.
  assert (Hcol : is_int (column (mkCoordinate 1 0) - 1))
    by (split; vm_compute; discriminate).
  split; [exact Hcol |].
  destruct (map_exact gm (mkCoordinate 1 0) Hcol) as [Hx Hy].
  split.
  - rewrite Hx by (split; vm_compute; discriminate). reflexivity.
  - rewrite Hy by (split; vm_compute; discriminate). reflexivity.
Defined.

End GridMappingWitness.
